(** * hd-idle for Windows: the idle-detection engine of [hd-idle.cpp]

    A shallow embedding of [main] and of the helpers it calls
    ([get_diskstats], [ata_check_power_mode], [ata_set_standby_mode]),
    followed by the properties of the start-up policy table, of the polling
    interval and of the per-drive decision step.

    Conventions.
    - [int], [time_t] and [unsigned int] values are integers in [Z].  The
      only arithmetic of the program is [min_idle_time / 10] (C division,
      which truncates: [Z.quot]), [1 << 30] and [now - ds->last_io] on two
      [time_t] (64-bit) clock readings.
    - A [char *] that may be [NULL] is an [option string]; [strcmp(a, b) == 0]
      is [String.eqb a b].
    - The singly linked lists [it_root] and [ds_root] are lists, head first;
      a pointer into [ds_root] is a position in the list.
    - Every call to the operating system is answered from a record of
      observations ([obs]), one field per call site, and leaves an [event]
      in the trace of the step.
    - [for (;;)] never ends; the model runs a given number of its rounds.
    - [parse_options] and [main] give the variables that option parsing
      leaves and the main loop that starts from them.  [parse_options_events]
      and [main_outcome] give start-up with what it does to the outside
      world as well: the allocations and what a failing [malloc] leads to,
      the log line of [disk_name], and [spindown_disk] behind [-t].
    - The two functions that the program has no call of, [ata_set_idle_mode]
      and [phex], are modelled on their own. *)

From Stdlib Require Import ZArith Lia Bool.
From stdpp Require Import base tactics option list strings pretty.

Local Open Scope Z_scope.

(** ** Start-up: the idle-time table *)

Definition DEFAULT_IDLE_TIME : Z := 60.

(** [struct IDLE_TIME]; [next] is the tail of the list. *)
Record IDLE_TIME := mk_IDLE_TIME {
  it_name : option string;
  it_idle_time : Z
}.

(** What one call of [getopt(argc, argv, "t:a:i:l:dh")] hands to the
    [switch]: the option letter with [optarg].  For [-i] the argument is
    given as the value of [atoi(optarg)]. *)
Inductive getopt_result :=
| opt_t (optarg : string)
| opt_a (optarg : string)
| opt_i (atoi_optarg : Z)
| opt_l (optarg : string)
| opt_d
| opt_h
| opt_colon
| opt_question.

(** The variables of [main] that option parsing writes.  The local pointer
    [it] always equals [it_root] (both are set together at every
    allocation), so [it->idle_time = ...] writes the head of the list. *)
Record startup := mk_startup {
  it_root : list IDLE_TIME;
  logfile : string;
  have_logfile : bool;
  debug : bool
}.

Inductive parsed :=
| Parsed (s : startup)
| Returned (code : Z) (spindown_disk_arg : option string).

(** [disk_name] returns its argument. *)
Definition disk_name (path : string) : string := path.

Definition set_head_idle_time (n : Z) (it : list IDLE_TIME) : list IDLE_TIME :=
  match it with
  | e :: next => mk_IDLE_TIME (it_name e) n :: next
  | [] => []
  end.

Fixpoint parse_options (opts : list getopt_result) (s : startup) : parsed :=
  match opts with
  | [] => Parsed s
  | opt :: rest =>
    match opt with
    | opt_t disk => Returned 0 (Some disk)
    | opt_a arg =>
      parse_options rest
        (mk_startup (mk_IDLE_TIME (Some (disk_name arg)) DEFAULT_IDLE_TIME :: it_root s)
                    (logfile s) (have_logfile s) (debug s))
    | opt_i n =>
      parse_options rest
        (mk_startup (set_head_idle_time n (it_root s))
                    (logfile s) (have_logfile s) (debug s))
    | opt_l file =>
      parse_options rest (mk_startup (it_root s) file true (debug s))
    | opt_d =>
      parse_options rest (mk_startup (it_root s) (logfile s) (have_logfile s) true)
    | opt_h => Returned 0 None
    | opt_colon => Returned 1 None
    | opt_question => Returned 1 None
    end
  end.

(** The state [main] starts option parsing in: the default entry is the only
    entry, [logfile = "/dev/null"], [debug = 1]. *)
Definition initial_startup : startup :=
  mk_startup [mk_IDLE_TIME None DEFAULT_IDLE_TIME] "/dev/null" false true.

Definition main_options (opts : list getopt_result) : parsed :=
  parse_options opts initial_startup.

(** The loop that finds the idle time of a new disk.  [idle_time] is the
    value [ds->idle_time] has when no entry matches. *)
Fixpoint find_idle_time (it : list IDLE_TIME) (name : string) (idle_time : Z) : Z :=
  match it with
  | [] => idle_time
  | e :: next =>
    match it_name e with
    | None => it_idle_time e
    | Some n => if String.eqb name n then it_idle_time e
                else find_idle_time next name idle_time
    end
  end.

(** ** Start-up: the sleep time *)

Fixpoint min_idle_time_loop (it : list IDLE_TIME) (min_idle_time : Z) : Z :=
  match it with
  | [] => min_idle_time
  | e :: next =>
    if negb (it_idle_time e =? 0) && (it_idle_time e <? min_idle_time)
    then min_idle_time_loop next (it_idle_time e)
    else min_idle_time_loop next min_idle_time
  end.

Definition compute_sleep_time (it : list IDLE_TIME) : Z :=
  let min_idle_time := min_idle_time_loop it (Z.shiftl 1 30) in
  let sleep_time := Z.quot min_idle_time 10 in
  let sleep_time := if sleep_time =? 0 then 1 else sleep_time in
  if 10 <? sleep_time then 10 else sleep_time.

(** ** The main loop: data *)

(** [struct DISKSTATS]; [next] is the tail of the list, [spun_down] is a
    one-bit field. *)
Record DISKSTATS := mk_DISKSTATS {
  ds_name : string;
  ds_idle_time : Z;
  ds_last_io : Z;
  ds_spindown : Z;
  ds_spinup : Z;
  ds_spun_down : bool;
  ds_reads : Z;
  ds_writes : Z
}.

Definition set_spun_down (b : bool) (d : DISKSTATS) : DISKSTATS :=
  mk_DISKSTATS (ds_name d) (ds_idle_time d) (ds_last_io d) (ds_spindown d)
               (ds_spinup d) b (ds_reads d) (ds_writes d).

Definition set_spindown (t : Z) (d : DISKSTATS) : DISKSTATS :=
  mk_DISKSTATS (ds_name d) (ds_idle_time d) (ds_last_io d) t
               (ds_spinup d) (ds_spun_down d) (ds_reads d) (ds_writes d).

Definition set_spinup (t : Z) (d : DISKSTATS) : DISKSTATS :=
  mk_DISKSTATS (ds_name d) (ds_idle_time d) (ds_last_io d) (ds_spindown d)
               t (ds_spun_down d) (ds_reads d) (ds_writes d).

Definition set_last_io (t : Z) (d : DISKSTATS) : DISKSTATS :=
  mk_DISKSTATS (ds_name d) (ds_idle_time d) t (ds_spindown d)
               (ds_spinup d) (ds_spun_down d) (ds_reads d) (ds_writes d).

Definition set_counts (reads writes : Z) (d : DISKSTATS) : DISKSTATS :=
  mk_DISKSTATS (ds_name d) (ds_idle_time d) (ds_last_io d) (ds_spindown d)
               (ds_spinup d) (ds_spun_down d) reads writes.

(** The variables that live across polling cycles: what start-up left
    ([it_root], [debug]), the list [ds_root], and the function-local
    [static bool tried_diskperf]. *)
Record globals := mk_globals {
  config : startup;
  ds_root : list DISKSTATS;
  tried_diskperf : bool
}.

Definition initial_globals (s : startup) : globals := mk_globals s [] false.

(** Constants of the Windows SDK headers. *)
Definition ERROR_INVALID_FUNCTION : Z := 1.
Definition ERROR_FILE_NOT_FOUND : Z := 2.
Definition ERROR_ACCESS_DENIED : Z := 5.
Definition ERROR_NOT_SUPPORTED : Z := 50.
Definition DRIVE_UNKNOWN : Z := 0.
Definition DRIVE_NO_ROOT_DIR : Z := 1.
Definition DRIVE_REMOVABLE : Z := 2.
Definition DRIVE_FIXED : Z := 3.
Definition DRIVE_REMOTE : Z := 4.
Definition DRIVE_CDROM : Z := 5.
Definition DRIVE_RAMDISK : Z := 6.
Definition GENERIC_READ : Z := 0x80000000.
Definition GENERIC_WRITE : Z := 0x40000000.

(** What the operating system answers during one pass of the loop body, one
    field per call site.  A failing call carries the code that
    [GetLastError] reports after it; [None] is success. *)
Record ata_obs := mk_ata_obs {
  a_open_error : option Z;
  a_flushed : bool;
  a_ioctl_error : option Z;
  a_CurrentTaskFile1 : Z
}.

Record obs := mk_obs {
  o_now : Z;
  o_open_error : option Z;
  o_power_r : bool;
  o_power_fOn : bool;
  o_drive_type : Z;
  o_check : ata_obs;
  o_perf_result : bool;
  o_perf_bytesReturned : Z;
  o_perf_error : Z;
  o_ReadCount : Z;
  o_WriteCount : Z;
  o_malloc : bool;
  o_standby : ata_obs
}.

Inductive printf_arg :=
| arg_s (s : string)
| arg_d (n : Z)
| arg_u (n : Z).

Inductive func := f_ata_check_power_mode | f_ata_set_standby_mode.

(** What a step does to the outside world, in order.  A call of one of the
    [ata_...] helpers is one event that holds the events of its body. *)
#[warnings="-register-all"]
Inductive event :=
| ev_time (now : Z)
| ev_CreateFile (name : string) (dwDesiredAccess : Z) (error : option Z)
| ev_GetDevicePowerState (name : string) (r fOn : bool)
| ev_CloseHandle (name : string)
| ev_GetDriveTypeA (vol : string) (type : Z)
| ev_DISK_PERFORMANCE (name : string) (result : bool) (bytesReturned : Z)
                      (ReadCount WriteCount : Z)
| ev_ATA_PASS_THROUGH (name : string) (command : Z) (error : option Z)
| ev_FlushFileBuffers (name : string) (flushed : bool)
| ev_malloc (ok : bool)
| ev_system (command : string)
| ev_printf (format : string) (args : list printf_arg)
| ev_fprintf_stderr (format : string)
| ev_sleep (seconds : Z)
| ev_call (f : func) (name : string) (body : list event).

Inductive control :=
| ctl_continue
| ctl_break
| ctl_return (code : Z).

(** ** The main loop: a reader, state and trace monad *)

Definition M (A : Type) : Type := obs → globals → A * globals * list event.

Definition M_ret {A} (a : A) : M A := λ _ g, (a, g, []).

Definition M_bind {A B} (m : M A) (k : A → M B) : M B :=
  λ o g, let '(a, g1, t1) := m o g in
         let '(b, g2, t2) := k a o g1 in
         (b, g2, t1 ++ t2).

Notation "'let!' x ':=' m 'in' k" := (M_bind m (λ x, k))
  (at level 10, x name, m at level 100, k at level 200).
Notation "m '>>' k" := (M_bind m (λ _, k))
  (at level 90, right associativity).

Definition ask {A} (f : obs → A) : M A := λ o g, (f o, g, []).
Definition gets {A} (f : globals → A) : M A := λ _ g, (f g, g, []).
Definition emit (e : event) : M unit := λ _ g, (tt, g, [e]).
Definition skip : M unit := M_ret tt.

(** Runs the body [m] of the helper [f] and files its events under one
    [ev_call]. *)
Definition call {A} (f : func) (name : string) (m : M A) : M A :=
  λ o g, let '(a, g1, t) := m o g in (a, g1, [ev_call f name t]).

Definition printf (format : string) (args : list printf_arg) : M unit :=
  emit (ev_printf format args).

(** [#define dprintf if (debug) printf] *)
Definition dprintf (format : string) (args : list printf_arg) : M unit :=
  let! dbg := gets (λ g, debug (config g)) in
  if dbg then printf format args else skip.

Definition update_ds_root (f : list DISKSTATS → list DISKSTATS) (g : globals)
  : globals :=
  mk_globals (config g) (f (ds_root g)) (tried_diskperf g).

Definition modify_ds (f : list DISKSTATS → list DISKSTATS) : M unit :=
  λ _ g, (tt, update_ds_root f g, []).

Definition set_tried_diskperf : M unit :=
  λ _ g, (tt, mk_globals (config g) (ds_root g) true, []).

(** ** The helpers *)

(** [get_diskstats]: the first entry of [ds_root] with this name, as its
    position in the list together with its contents. *)
Definition get_diskstats (name : string) : M (option (nat * DISKSTATS)) :=
  gets (λ g, list_find (λ ds, ds_name ds = name) (ds_root g)).

(** The three-way [switch (error)] after a failed [CreateFile] in the
    [ata_...] functions. *)
Definition report_open_error (fn name : string) (error : Z) : M unit :=
  if error =? ERROR_FILE_NOT_FOUND then
    dprintf (fn +:+ "(%s): ERROR_FILE_NOT_FOUND\n") [arg_s name]
  else if error =? ERROR_ACCESS_DENIED then
    dprintf (fn +:+ "(%s): ERROR_ACCESS_DENIED\n") [arg_s name] >>
    dprintf (fn +:+ "(%s): application requires admin privileges\n") [arg_s name]
  else
    dprintf (fn +:+ "(%s): error 0x%lx\n") [arg_s name; arg_u error].

(** The [switch (error)] after a failed [DeviceIoControl]; it has no
    [default]. *)
Definition report_ioctl_error (fn name : string) (error : Z) : M unit :=
  if error =? ERROR_INVALID_FUNCTION then
    dprintf (fn +:+ "(%s): ERROR_INVALID_FUNCTION\n") [arg_s name]
  else if error =? ERROR_NOT_SUPPORTED then
    dprintf (fn +:+ "(%s): ERROR_NOT_SUPPORTED\n") [arg_s name]
  else if error =? ERROR_ACCESS_DENIED then
    dprintf (fn +:+ "(%s): ERROR_ACCESS_DENIED\n") [arg_s name] >>
    dprintf (fn +:+ "(%s): application requires admin privileges\n") [arg_s name]
  else skip.

(** [ata_check_power_mode]: [-1] on failure, else the sector count register
    [cmd.CurrentTaskFile[1]] (a [UCHAR]) after CHECK POWER MODE (0xE5). *)
Definition ata_check_power_mode (name : string) : M Z :=
  call f_ata_check_power_mode name $
  let! a := ask o_check in
  emit (ev_CreateFile name (Z.lor GENERIC_READ GENERIC_WRITE) (a_open_error a)) >>
  match a_open_error a with
  | Some error =>
    report_open_error "ata_check_power_mode" name error >>
    M_ret (-1)
  | None =>
    emit (ev_ATA_PASS_THROUGH name 0xE5 (a_ioctl_error a)) >>
    match a_ioctl_error a with
    | Some error =>
      report_ioctl_error "ata_check_power_mode" name error >>
      M_ret (-1)
    | None =>
      emit (ev_CloseHandle name) >>
      M_ret (a_CurrentTaskFile1 a mod 256)
    end
  end.

(** [ata_set_standby_mode]: flush, then STANDBY IMMEDIATE (0xE0). *)
Definition ata_set_standby_mode (name : string) : M bool :=
  call f_ata_set_standby_mode name $
  let! a := ask o_standby in
  emit (ev_CreateFile name (Z.lor GENERIC_READ GENERIC_WRITE) (a_open_error a)) >>
  match a_open_error a with
  | Some error =>
    report_open_error "ata_set_standby_mode" name error >>
    M_ret false
  | None =>
    emit (ev_FlushFileBuffers name (a_flushed a)) >>
    (if a_flushed a then skip
     else dprintf "ata_set_standby_mode(%s): failed to flush file buffers / write cache\n"
                  [arg_s name]) >>
    emit (ev_ATA_PASS_THROUGH name 0xE0 (a_ioctl_error a)) >>
    match a_ioctl_error a with
    | Some error =>
      report_ioctl_error "ata_set_standby_mode" name error >>
      M_ret false
    | None =>
      emit (ev_CloseHandle name) >>
      dprintf "ata_set_standby_mode(%s): SUCCESS\n" [arg_s name] >>
      M_ret true
    end
  end.

(** ** The body of the drive loop *)

(** [sprintf(tmp.name, "\\\\.\\PhysicalDrive%d", i)] *)
Definition physical_drive_name (i : Z) : string :=
  "\\.\PhysicalDrive" +:+ pretty i.

(** The [switch (ata)] that chooses [ata_power_mode_string]. *)
Definition ata_power_mode_string (ata : Z) : string :=
  if (ata =? 0x00) || (ata =? 0x01) then "standby mode"
  else if (ata =? 0x80) || (ata =? 0x81) || (ata =? 0x82) || (ata =? 0x83) then "idle mode"
  else if ata =? 0xff then "active or idle mode"
  else EmptyString.

(** The [switch (type)] inside [if (type != DRIVE_FIXED)]. *)
Definition drive_type_format (type : Z) : string :=
  if type =? DRIVE_UNKNOWN then "probing %s: drive unknown\n"
  else if type =? DRIVE_NO_ROOT_DIR then "probing %s: root path invalid\n"
  else if type =? DRIVE_REMOVABLE then "probing %s: removable media\n"
  else if type =? DRIVE_FIXED then "probing %s: fixed drive\n"
  else if type =? DRIVE_REMOTE then "probing %s: network drive\n"
  else if type =? DRIVE_CDROM then "probing %s: cdrom drive\n"
  else if type =? DRIVE_RAMDISK then "probing %s: ramdisk\n"
  else "probing %s: unknown drive type\n".

(** Conversion of a [DWORD] counter to [unsigned int]. *)
Definition to_uint (x : Z) : Z := x mod 2 ^ 32.

(** The record of a new disk: [memcpy] of [tmp] (zeroed by [memset], then
    [name], [reads] and [writes] filled in), [last_io] and [spinup] set to
    [now], and [idle_time] taken from the idle-time table. *)
Definition new_diskstats (it : list IDLE_TIME) (name : string) (now reads writes : Z)
  : DISKSTATS :=
  mk_DISKSTATS name (find_idle_time it name 0) now 0 now false reads writes.

(** The three cases on the previous statistics of a disk that has them;
    [p] is the position [ds] points to. *)
Definition update_diskstats (name : string) (now reads writes : Z) (mode : string)
    (p : nat) (ds : DISKSTATS) : M unit :=
  if (ds_reads ds =? reads) && (ds_writes ds =? writes) then
    if negb (ds_spun_down ds) then
      dprintf "probing %s: reads: %u, writes: %u, elapsed %llu / %d - %s\n"
              [arg_s name; arg_u reads; arg_u writes; arg_u (now - ds_last_io ds);
               arg_d (ds_idle_time ds); arg_s mode] >>
      if negb (ds_idle_time ds =? 0) && (ds_idle_time ds <=? now - ds_last_io ds) then
        ata_set_standby_mode (ds_name ds) >>
        modify_ds (alter (set_spindown now) p) >>
        modify_ds (alter (set_spun_down true) p)
      else skip
    else
      dprintf "probing %s: reads: %u, writes: %u, elapsed %llu / %d spun_down %u - %s\n"
              [arg_s name; arg_u reads; arg_u writes; arg_u (now - ds_last_io ds);
               arg_d (ds_idle_time ds); arg_u (if ds_spun_down ds then 1 else 0);
               arg_s mode]
  else
    dprintf "probing %s: reads: %u, writes: %u, elapsed %llu / %d - %s\n"
            [arg_s name; arg_u reads; arg_u writes; arg_u (now - ds_last_io ds);
             arg_d (ds_idle_time ds); arg_s mode] >>
    (if ds_spun_down ds then modify_ds (alter (set_spinup now) p) else skip) >>
    modify_ds (alter (set_counts reads writes) p) >>
    modify_ds (alter (set_last_io now) p) >>
    modify_ds (alter (set_spun_down false) p).

(** The rest of the loop body from "query read and write counts" on, for a
    powered fixed drive; [mode] is [ata_power_mode_string]. *)
Definition count_io (name : string) (now : Z) (mode : string) : M control :=
  let! result := ask o_perf_result in
  let! bytesReturned := ask o_perf_bytesReturned in
  let! ReadCount := ask o_ReadCount in
  let! WriteCount := ask o_WriteCount in
  emit (ev_DISK_PERFORMANCE name result bytesReturned ReadCount WriteCount) >>
  if negb result || (bytesReturned <=? 0) then
    let! error := ask o_perf_error in
    dprintf "probing %s: cannot query read/write counts  result %d  bytesReturned %d error 0x%dx\n"
            [arg_s name; arg_d (if result then 1 else 0); arg_d bytesReturned;
             arg_d error] >>
    emit (ev_CloseHandle name) >>
    let! tried := gets tried_diskperf in
    (if (error =? 1) && negb tried then
       set_tried_diskperf >> emit (ev_system "diskperf -YD")
     else skip) >>
    M_ret ctl_continue
  else
    emit (ev_CloseHandle name) >>
    let reads := to_uint ReadCount in
    let writes := to_uint WriteCount in
    let! ds := get_diskstats name in
    match ds with
    | None =>
      dprintf "probing %s: reads: %u, writes: %u, new disk - %s\n"
              [arg_s name; arg_u reads; arg_u writes; arg_s mode] >>
      let! ok := ask o_malloc in
      emit (ev_malloc ok) >>
      if ok then
        let! it := gets (λ g, it_root (config g)) in
        modify_ds (cons (new_diskstats it name now reads writes)) >>
        M_ret ctl_continue
      else
        emit (ev_fprintf_stderr "out of memory\n") >>
        M_ret (ctl_return 2)
    | Some (p, d) =>
      update_diskstats name now reads writes mode p d >>
      M_ret ctl_continue
    end.

(** One pass of [for (int i = 0; i < 255; ++i)]. *)
Definition probe_drive (i : Z) : M control :=
  let! now := ask o_now in
  emit (ev_time now) >>
  let name := physical_drive_name i in
  let! open_error := ask o_open_error in
  emit (ev_CreateFile name 0 open_error) >>
  match open_error with
  | Some error =>
    (if error =? ERROR_FILE_NOT_FOUND then skip
     else if error =? ERROR_ACCESS_DENIED then
       printf "probing %s: application requires admin privileges\n" [arg_s name]
     else skip) >>
    M_ret ctl_break
  | None =>
    let! r := ask o_power_r in
    let! fOn := ask o_power_fOn in
    emit (ev_GetDevicePowerState name r fOn) >>
    if negb r || negb fOn then
      dprintf "probing %s: asleep\n" [arg_s name] >>
      let! ds := get_diskstats name in
      match ds with
      | Some (p, _) => modify_ds (alter (set_spun_down true) p)
      | None => skip
      end >>
      emit (ev_CloseHandle name) >>
      M_ret ctl_continue
    else
      let! type := ask o_drive_type in
      emit (ev_GetDriveTypeA (name +:+ "\") type) >>
      if negb (type =? DRIVE_FIXED) then
        dprintf (drive_type_format type) [arg_s name] >>
        M_ret ctl_continue
      else
        let! ata := ata_check_power_mode name in
        count_io name now (ata_power_mode_string ata)
  end.

(** ** The loops *)

(** [for (int i = 0; i < 255; ++i)], with [n] passes left to go; [w i] is
    what the operating system answers while drive [i] is probed.  The result
    is [Some code] when the body returned from [main]. *)
Fixpoint probe_drives (n : nat) (i : Z) (w : Z → obs) (g : globals)
  : option Z * globals * list event :=
  match n with
  | O => (None, g, [])
  | S n' =>
    let '(c, g1, t1) := probe_drive i (w i) g in
    match c with
    | ctl_continue =>
      let '(r, g2, t2) := probe_drives n' (i + 1) w g1 in (r, g2, t1 ++ t2)
    | ctl_break => (None, g1, t1)
    | ctl_return code => (Some code, g1, t1)
    end
  end.

(** The first [length ws] rounds of [for (;;)]: each round probes the drives
    and sleeps. *)
Fixpoint main_loop (sleep_time : Z) (ws : list (Z → obs)) (g : globals)
  : option Z * globals * list event :=
  match ws with
  | [] => (None, g, [])
  | w :: rest =>
    let '(r, g1, t1) := probe_drives 255 0 w g in
    match r with
    | Some code => (Some code, g1, t1)
    | None =>
      let '(r2, g2, t2) := main_loop sleep_time rest g1 in
      (r2, g2, t1 ++ ev_sleep sleep_time :: t2)
    end
  end.

(** [main], cut off after [length ws] rounds of the main loop; [None] when
    an option makes it return before the loop ([parse_options] has the
    code). *)
Definition main (opts : list getopt_result) (ws : list (Z → obs))
  : option (option Z * globals * list event) :=
  match main_options opts with
  | Returned _ _ => None
  | Parsed s =>
    Some (main_loop (compute_sleep_time (it_root s)) ws (initial_globals s))
  end.

(** A sequence of passes of the loop body, each for a drive of its own and
    with observations of its own, as the rounds of the main loop string them
    together; the traces are kept apart, one per pass.  The passes are run
    whatever control they end with, so the sequences of the program are
    among these. *)
Fixpoint probe_sequence (steps : list (Z * obs)) (g : globals)
  : globals * list (list event) :=
  match steps with
  | [] => (g, [])
  | (i, o) :: rest =>
    let '(_, g1, t1) := probe_drive i o g in
    let '(g2, ts) := probe_sequence rest g1 in
    (g2, t1 :: ts)
  end.

(** ** Reading traces *)

(** A call of [ata_set_standby_mode] for [name]. *)
Definition is_standby_call (name : string) (e : event) : bool :=
  match e with
  | ev_call f_ata_set_standby_mode n _ => String.eqb n name
  | _ => false
  end.

(** How often a trace calls [ata_set_standby_mode] for [name]. *)
Definition standby_calls (name : string) (t : list event) : nat :=
  length (List.filter (is_standby_call name) t).

(** A STANDBY IMMEDIATE command that went to a device. *)
Definition is_standby_command (e : event) : bool :=
  match e with
  | ev_ATA_PASS_THROUGH _ command _ => command =? 0xE0
  | _ => false
  end.

(** The STANDBY IMMEDIATE commands inside the calls of
    [ata_set_standby_mode] of a trace. *)
Definition standby_commands (t : list event) : nat :=
  list_sum (map (λ e, match e with
                      | ev_call f_ata_set_standby_mode _ body =>
                        length (List.filter is_standby_command body)
                      | _ => O
                      end) t).

(** A query of the read and write counts. *)
Definition is_counter_read (e : event) : bool :=
  match e with
  | ev_DISK_PERFORMANCE _ _ _ _ _ => true
  | _ => false
  end.

(** The call of [GetDevicePowerState]. *)
Definition is_power_probe (e : event) : bool :=
  match e with
  | ev_GetDevicePowerState _ _ _ => true
  | _ => false
  end.

(** The events that only report: log lines, and the power mode query whose
    answer goes into a log line. *)
Definition is_diagnostic (e : event) : bool :=
  match e with
  | ev_printf _ _ => true
  | ev_call f_ata_check_power_mode _ _ => true
  | _ => false
  end.

Definition without_diagnostics (t : list event) : list event :=
  List.filter (λ e, negb (is_diagnostic e)) t.

(** The arguments of the calls of [sleep], in order. *)
Definition sleeps (t : list event) : list Z :=
  omap (λ e, match e with ev_sleep seconds => Some seconds | _ => None end) t.

(** ** Vocabulary of the statements *)

(** The idle time that a run of options leaves in the entry that is current
    when the run starts: the last [-i] before the next [-a] if there is one,
    else the value [cur] the entry has. *)
Fixpoint idle_of_block (opts : list getopt_result) (cur : Z) : Z :=
  match opts with
  | [] => cur
  | opt_a _ :: _ => cur
  | opt_i n :: rest => idle_of_block rest n
  | _ :: rest => idle_of_block rest cur
  end.

(** The idle times of the table that are not zero. *)
Definition nonzero_idle_times (it : list IDLE_TIME) : list Z :=
  List.filter (λ t, negb (t =? 0)) (map it_idle_time it).

(** The drive opens, reports that it is powered, is a fixed drive, and the
    query of its counters succeeds with [reads] and [writes]. *)
Definition reads_counters (reads writes : Z) (o : obs) : bool :=
  bool_decide (o_open_error o = None) && o_power_r o && o_power_fOn o &&
  (o_drive_type o =? DRIVE_FIXED) && o_perf_result o &&
  (0 <? o_perf_bytesReturned o) &&
  (to_uint (o_ReadCount o) =? reads) && (to_uint (o_WriteCount o) =? writes).

(** The drive opens and [GetDevicePowerState] succeeds with [fOn = FALSE]. *)
Definition reports_off (o : obs) : bool :=
  bool_decide (o_open_error o = None) && o_power_r o && negb (o_power_fOn o).

(** The drive opens and the call of [GetDevicePowerState] itself fails. *)
Definition probe_fails (o : obs) : bool :=
  bool_decide (o_open_error o = None) && negb (o_power_r o).

(** The same observations with another answer to the power mode query. *)
Definition with_check (a : ata_obs) (o : obs) : obs :=
  mk_obs (o_now o) (o_open_error o) (o_power_r o) (o_power_fOn o) (o_drive_type o)
         a (o_perf_result o) (o_perf_bytesReturned o) (o_perf_error o)
         (o_ReadCount o) (o_WriteCount o) (o_malloc o) (o_standby o).

(** The same observations with another answer to the standby command. *)
Definition with_standby (a : ata_obs) (o : obs) : obs :=
  mk_obs (o_now o) (o_open_error o) (o_power_r o) (o_power_fOn o) (o_drive_type o)
         (o_check o) (o_perf_result o) (o_perf_bytesReturned o) (o_perf_error o)
         (o_ReadCount o) (o_WriteCount o) (o_malloc o) a.

(** The same observations with another answer of [GetDevicePowerState]. *)
Definition with_power (r fOn : bool) (o : obs) : obs :=
  mk_obs (o_now o) (o_open_error o) r fOn (o_drive_type o)
         (o_check o) (o_perf_result o) (o_perf_bytesReturned o) (o_perf_error o)
         (o_ReadCount o) (o_WriteCount o) (o_malloc o) (o_standby o).

(** The entry of [ds_root] that [get_diskstats] finds for drive [i]. *)
Definition diskstats_of (i : Z) (g : globals) : option DISKSTATS :=
  snd <$> list_find (λ ds, ds_name ds = physical_drive_name i) (ds_root g).

(** The test that guards the call of [ata_set_standby_mode]: the disk is
    believed to run, its idle time is not zero, and at least the idle time
    has passed since the last activity. *)
Definition spin_down_due (d : DISKSTATS) (now : Z) : bool :=
  negb (ds_spun_down d) && negb (ds_idle_time d =? 0) &&
  (ds_idle_time d <=? now - ds_last_io d).

(** The step [s], a drive number with what is observed, is a step on drive
    [i] at a time when the standby call is due for the entry [d]. *)
Definition step_is_due (i : Z) (d : DISKSTATS) (s : Z * obs) : bool :=
  (s.1 =? i) && spin_down_due d (o_now s.2).

(** No entry for [name] in the list has an idle time other than zero. *)
Definition exempt (name : string) (l : list DISKSTATS) : Prop :=
  Forall (λ d, ds_name d = name → ds_idle_time d = 0) l.

(** ** Sample observations *)

(** The device opens and the ATA command succeeds; the sector count register
    reads 0xff. *)
Definition answer_ok : ata_obs := mk_ata_obs None true None 0xff.

(** The device cannot be opened for lack of privileges. *)
Definition answer_denied : ata_obs :=
  mk_ata_obs (Some ERROR_ACCESS_DENIED) true None 0.

(** A powered fixed drive whose counters read [reads] and [writes]. *)
Definition obs_running (now reads writes : Z) : obs :=
  mk_obs now None true true DRIVE_FIXED answer_ok true 8 0 reads writes true answer_ok.

(** A drive that reports that it is powered off. *)
Definition obs_off (now : Z) : obs :=
  mk_obs now None true false DRIVE_FIXED answer_ok true 8 0 0 0 true answer_ok.

(** A drive for which [GetDevicePowerState] fails. *)
Definition obs_probe_failed (now : Z) : obs :=
  mk_obs now None false true DRIVE_FIXED answer_ok true 8 0 0 0 true answer_ok.

(** No drive at all: [CreateFile] fails with [ERROR_FILE_NOT_FOUND]. *)
Definition obs_absent (now : Z) : obs :=
  mk_obs now (Some ERROR_FILE_NOT_FOUND) false false 0 answer_ok false 0 0 0 0 true
         answer_ok.

(** The entry of drive 0 with idle time 90, last active at time 0 with 100
    reads and 50 writes, and the program state that holds just this entry. *)
Definition sample_disk (spun_down : bool) : DISKSTATS :=
  mk_DISKSTATS "\\.\PhysicalDrive0" 90 0 0 0 spun_down 100 50.

Definition sample_globals (spun_down : bool) : globals :=
  mk_globals initial_startup [sample_disk spun_down] false.

(** A stretch of trace that holds log lines only. *)
Definition log_lines (t : list event) : Prop :=
  Forall (λ e, ∃ format args, e = ev_printf format args) t.

(** The log line of [dprintf], if [debug] is set. *)
Definition dprintf_events (g : globals) (format : string) (args : list printf_arg)
  : list event :=
  if debug (config g) then [ev_printf format args] else [].

(** ** The functions outside the main loop *)

(** [ata_set_idle_mode]: IDLE IMMEDIATE (0xE1), without a flush.  The
    program has no call of it; [a] is what the operating system answers. *)
Definition ata_set_idle_mode (a : ata_obs) (name : string) : M bool :=
  emit (ev_CreateFile name (Z.lor GENERIC_READ GENERIC_WRITE) (a_open_error a)) >>
  match a_open_error a with
  | Some error =>
    report_open_error "ata_set_idle_mode" name error >>
    M_ret false
  | None =>
    emit (ev_ATA_PASS_THROUGH name 0xE1 (a_ioctl_error a)) >>
    match a_ioctl_error a with
    | Some error =>
      report_ioctl_error "ata_set_idle_mode" name error >>
      M_ret false
    | None =>
      emit (ev_CloseHandle name) >>
      dprintf "ata_set_idle_mode(%s): SUCCESS\n" [arg_s name] >>
      M_ret true
    end
  end.

(** What the operating system answers to [spindown_disk]: the error of a
    failing [CreateFile], the result of [FlushFileBuffers], and the result
    [iReply] of [DeviceIoControl]. *)
Record stop_obs := mk_stop_obs {
  s_open_error : option Z;
  s_flushed : bool;
  s_iReply : Z
}.

(** What [main] does to the outside world before the loop: the events of
    the loop and the SCSI pass-through of [spindown_disk], with the command
    block and the timeout it sets. *)
Inductive stop_event :=
| se_os (e : event)
| se_SCSI_PASS_THROUGH_DIRECT (name : string) (Cdb : list Z) (TimeOutValue : Z)
                              (iReply : Z).

(** [dprintf] under a given value of [debug]. *)
Definition stop_dprintf (dbg : bool) (format : string) (args : list printf_arg)
  : list stop_event :=
  if dbg then [se_os (ev_printf format args)] else [].

(** [spindown_disk]: flush, then the SCSI stop unit command
    [1b 00 00 00 00 00]; [dbg] is the value of [debug]. *)
Definition spindown_disk (dbg : bool) (a : stop_obs) (name : string)
  : list stop_event :=
  se_os (ev_CreateFile name (Z.lor GENERIC_READ GENERIC_WRITE) (s_open_error a)) ::
  match s_open_error a with
  | Some error =>
    if error =? ERROR_ACCESS_DENIED then
      stop_dprintf dbg
        "stop %s => failed to open device; application requires admin privileges\n"
        [arg_s name]
    else
      stop_dprintf dbg "stop %s => failed to open device; error %d\n"
                   [arg_s name; arg_d error]
  | None =>
    se_os (ev_FlushFileBuffers name (s_flushed a)) ::
    (if s_flushed a then []
     else stop_dprintf dbg "stop %s => failed to flush file buffers / write cache\n"
                       [arg_s name]) ++
    se_SCSI_PASS_THROUGH_DIRECT name [0x1b; 0; 0; 0; 0; 0] 30 (s_iReply a) ::
    (if s_iReply a =? 0 then
       stop_dprintf dbg "stop %s => failed to pass scsi stop unit command  iReply %d\n"
                    [arg_s name; arg_d (s_iReply a)]
     else stop_dprintf dbg "stop %s => success\n" [arg_s name]) ++
    [se_os (ev_CloseHandle name)]
  end.

(** The log line of [disk_name], which returns its argument:
    [if (debug) printf("using %s for %s\n", path, path)]. *)
Definition disk_name_events (dbg : bool) (path : string) : list stop_event :=
  stop_dprintf dbg "using %s for %s\n" [arg_s path; arg_s path].

(** What option parsing ends in, with the events up to there: the variables
    of [main] when the options are used up, or the code that [main]
    returns. *)
Inductive parse_outcome :=
| po_parsed (s : startup) (t : list stop_event)
| po_returned (code : Z) (t : list stop_event).

Definition po_after (t : list stop_event) (r : parse_outcome) : parse_outcome :=
  match r with
  | po_parsed s t' => po_parsed s (t ++ t')
  | po_returned code t' => po_returned code (t ++ t')
  end.

(** The loop [while ((opt = getopt(...)) != -1)] with what it does to the
    outside world.  [alloc k] is the answer to the call of [malloc] number
    [k] of the program; [k] is the number of the next call.  [-t] spins the
    disk down, [-a] allocates an entry and calls [disk_name], [-h] prints
    the usage, a missing argument or an unknown option prints an error (the
    option letter [optopt] in it is left out). *)
Fixpoint parse_options_events (stop : stop_obs) (alloc : nat → bool) (k : nat)
    (opts : list getopt_result) (s : startup) : parse_outcome :=
  match opts with
  | [] => po_parsed s []
  | opt :: rest =>
    match opt with
    | opt_t disk => po_returned 0 (spindown_disk (debug s) stop disk)
    | opt_a arg =>
      if alloc k then
        po_after (se_os (ev_malloc true) :: disk_name_events (debug s) arg)
          (parse_options_events stop alloc (S k) rest
             (mk_startup
                (mk_IDLE_TIME (Some (disk_name arg)) DEFAULT_IDLE_TIME :: it_root s)
                (logfile s) (have_logfile s) (debug s)))
      else
        po_returned 2 [se_os (ev_malloc false);
                       se_os (ev_fprintf_stderr "out of memory\n")]
    | opt_i n =>
      parse_options_events stop alloc k rest
        (mk_startup (set_head_idle_time n (it_root s))
                    (logfile s) (have_logfile s) (debug s))
    | opt_l file =>
      parse_options_events stop alloc k rest
        (mk_startup (it_root s) file true (debug s))
    | opt_d =>
      parse_options_events stop alloc k rest
        (mk_startup (it_root s) (logfile s) (have_logfile s) true)
    | opt_h =>
      po_returned 0
        [se_os (ev_printf
           "usage: hd-idle [-t <disk>] [-a <name>] [-i <idle_time>] [-l <logfile>] [-d] [-h]\n"
           [])]
    | opt_colon =>
      po_returned 1
        [se_os (ev_fprintf_stderr "error: option -%c requires an argument\n")]
    | opt_question =>
      po_returned 1 [se_os (ev_fprintf_stderr "error: unknown option -%c\n")]
    end
  end.

(** The option that makes [main] return, if there is one. *)
Fixpoint returning_option (opts : list getopt_result) : option getopt_result :=
  match opts with
  | [] => None
  | opt :: rest =>
    match opt with
    | opt_t _ | opt_h | opt_colon | opt_question => Some opt
    | _ => returning_option rest
    end
  end.

Inductive outcome :=
| out_returned (code : Z) (t : list stop_event)
| out_loop (t : list stop_event) (r : option Z * globals * list event).

(** [main] from its first line: the allocation of the default entry, whose
    failure ends the program with [exit(1)]; option parsing; and, unless an
    option makes [main] return, the main loop, for [length ws] rounds. *)
Definition main_outcome (opts : list getopt_result) (alloc : nat → bool)
    (stop : stop_obs) (ws : list (Z → obs)) : outcome :=
  if alloc 0%nat then
    match parse_options_events stop alloc 1 opts initial_startup with
    | po_returned code t => out_returned code (se_os (ev_malloc true) :: t)
    | po_parsed s t =>
      out_loop (se_os (ev_malloc true) :: t)
               (main_loop (compute_sleep_time (it_root s)) ws (initial_globals s))
    end
  else
    out_returned 1 [se_os (ev_malloc false);
                    se_os (ev_fprintf_stderr "out of memory\n")].

(** [phex]: what it passes to [vfprintf] and [fprintf], call by call, as the
    format with its arguments; a [%c] argument is the character code.
    [buf] holds the bytes at [p]; [buf += 16] drops sixteen of them. *)
Definition phex_line (buf : list Z) (len pos : Z) : list (string * list printf_arg) :=
  ("%08x ", [arg_u pos]) ::
  map (λ i, if i <? len
            then ("%c%02x", [arg_d (if i =? 8 then 45 else 32);
                             arg_u (nth (Z.to_nat i) buf 0)])
            else ("   ", []))
      (seqZ 0 16) ++
  ("   ", []) ::
  map (λ i, let b := nth (Z.to_nat i) buf 0 in
            ("%c", [arg_d (if (32 <=? b) && (b <? 128) then b else 46)]))
      (seqZ 0 (if 16 <? len then 16 else len)) ++
  [("\n", [])].

(** The loop [while (len > 0)], with [fuel] rounds at most. *)
Fixpoint phex_loop (fuel : nat) (buf : list Z) (len pos : Z)
  : list (string * list printf_arg) :=
  match fuel with
  | O => []
  | S fuel' =>
    if 0 <? len
    then phex_line buf len pos ++ phex_loop fuel' (drop 16 buf) (len - 16) (pos + 16)
    else []
  end.

(** Every round takes 16 off [len], so [len] rounds are enough. *)
Definition phex (buf : list Z) (len : Z) (fmt : string) (args : list printf_arg)
  : list (string * list printf_arg) :=
  (fmt, args) :: phex_loop (Z.to_nat len) buf len 0.

(** ** More vocabulary *)

(** A write to an entry may change anything but its name and idle time. *)
Definition keeps_policy (f : DISKSTATS → DISKSTATS) : Prop :=
  ∀ x, ds_name (f x) = ds_name x ∧ ds_idle_time (f x) = ds_idle_time x.

(** The pass reads the counters, whatever they are. *)
Definition reads_now (o : obs) : bool :=
  reads_counters (to_uint (o_ReadCount o)) (to_uint (o_WriteCount o)) o.

(** The calls of [system]. *)
Definition is_system (e : event) : bool :=
  match e with
  | ev_system _ => true
  | _ => false
  end.

Definition system_calls (t : list event) : nat := length (List.filter is_system t).

(** A [CreateFile] that returned a handle, and a [CloseHandle]. *)
Definition is_open (e : event) : bool :=
  match e with
  | ev_CreateFile _ _ None => true
  | _ => false
  end.

Definition is_close (e : event) : bool :=
  match e with
  | ev_CloseHandle _ => true
  | _ => false
  end.

(** The handles a stretch of trace got and did not close. *)
Definition handles_left (t : list event) : Z :=
  Z.of_nat (length (List.filter is_open t)) - Z.of_nat (length (List.filter is_close t)).

(** The events in the body of the call of a helper. *)
Definition call_body (t : list event) : list event :=
  match t with
  | [ev_call _ _ body] => body
  | _ => []
  end.

(** The ATA commands of a stretch of trace, by their command register. *)
Definition ata_commands (t : list event) : list Z :=
  omap (λ e, match e with ev_ATA_PASS_THROUGH _ command _ => Some command | _ => None end)
       t.

Definition is_flush (e : event) : bool :=
  match e with
  | ev_FlushFileBuffers _ _ => true
  | _ => false
  end.

(** What [spindown_disk] sends down the SCSI pass-through. *)
Definition scsi_commands (t : list stop_event) : list (list Z) :=
  omap (λ e, match e with
             | se_SCSI_PASS_THROUGH_DIRECT _ Cdb _ _ => Some Cdb
             | _ => None
             end) t.

Definition stop_handles_left (t : list stop_event) : Z :=
  handles_left (omap (λ e, match e with se_os e' => Some e' | _ => None end) t).

(** The bytes that [phex] prints in hexadecimal, the offsets it prints, and
    the characters of its text column. *)
Definition phex_bytes (out : list (string * list printf_arg)) : list Z :=
  omap (λ c, match c with
             | (_, [arg_d _; arg_u b]) => Some b
             | _ => None
             end) out.

Definition phex_offsets (out : list (string * list printf_arg)) : list Z :=
  omap (λ c, match c with
             | (_, [arg_u pos]) => Some pos
             | _ => None
             end) out.

Definition phex_text (out : list (string * list printf_arg)) : list Z :=
  omap (λ c, match c with
             | (_, [arg_d ch]) => Some ch
             | _ => None
             end) out.

(** The device of a helper opens; its command succeeds as well; it opens
    and the command fails. *)
Definition ata_opens (a : ata_obs) : bool :=
  if a_open_error a is None then true else false.

Definition ata_succeeds (a : ata_obs) : bool :=
  ata_opens a && (if a_ioctl_error a is None then true else false).

Definition command_fails (a : ata_obs) : bool :=
  ata_opens a && (if a_ioctl_error a is None then false else true).

(** The drive opens, reports that it is powered and is a fixed drive: the
    pass gets as far as the power mode query. *)
Definition powered_fixed (o : obs) : bool :=
  bool_decide (o_open_error o = None) && o_power_r o && o_power_fOn o &&
  (o_drive_type o =? DRIVE_FIXED).

(** The drive opens, reports that it is powered and is not a fixed drive. *)
Definition powered_not_fixed (o : obs) : bool :=
  bool_decide (o_open_error o = None) && o_power_r o && o_power_fOn o &&
  negb (o_drive_type o =? DRIVE_FIXED).

(** A call of [ata_check_power_mode]. *)
Definition is_check_call (e : event) : bool :=
  match e with
  | ev_call f_ata_check_power_mode _ _ => true
  | _ => false
  end.

(** What a helper does to the device: a flush or an ATA command. *)
Definition is_device_io (e : event) : bool :=
  match e with
  | ev_FlushFileBuffers _ _ | ev_ATA_PASS_THROUGH _ _ _ => true
  | _ => false
  end.

(** The pass on drive [i] is one that makes the standby call: the drive has
    an entry, the counters read are those of the entry, and the spin-down is
    due. *)
Definition standby_due (i : Z) (o : obs) (g : globals) : bool :=
  match diskstats_of i g with
  | Some d => reads_counters (ds_reads d) (ds_writes d) o && spin_down_due d (o_now o)
  | None => false
  end.

(** The handles that an event leaves open, those of the body of a helper
    call among them. *)
Fixpoint event_handles (e : event) : Z :=
  match e with
  | ev_CreateFile _ _ None => 1
  | ev_CloseHandle _ => -1
  | ev_call _ _ body =>
    (fix go (l : list event) : Z :=
       match l with
       | [] => 0
       | x :: rest => event_handles x + go rest
       end) body
  | _ => 0
  end.

(** The handles that a stretch of trace got and did not close, inside the
    helper calls as well as outside them. *)
Definition all_handles_left (t : list event) : Z :=
  foldr (λ e n, event_handles e + n) 0 t.

(** What the [-a] options of a command line leave behind when every
    allocation succeeds and [debug] is on: an allocation and the log line of
    [disk_name] each. *)
Definition a_option_events (opts : list getopt_result) : list stop_event :=
  flat_map (λ opt, match opt with
                   | opt_a arg =>
                     [se_os (ev_malloc true);
                      se_os (ev_printf "using %s for %s\n" [arg_s arg; arg_s arg])]
                   | _ => []
                   end) opts.

(** * Properties *)

(** ** The idle-time table *)

Section Table.

Implicit Types (opts : list getopt_result) (s : startup) (it : list IDLE_TIME).

Lemma parse_options_app opts1 opts2 s :
  parse_options (opts1 ++ opts2) s =
  match parse_options opts1 s with
  | Parsed s1 => parse_options opts2 s1
  | r => r
  end.
Proof.
  revert s. induction opts1 as [|opt opts1 IH]; intros s; [done|].
  destruct opt; simpl; auto.
Qed.

(** Parsing only ever puts named entries in front of the entry that was
    current when it started, and writes that entry's idle time. *)
Lemma parse_options_table opts : ∀ s e tail s',
  it_root s = e :: tail →
  parse_options opts s = Parsed s' →
  ∃ front,
    it_root s' =
      front ++ mk_IDLE_TIME (it_name e) (idle_of_block opts (it_idle_time e)) :: tail ∧
    Forall (λ e', ∃ n, it_name e' = Some n ∧ opt_a n ∈ opts) front.
Proof.
  induction opts as [|opt rest IH]; intros s e tail s' Hroot Hparse.
  - injection Hparse as <-. exists []. destruct e. by rewrite Hroot.
  - destruct opt; simpl in Hparse; try discriminate.
    + (* -a *)
      eapply IH in Hparse; [|reflexivity].
      destruct Hparse as (front & Hfront & Hnamed). simpl in Hfront.
      exists (front ++ [mk_IDLE_TIME (Some (disk_name optarg))
                          (idle_of_block rest DEFAULT_IDLE_TIME)]).
      split.
      * rewrite Hfront, Hroot, <- app_assoc. by destruct e.
      * apply Forall_app. split.
        -- eapply Forall_impl; [exact Hnamed|].
           intros e' (n & Hn & Hin). exists n. split; [done|]. by right.
        -- apply Forall_singleton. exists optarg. split; [done|]. by left.
    + (* -i *)
      eapply IH in Hparse; [|simpl; rewrite Hroot; reflexivity].
      destruct Hparse as (front & Hfront & Hnamed).
      exists front. split; [exact Hfront|].
      eapply Forall_impl; [exact Hnamed|].
      intros e' (n & Hn & Hin). exists n. split; [done|]. by right.
    + (* -l *)
      eapply IH in Hparse; [|exact Hroot].
      destruct Hparse as (front & Hfront & Hnamed).
      exists front. split; [exact Hfront|].
      eapply Forall_impl; [exact Hnamed|].
      intros e' (n & Hn & Hin). exists n. split; [done|]. by right.
    + (* -d *)
      eapply IH in Hparse; [|exact Hroot].
      destruct Hparse as (front & Hfront & Hnamed).
      exists front. split; [exact Hfront|].
      eapply Forall_impl; [exact Hnamed|].
      intros e' (n & Hn & Hin). exists n. split; [done|]. by right.
Qed.

(** The search walks past every entry with another name. *)
Lemma find_idle_time_skip front it x d0 :
  Forall (λ e, ∃ n, it_name e = Some n ∧ n ≠ x) front →
  find_idle_time (front ++ it) x d0 = find_idle_time it x d0.
Proof.
  induction 1 as [|e front (n & Hn & Hne) _ IH]; [done|].
  simpl. rewrite Hn.
  destruct (String.eqb_spec x n) as [->|_]; [done|exact IH].
Qed.

(** First match among the named entries, else the entry without a name. *)
Lemma find_idle_time_first named dflt x d0 :
  Forall (λ e, it_name e ≠ None) named →
  it_name dflt = None →
  find_idle_time (named ++ [dflt]) x d0 =
  match list_find (λ e, it_name e = Some x) named with
  | Some (_, e) => it_idle_time e
  | None => it_idle_time dflt
  end.
Proof.
  intros Hnamed Hdflt.
  induction Hnamed as [|e named Hne _ IH]; simpl.
  - by rewrite Hdflt.
  - destruct (it_name e) as [n|] eqn:Hn; [|done].
    destruct (String.eqb_spec x n) as [->|Hx].
    + by rewrite decide_True.
    + rewrite decide_False by congruence. rewrite IH.
      by destruct (list_find _ named) as [[??]|].
Qed.

Lemma main_options_table opts s :
  main_options opts = Parsed s →
  ∃ named,
    it_root s = named ++ [mk_IDLE_TIME None (idle_of_block opts DEFAULT_IDLE_TIME)] ∧
    Forall (λ e, ∃ n, it_name e = Some n ∧ opt_a n ∈ opts) named.
Proof.
  intros H.
  exact (parse_options_table opts initial_startup
           (mk_IDLE_TIME None DEFAULT_IDLE_TIME) [] s eq_refl H).
Qed.

End Table.

(** Without an [-i] before the next [-a] the current entry keeps its idle
    time. *)
Lemma idle_of_block_no_i before rest cur :
  Forall (λ o, ∀ n, o ≠ opt_i n) before →
  rest = [] ∨ (∃ a after, rest = opt_a a :: after) →
  idle_of_block (before ++ rest) cur = cur.
Proof.
  intros Hbefore Hrest.
  induction Hbefore as [|o before Ho _ IH].
  - by destruct Hrest as [->|(a & after & ->)].
  - destruct o; simpl; auto. by destruct (Ho atoi_optarg).
Qed.

(** The last [-i] before the first [-a] is the one that the entry current
    at the start keeps. *)
Lemma idle_of_block_last_i before n between rest cur :
  Forall (λ o, ∀ a, o ≠ opt_a a) before →
  Forall (λ o, ∀ m, o ≠ opt_i m) between →
  rest = [] ∨ (∃ a after, rest = opt_a a :: after) →
  idle_of_block (before ++ opt_i n :: between ++ rest) cur = n.
Proof.
  intros Hbefore Hbetween Hrest. revert cur.
  induction Hbefore as [|o before Ho _ IH]; intros cur.
  - simpl. by apply idle_of_block_no_i.
  - destruct o; simpl; auto. by destruct (Ho optarg).
Qed.

(** C3, as the program has it.  The table always ends in the one entry
    without a name: it is created first and every [-a] entry goes in front
    of it.  Every device that no named entry matches gets the idle time of
    this entry, and an [-i] given before the first [-a] sets it: the last
    such [-i] decides.  What the entry holds when there is no such [-i] is
    not part of the statement. *)
Theorem default_entry_is_last (opts : list getopt_result) (s : startup)
    (Hparsed : main_options opts = Parsed s) :
  ∃ named dflt,
    it_root s = named ++ [dflt] ∧
    it_name dflt = None ∧
    Forall (λ e, it_name e ≠ None) named ∧
    (∀ x d0, Forall (λ e, it_name e ≠ Some x) named →
       find_idle_time (it_root s) x d0 = it_idle_time dflt) ∧
    (∀ before n between rest,
       opts = before ++ opt_i n :: between ++ rest →
       Forall (λ o, ∀ a, o ≠ opt_a a) before →
       Forall (λ o, ∀ m, o ≠ opt_i m) between →
       rest = [] ∨ (∃ a after, rest = opt_a a :: after) →
       it_idle_time dflt = n).
Proof.
  destruct (main_options_table opts s Hparsed) as (named & Hroot & Hnamed).
  exists named, (mk_IDLE_TIME None (idle_of_block opts DEFAULT_IDLE_TIME)).
  split; [exact Hroot|]. split; [done|]. split; [|split].
  - eapply Forall_impl; [exact Hnamed|]. intros e (n & Hn & _). congruence.
  - intros x d0 Hx. rewrite Hroot. rewrite find_idle_time_skip; [done|].
    apply Forall_forall. intros e He.
    rewrite Forall_forall in Hnamed, Hx.
    destruct (Hnamed e He) as (n & Hn & _). exists n. split; [done|].
    intros ->. by apply (Hx e He).
  - intros before n between rest -> Hbefore Hbetween Hrest. simpl.
    by apply idle_of_block_last_i.
Qed.

Lemma default_entry_is_last_witness :
  main_options [opt_d; opt_i 45; opt_i 30; opt_a "\\.\PhysicalDrive1"; opt_i 0] =
    Parsed (mk_startup [mk_IDLE_TIME (Some "\\.\PhysicalDrive1") 0; mk_IDLE_TIME None 30]
                       "/dev/null" false true) ∧
  ∃ named dflt,
    [mk_IDLE_TIME (Some "\\.\PhysicalDrive1") 0; mk_IDLE_TIME None 30] =
      named ++ [dflt] ∧
    it_name dflt = None ∧
    it_idle_time dflt = 30 ∧
    find_idle_time [mk_IDLE_TIME (Some "\\.\PhysicalDrive1") 0; mk_IDLE_TIME None 30]
                   "\\.\PhysicalDrive0" 0 = it_idle_time dflt.
Proof.
  split; [reflexivity|].
  destruct (default_entry_is_last
              [opt_d; opt_i 45; opt_i 30; opt_a "\\.\PhysicalDrive1"; opt_i 0] _ eq_refl)
    as (named & dflt & Hroot & Hname & Hnamed & Hfind & Hlast).
  exists named, dflt. split; [exact Hroot|]. split; [exact Hname|]. split.
  - apply (Hlast [opt_d; opt_i 45] 30 [] [opt_a "\\.\PhysicalDrive1"; opt_i 0]).
    + reflexivity.
    + repeat constructor; discriminate.
    + constructor.
    + right. by do 2 eexists.
  - apply Hfind. simpl in Hroot.
    assert (named = [mk_IDLE_TIME (Some "\\.\PhysicalDrive1") 0]) as ->.
    { destruct named as [|e1 [|e2 named]]; simpl in Hroot.
      - discriminate Hroot.
      - by injection Hroot as <- _.
      - injection Hroot as _ _ Hrest. by destruct named. }
    repeat constructor. simpl. discriminate.
Defined.

(** C3 as stated fails: with [-i 30] and no [-a] the entry without a name has
    the idle time 30, and a device that matches no named entry gets 30. *)
Lemma default_idle_time_not_always_600 :
  ¬ (∀ opts s x, main_options opts = Parsed s →
       Forall (λ e, it_name e ≠ Some x) (it_root s) →
       find_idle_time (it_root s) x 0 = 600).
Proof.
  intros H.
  specialize (H [opt_i 30] _ "\\.\PhysicalDrive0" eq_refl).
  simpl in H. discriminate H. repeat constructor; simpl; congruence.
Qed.

(** Without options, a device gets [DEFAULT_IDLE_TIME], which is 60. *)
Example default_idle_time_without_options :
  ∃ s, main_options [] = Parsed s ∧
       find_idle_time (it_root s) "\\.\PhysicalDrive0" 0 = 60.
Proof. eexists. split; reflexivity. Qed.

(** C4.  The search returns the idle time of the first entry whose name is
    equal to the device name, and that of the entry without a name, which
    comes after every named entry, when there is none; it never falls
    through.  Of several [-a] for one name the last one given decides, with
    the [-i] that follows it. *)
Theorem first_match_wins (opts : list getopt_result) (s : startup)
    (Hparsed : main_options opts = Parsed s) :
  ∃ named dflt,
    it_root s = named ++ [dflt] ∧
    it_name dflt = None ∧
    Forall (λ e, it_name e ≠ None) named ∧
    (∀ x d0,
       find_idle_time (it_root s) x d0 =
       match list_find (λ e, it_name e = Some x) named with
       | Some (_, e) => it_idle_time e
       | None => it_idle_time dflt
       end) ∧
    (∀ before x after d0,
       opts = before ++ opt_a x :: after → opt_a x ∉ after →
       find_idle_time (it_root s) x d0 = idle_of_block after DEFAULT_IDLE_TIME).
Proof.
  destruct (main_options_table opts s Hparsed) as (named & Hroot & Hnamed).
  assert (Forall (λ e, it_name e ≠ None) named) as Hsome.
  { eapply Forall_impl; [exact Hnamed|]. intros e (n & Hn & _). congruence. }
  exists named, (mk_IDLE_TIME None (idle_of_block opts DEFAULT_IDLE_TIME)).
  split; [exact Hroot|]. split; [done|]. split; [exact Hsome|]. split.
  - intros x d0. rewrite Hroot. by apply find_idle_time_first.
  - intros before x after d0 -> Hlast.
    unfold main_options in Hparsed. rewrite parse_options_app in Hparsed.
    destruct (parse_options before initial_startup) as [s1|] eqn:Hs1; [|discriminate].
    simpl in Hparsed.
    eapply parse_options_table in Hparsed; [|reflexivity].
    destruct Hparsed as (front & -> & Hfront). simpl.
    rewrite find_idle_time_skip.
    + simpl. unfold disk_name. by rewrite String.eqb_refl.
    + eapply Forall_impl; [exact Hfront|].
      intros e (n & Hn & Hin). exists n. split; [done|]. by intros ->.
Qed.

Lemma first_match_wins_witness :
  main_options [opt_a "sda"; opt_i 120; opt_a "sdb"; opt_a "sda"; opt_i 30] =
    Parsed (mk_startup [mk_IDLE_TIME (Some "sda") 30; mk_IDLE_TIME (Some "sdb") 60;
                        mk_IDLE_TIME (Some "sda") 120; mk_IDLE_TIME None 60]
                       "/dev/null" false true) ∧
  find_idle_time [mk_IDLE_TIME (Some "sda") 30; mk_IDLE_TIME (Some "sdb") 60;
                  mk_IDLE_TIME (Some "sda") 120; mk_IDLE_TIME None 60] "sda" 0 = 30.
Proof.
  split; [reflexivity|].
  destruct (first_match_wins
              [opt_a "sda"; opt_i 120; opt_a "sdb"; opt_a "sda"; opt_i 30] _ eq_refl)
    as (named & dflt & _ & _ & _ & _ & Hlast).
  apply (Hlast [opt_a "sda"; opt_i 120; opt_a "sdb"] "sda" [opt_i 30] 0 eq_refl).
  intros Hin. by repeat (apply elem_of_cons in Hin as [?|Hin]; [done|]);
    apply elem_of_nil in Hin.
Defined.

(** Equality of names is exact: a name that only starts like the device name
    does not match. *)
Example prefix_does_not_match :
  find_idle_time [mk_IDLE_TIME (Some "sd") 120; mk_IDLE_TIME None 600] "sda" 0 = 600 ∧
  find_idle_time [mk_IDLE_TIME (Some "sdb") 120; mk_IDLE_TIME None 600] "sdb" 0 = 120 ∧
  find_idle_time [mk_IDLE_TIME (Some "sdb") 120; mk_IDLE_TIME None 600] "sdc" 0 = 600.
Proof. repeat split. Qed.

(** ** The sleep time *)

(** What the loop over the table leaves in [min_idle_time]: never more than
    it started with, a lower bound of the idle times that are not zero, and
    either the starting value or one of those idle times. *)
Lemma min_idle_time_loop_spec it : ∀ acc,
  min_idle_time_loop it acc ≤ acc ∧
  (∀ k, k ∈ nonzero_idle_times it → min_idle_time_loop it acc ≤ k) ∧
  (min_idle_time_loop it acc = acc ∨
   min_idle_time_loop it acc ∈ nonzero_idle_times it).
Proof.
  unfold nonzero_idle_times.
  induction it as [|e it IH]; intros acc; simpl.
  - split; [lia|]. split; [|by left]. intros k Hk. by apply elem_of_nil in Hk.
  - destruct (Z.eqb_spec (it_idle_time e) 0) as [Hz|Hz]; simpl.
    + apply IH.
    + destruct (Z.ltb_spec (it_idle_time e) acc) as [Hlt|Hge].
      * destruct (IH (it_idle_time e)) as (Hle & Hlow & Hin).
        split; [lia|]. split.
        -- intros k [->|Hk]%elem_of_cons; [done|by apply Hlow].
        -- right. destruct Hin as [->|Hin]; [by left|by right].
      * destruct (IH acc) as (Hle & Hlow & Hin).
        split; [done|]. split.
        -- intros k [->|Hk]%elem_of_cons; [lia|by apply Hlow].
        -- destruct Hin as [Hin|Hin]; [by left|right; by right].
Qed.

(** C8, as the program has it.  With idle times that are not negative, the
    sleep time is [max(1, m / 10)] capped at 10, for [m] the smallest idle
    time that is not zero; when every idle time is zero it is the cap, 10. *)
Theorem sleep_time_is_tenth_of_shortest (it : list IDLE_TIME)
    (Hnonneg : Forall (λ e, 0 ≤ it_idle_time e) it) :
  (∀ m, m ∈ nonzero_idle_times it →
        (∀ k, k ∈ nonzero_idle_times it → m ≤ k) →
        compute_sleep_time it = Z.min 10 (Z.max 1 (m / 10))) ∧
  (nonzero_idle_times it = [] → compute_sleep_time it = 10).
Proof.
  unfold compute_sleep_time.
  destruct (min_idle_time_loop_spec it (Z.shiftl 1 30)) as (Hle & Hlow & Hin).
  change (Z.shiftl 1 30) with 1073741824 in *.
  set (r := min_idle_time_loop it 1073741824) in *.
  split.
  - intros m Hm Hmin.
    assert (0 < m) as Hpos.
    { unfold nonzero_idle_times in Hm.
      apply list_elem_of_In, filter_In in Hm as [Hm Hnz].
      apply in_map_iff in Hm as (e & <- & He).
      rewrite Forall_forall in Hnonneg.
      apply list_elem_of_In, Hnonneg in He.
      destruct (Z.eqb_spec (it_idle_time e) 0); [done|lia]. }
    assert (r ≤ m) as Hrm by (by apply Hlow).
    assert (r = m ∨ r = 1073741824) as Hr.
    { destruct Hin as [->|Hin]; [by right|]. left. apply Hmin in Hin. lia. }
    rewrite Z.quot_div_nonneg by lia.
    assert (0 ≤ m / 10) by (apply Z.div_pos; lia).
    destruct Hr as [Hr|Hr]; rewrite Hr.
    + destruct (Z.eqb_spec (m / 10) 0) as [Hq|Hq].
      * rewrite Hq. reflexivity.
      * destruct (Z.ltb_spec 10 (m / 10)); lia.
    + change (1073741824 / 10) with 107374182. simpl.
      assert (107374182 ≤ m / 10).
      { change 107374182 with (1073741824 / 10). apply Z.div_le_mono; lia. }
      lia.
  - intros Hnone. destruct Hin as [Hr|Hin].
    + rewrite Hr. reflexivity.
    + rewrite Hnone in Hin. by apply elem_of_nil in Hin.
Qed.

Lemma sleep_time_is_tenth_of_shortest_witness :
  Forall (λ e, 0 ≤ it_idle_time e)
         [mk_IDLE_TIME (Some "\\.\PhysicalDrive1") 45; mk_IDLE_TIME None 600] ∧
  compute_sleep_time
    [mk_IDLE_TIME (Some "\\.\PhysicalDrive1") 45; mk_IDLE_TIME None 600] = 4.
Proof.
  assert (Forall (λ e, 0 ≤ it_idle_time e)
            [mk_IDLE_TIME (Some "\\.\PhysicalDrive1") 45; mk_IDLE_TIME None 600]) as H.
  { repeat constructor; simpl; lia. }
  split; [exact H|].
  destruct (sleep_time_is_tenth_of_shortest _ H) as [Hmin _].
  rewrite (Hmin 45).
  - reflexivity.
  - by left.
  - intros k Hk. unfold nonzero_idle_times in Hk. simpl in Hk.
    repeat (apply elem_of_cons in Hk as [->|Hk]; [lia|]). by apply elem_of_nil in Hk.
Defined.

(** C8 as stated fails: when every idle time is zero the sleep time is 10,
    not 1. *)
Lemma sleep_time_all_zero_is_not_floor :
  ∃ s, main_options [opt_i 0] = Parsed s ∧
       Forall (λ e, it_idle_time e = 0) (it_root s) ∧
       compute_sleep_time (it_root s) = 10 ∧
       compute_sleep_time (it_root s) ≠ 1.
Proof.
  eexists. split; [reflexivity|]. split; [by repeat constructor|].
  split; [reflexivity|discriminate].
Qed.

(** A negative idle time, which [atoi] can deliver, gives a negative sleep
    time. *)
Example sleep_time_negative :
  compute_sleep_time [mk_IDLE_TIME None (-50)] = -5.
Proof. reflexivity. Qed.

(** ** The helpers leave the program state alone *)

Lemma dprintf_run format args (o : obs) (g : globals) :
  dprintf format args o g = (tt, g, dprintf_events g format args).
Proof.
  unfold dprintf, dprintf_events, M_bind, gets, printf, emit, skip, M_ret.
  by destruct (debug (config g)).
Qed.

(** Runs the monad: unfolds its operations and steps through the log
    lines. *)
Ltac run_m :=
  repeat first
    [ rewrite dprintf_run
    | progress (unfold M_bind, M_ret, skip, ask, emit, gets, printf, call,
                       modify_ds, set_tried_diskperf)
    | progress cbn [negb orb andb] ].

Section Helpers.

Implicit Types (o : obs) (g : globals) (name : string).

Lemma report_open_error_run fn name error o g :
  ∃ t, report_open_error fn name error o g = (tt, g, t) ∧
       List.filter is_standby_command t = [].
Proof.
  unfold report_open_error.
  destruct (error =? ERROR_FILE_NOT_FOUND); [|destruct (error =? ERROR_ACCESS_DENIED)];
    run_m; (eexists; split; [reflexivity|]);
    unfold dprintf_events; by destruct (debug (config g)).
Qed.

Lemma report_ioctl_error_run fn name error o g :
  ∃ t, report_ioctl_error fn name error o g = (tt, g, t) ∧
       List.filter is_standby_command t = [].
Proof.
  unfold report_ioctl_error.
  destruct (error =? ERROR_INVALID_FUNCTION);
    [|destruct (error =? ERROR_NOT_SUPPORTED);
      [|destruct (error =? ERROR_ACCESS_DENIED)]];
    run_m; (eexists; split; [reflexivity|]);
    unfold dprintf_events; by destruct (debug (config g)).
Qed.

(** [ata_check_power_mode] is one call event and does not touch the program
    state. *)
Lemma ata_check_power_mode_run name o g :
  ∃ ata body,
    ata_check_power_mode name o g = (ata, g, [ev_call f_ata_check_power_mode name body]).
Proof.
  unfold ata_check_power_mode. run_m.
  destruct (a_open_error (o_check o)) as [error|]; run_m.
  - destruct (report_open_error_run "ata_check_power_mode" name error o g)
      as (t & -> & _).
    eauto.
  - destruct (a_ioctl_error (o_check o)) as [error|]; run_m; [|eauto].
    destruct (report_ioctl_error_run "ata_check_power_mode" name error o g)
      as (t & -> & _).
    eauto.
Qed.

(** [ata_set_standby_mode] is one call event and does not touch the program
    state; it sends STANDBY IMMEDIATE once when the device opens and not at
    all when it does not. *)
Lemma ata_set_standby_mode_run name o g :
  ∃ ok body,
    ata_set_standby_mode name o g = (ok, g, [ev_call f_ata_set_standby_mode name body]) ∧
    length (List.filter is_standby_command body) =
      (if a_open_error (o_standby o) is Some _ then 0 else 1)%nat.
Proof.
  unfold ata_set_standby_mode. run_m.
  destruct (a_open_error (o_standby o)) as [error|]; run_m.
  - destruct (report_open_error_run "ata_set_standby_mode" name error o g)
      as (t & -> & Hno).
    do 2 eexists. split; [reflexivity|].
    simpl. by rewrite app_nil_r, Hno.
  - destruct (a_flushed (o_standby o)); run_m;
      (destruct (a_ioctl_error (o_standby o)) as [error|]; run_m;
       [ destruct (report_ioctl_error_run "ata_set_standby_mode" name error o g)
           as (t & -> & Hno)
       | ]);
      (do 2 eexists; split; [reflexivity|]);
      unfold dprintf_events; destruct (debug (config g)); simpl;
      rewrite ?app_nil_r, ?Hno; done.
Qed.

End Helpers.

(** ** The list of disk statistics *)

Section DiskList.

Implicit Types (l : list DISKSTATS) (d : DISKSTATS) (name : string).

(** Writing through the pointer that [get_diskstats] returned changes the
    entry it found and no other, as long as the name stays. *)
Lemma get_diskstats_alter l name p d (f : DISKSTATS → DISKSTATS) :
  (∀ x, ds_name (f x) = ds_name x) →
  list_find (λ ds, ds_name ds = name) l = Some (p, d) →
  list_find (λ ds, ds_name ds = name) (alter f p l) = Some (p, f d).
Proof.
  intros Hname (Hp & Hd & Hfirst)%list_find_Some.
  apply list_find_Some. split; [|split].
  - by rewrite list_lookup_alter_eq, Hp.
  - by rewrite Hname.
  - intros j y Hj Hlt. rewrite list_lookup_alter_ne in Hj by lia.
    by apply (Hfirst j).
Qed.

Lemma get_diskstats_name l name p d :
  list_find (λ ds, ds_name ds = name) l = Some (p, d) → ds_name d = name.
Proof. by intros (_ & Hd & _)%list_find_Some. Qed.

Lemma Forall_alter_keep (P : DISKSTATS → Prop) (f : DISKSTATS → DISKSTATS) p l :
  (∀ x, P x → P (f x)) → Forall P l → Forall P (alter f p l).
Proof.
  intros Hf Hl. apply Forall_lookup. intros j y Hj.
  rewrite Forall_lookup in Hl.
  destruct (decide (p = j)) as [->|Hne].
  - rewrite list_lookup_alter_eq in Hj.
    destruct (l !! j) as [x|] eqn:Hx; [|done].
    injection Hj as <-. apply Hf. by apply (Hl j).
  - rewrite list_lookup_alter_ne in Hj by done. by apply (Hl j).
Qed.

End DiskList.

(** ** Traces *)

Section Traces.

Implicit Types (t log : list event) (name : string).

Lemma log_lines_dprintf g format args : log_lines (dprintf_events g format args).
Proof.
  unfold dprintf_events, log_lines.
  destruct (debug (config g)); repeat constructor. eauto.
Qed.

Lemma standby_calls_app name t1 t2 :
  standby_calls name (t1 ++ t2) = (standby_calls name t1 + standby_calls name t2)%nat.
Proof. unfold standby_calls. by rewrite List.filter_app, length_app. Qed.

Lemma standby_calls_cons name e t :
  standby_calls name (e :: t) =
  ((if is_standby_call name e then 1 else 0) + standby_calls name t)%nat.
Proof. unfold standby_calls. simpl. by destruct (is_standby_call name e). Qed.

Lemma standby_calls_log name log : log_lines log → standby_calls name log = 0%nat.
Proof.
  unfold standby_calls.
  induction 1 as [|e log (format & args & ->) _ IH]; [done|exact IH].
Qed.

Lemma standby_commands_app t1 t2 :
  standby_commands (t1 ++ t2) = (standby_commands t1 + standby_commands t2)%nat.
Proof. unfold standby_commands. by rewrite map_app, list_sum_app. Qed.

Lemma standby_commands_log log : log_lines log → standby_commands log = 0%nat.
Proof.
  unfold standby_commands.
  induction 1 as [|e log (format & args & ->) _ IH]; [done|exact IH].
Qed.

Lemma without_diagnostics_app t1 t2 :
  without_diagnostics (t1 ++ t2) = without_diagnostics t1 ++ without_diagnostics t2.
Proof. apply List.filter_app. Qed.

Lemma without_diagnostics_log log : log_lines log → without_diagnostics log = [].
Proof.
  unfold without_diagnostics.
  induction 1 as [|e log (format & args & ->) _ IH]; [done|exact IH].
Qed.

Lemma counter_reads_log log :
  log_lines log → List.filter is_counter_read log = [].
Proof. induction 1 as [|e log (format & args & ->) _ IH]; [done|exact IH]. Qed.

End Traces.

(** Counts the calls of [ata_set_standby_mode] in a trace put together from
    events, log lines and pieces. *)
Ltac count_calls :=
  repeat first
    [ rewrite standby_calls_app
    | rewrite standby_calls_cons
    | rewrite (standby_calls_log _ (dprintf_events _ _ _)) by apply log_lines_dprintf
    | match goal with
      | H : log_lines ?l |- context [standby_calls ?n ?l] =>
        rewrite (standby_calls_log n l H)
      end
    | match goal with
      | |- context [standby_calls ?n []] => change (standby_calls n []) with 0%nat
      end
    | progress cbn [is_standby_call Nat.add] ].

(** ** The body of the drive loop, path by path *)

Section Body.

Implicit Types (o : obs) (g : globals) (d : DISKSTATS) (p : nat) (i : Z).

Lemma reads_counters_spec reads writes o :
  reads_counters reads writes o = true →
  o_open_error o = None ∧ o_power_r o = true ∧ o_power_fOn o = true ∧
  (o_drive_type o =? DRIVE_FIXED) = true ∧ o_perf_result o = true ∧
  (o_perf_bytesReturned o <=? 0) = false ∧
  to_uint (o_ReadCount o) = reads ∧ to_uint (o_WriteCount o) = writes.
Proof.
  unfold reads_counters. intros H.
  repeat (apply andb_prop in H as [H ?]).
  apply bool_decide_eq_true in H.
  repeat split; try done; try lia.
Qed.

(** The three cases on the previous statistics. *)
Lemma update_diskstats_run name now reads writes mode p d o g :
  ∃ log, log_lines log ∧
    update_diskstats name now reads writes mode p d o g =
    if (ds_reads d =? reads) && (ds_writes d =? writes) then
      if negb (ds_spun_down d) && negb (ds_idle_time d =? 0) &&
         (ds_idle_time d <=? now - ds_last_io d)
      then
        (tt,
         update_ds_root
           (λ l, alter (set_spun_down true) p (alter (set_spindown now) p l)) g,
         log ++ (ata_set_standby_mode (ds_name d) o g).2)
      else (tt, g, log)
    else
      (tt,
       update_ds_root
         (λ l, alter (set_spun_down false) p
                 (alter (set_last_io now) p
                    (alter (set_counts reads writes) p
                       (if ds_spun_down d then alter (set_spinup now) p l else l)))) g,
       log).
Proof.
  unfold update_diskstats.
  destruct ((ds_reads d =? reads) && (ds_writes d =? writes)).
  - destruct (ds_spun_down d); simpl; run_m.
    + eexists. split; [apply log_lines_dprintf|reflexivity].
    + destruct (negb (ds_idle_time d =? 0) && (ds_idle_time d <=? now - ds_last_io d));
        run_m.
      * destruct (ata_set_standby_mode_run (ds_name d) o g) as (ok & body & -> & _).
        run_m. simpl. eexists. split; [apply log_lines_dprintf|reflexivity].
      * rewrite app_nil_r. eexists. split; [apply log_lines_dprintf|reflexivity].
  - run_m. destruct (ds_spun_down d); run_m; rewrite ?app_nil_r;
      (eexists; split; [apply log_lines_dprintf|reflexivity]).
Qed.

(** The drive does not report that it is powered: the step sets
    [spun_down] in the entry of the drive if there is one, and goes on to
    the next drive. *)
Lemma probe_drive_asleep i o g :
  o_open_error o = None →
  negb (o_power_r o) || negb (o_power_fOn o) = true →
  probe_drive i o g =
  (ctl_continue,
   match list_find (λ ds, ds_name ds = physical_drive_name i) (ds_root g) with
   | Some (p, _) => update_ds_root (alter (set_spun_down true) p) g
   | None => g
   end,
   [ev_time (o_now o); ev_CreateFile (physical_drive_name i) 0 None;
    ev_GetDevicePowerState (physical_drive_name i) (o_power_r o) (o_power_fOn o)] ++
   dprintf_events g "probing %s: asleep\n" [arg_s (physical_drive_name i)] ++
   [ev_CloseHandle (physical_drive_name i)]).
Proof.
  intros Hopen Hoff. unfold probe_drive, get_diskstats. run_m.
  rewrite Hopen. run_m. rewrite Hoff. run_m.
  destruct (list_find _ (ds_root g)) as [[p d]|]; run_m; by rewrite ?app_nil_r.
Qed.

(** The drive is powered and fixed, its counters are read, and it has an
    entry: the step is the power mode query, the counter query and the
    update of the entry. *)
Lemma probe_drive_compare i o g reads writes p d :
  reads_counters reads writes o = true →
  list_find (λ ds, ds_name ds = physical_drive_name i) (ds_root g) = Some (p, d) →
  ∃ ata body,
    ata_check_power_mode (physical_drive_name i) o g =
      (ata, g, [ev_call f_ata_check_power_mode (physical_drive_name i) body]) ∧
    probe_drive i o g =
    (ctl_continue,
     (update_diskstats (physical_drive_name i) (o_now o) reads writes
        (ata_power_mode_string ata) p d o g).1.2,
     [ev_time (o_now o); ev_CreateFile (physical_drive_name i) 0 None;
      ev_GetDevicePowerState (physical_drive_name i) true true;
      ev_GetDriveTypeA (physical_drive_name i +:+ "\") (o_drive_type o);
      ev_call f_ata_check_power_mode (physical_drive_name i) body;
      ev_DISK_PERFORMANCE (physical_drive_name i) true (o_perf_bytesReturned o)
        (o_ReadCount o) (o_WriteCount o);
      ev_CloseHandle (physical_drive_name i)] ++
     (update_diskstats (physical_drive_name i) (o_now o) reads writes
        (ata_power_mode_string ata) p d o g).2).
Proof.
  intros (Hopen & Hr & Hon & Hfixed & Hres & Hbytes & Hreads & Hwrites)
    %reads_counters_spec Hfind.
  destruct (ata_check_power_mode_run (physical_drive_name i) o g)
    as (ata & body & Hcheck).
  exists ata, body. split; [exact Hcheck|].
  unfold probe_drive, count_io, get_diskstats. run_m.
  rewrite Hopen. run_m. rewrite Hr, Hon. run_m. rewrite Hfixed. run_m.
  rewrite Hcheck. run_m. rewrite Hres, Hbytes. run_m.
  rewrite Hfind, Hreads, Hwrites. run_m.
  destruct (update_diskstats _ _ _ _ _ _ _ _ _) as [[[] g'] t'].
  simpl. by rewrite app_nil_r.
Qed.

Lemma diskstats_of_Some i g d :
  diskstats_of i g = Some d ↔
  ∃ p, list_find (λ ds, ds_name ds = physical_drive_name i) (ds_root g) = Some (p, d).
Proof.
  unfold diskstats_of. split.
  - destruct (list_find _ _) as [[p d']|]; [|done]. intros [= <-]. eauto.
  - by intros [p ->].
Qed.

Lemma diskstats_of_None i g :
  diskstats_of i g = None ↔
  list_find (λ ds, ds_name ds = physical_drive_name i) (ds_root g) = None.
Proof.
  unfold diskstats_of. by destruct (list_find _ _) as [[p d']|].
Qed.

(** The entry of the drive after a write to it that keeps the name. *)
Lemma diskstats_of_alter i g p d (f : DISKSTATS → DISKSTATS) :
  (∀ x, ds_name (f x) = ds_name x) →
  list_find (λ ds, ds_name ds = physical_drive_name i) (ds_root g) = Some (p, d) →
  diskstats_of i (update_ds_root (alter f p) g) = Some (f d).
Proof.
  intros Hname Hfind. apply diskstats_of_Some. exists p.
  by apply get_diskstats_alter.
Qed.

(** What the step does when the drive does not report that it is powered,
    whether the query failed or answered "off". *)
Lemma probe_drive_asleep_summary i o g :
  o_open_error o = None →
  negb (o_power_r o) || negb (o_power_fOn o) = true →
  ∃ g' t,
    probe_drive i o g = (ctl_continue, g', t) ∧
    config g' = config g ∧
    diskstats_of i g' = set_spun_down true <$> diskstats_of i g ∧
    length (ds_root g') = length (ds_root g) ∧
    List.filter is_counter_read t = [] ∧
    (∀ n, standby_calls n t = 0%nat) ∧
    standby_commands t = 0%nat.
Proof.
  intros Hopen Hoff. rewrite (probe_drive_asleep i o g Hopen Hoff).
  do 2 eexists. split; [reflexivity|].
  pose proof (log_lines_dprintf g "probing %s: asleep\n" [arg_s (physical_drive_name i)])
    as Hlog.
  split; [|split; [|split; [|split; [|split]]]].
  - by destruct (list_find _ _) as [[p d]|].
  - destruct (list_find _ _) as [[p d]|] eqn:Hfind.
    + rewrite (diskstats_of_alter i g p d); [|done|done].
      unfold diskstats_of. by rewrite Hfind.
    + unfold diskstats_of. by rewrite Hfind.
  - destruct (list_find _ _) as [[p d]|]; [|done]. simpl. apply length_alter.
  - simpl. by rewrite List.filter_app, counter_reads_log.
  - intros n. rewrite !standby_calls_app, (standby_calls_log _ _ Hlog). done.
  - rewrite !standby_commands_app, (standby_commands_log _ Hlog). done.
Qed.

End Body.

(** ** The power state short cut *)

(** C2, as the program has it.  When the drive reports that it is powered
    off, the step sets [spun_down] in the entry of the drive if it has one,
    leaving the other fields of the entry as they are, and creates no entry
    if it has none; it neither reads the counters nor calls
    [ata_set_standby_mode], and goes on to the next drive. *)
Theorem powered_off_marks_known_drive (i : Z) (o : obs) (g : globals)
    (Hoff : reports_off o = true) :
  ∃ g' t,
    probe_drive i o g = (ctl_continue, g', t) ∧
    config g' = config g ∧
    diskstats_of i g' =
      match diskstats_of i g with
      | Some d =>
        Some (mk_DISKSTATS (ds_name d) (ds_idle_time d) (ds_last_io d) (ds_spindown d)
                (ds_spinup d) true (ds_reads d) (ds_writes d))
      | None => None
      end ∧
    (∀ d, diskstats_of i g = Some d →
          ds_spun_down <$> diskstats_of i g' = Some true) ∧
    length (ds_root g') = length (ds_root g) ∧
    List.filter is_counter_read t = [] ∧
    (∀ n, standby_calls n t = 0%nat) ∧
    standby_commands t = 0%nat.
Proof.
  unfold reports_off in Hoff.
  apply andb_prop in Hoff as [[Hopen%bool_decide_eq_true Hr]%andb_prop Hon].
  assert (negb (o_power_r o) || negb (o_power_fOn o) = true) as Hoff
    by (rewrite Hon; apply orb_true_r).
  destruct (probe_drive_asleep_summary i o g Hopen Hoff)
    as (g' & t & Hrun & Hconfig & Hentry & Hlength & Hread & Hcalls & Hcommands).
  exists g', t. split; [exact Hrun|]. split; [exact Hconfig|].
  split; [|split; [|by repeat split]].
  - rewrite Hentry. by destruct (diskstats_of i g).
  - intros d Hd. by rewrite Hentry, Hd.
Qed.

Lemma powered_off_marks_known_drive_witness :
  reports_off (obs_off 5) = true ∧
  ds_spun_down (sample_disk false) = false ∧
  diskstats_of 0 (sample_globals false) = Some (sample_disk false) ∧
  ∃ g' t,
    probe_drive 0 (obs_off 5) (sample_globals false) = (ctl_continue, g', t) ∧
    diskstats_of 0 g' =
      Some (mk_DISKSTATS "\\.\PhysicalDrive0" 90 0 0 0 true 100 50) ∧
    List.filter is_counter_read t = [].
Proof.
  split; [reflexivity|]. split; [reflexivity|]. split; [reflexivity|].
  destruct (powered_off_marks_known_drive 0 (obs_off 5) (sample_globals false) eq_refl)
    as (g' & t & Hrun & _ & Hentry & _ & _ & Hread & _).
  exists g', t. split; [exact Hrun|]. split; [exact Hentry|exact Hread].
Defined.

(** C2 as stated fails: a drive that reports "off" the first time it is seen
    has no entry after the step. *)
Lemma powered_off_unseen_drive_gets_no_entry :
  ¬ (∀ i o g, reports_off o = true →
       ∃ d, diskstats_of i (probe_drive i o g).1.2 = Some d ∧ ds_spun_down d = true).
Proof.
  intros H.
  destruct (H 0 (obs_off 5) (initial_globals initial_startup) eq_refl) as (d & Hd & _).
  vm_compute in Hd. discriminate Hd.
Qed.

(** C9.  When the call of [GetDevicePowerState] itself fails, the step does
    what it does for a drive that reports "off": same control, same program
    state, same events but for the answer of the query.  The entry of the
    drive, if it has one, gets [spun_down] set and is otherwise left as it
    is; a drive without an entry gets none; the counters are not read and
    [ata_set_standby_mode] is not called. *)
Theorem probe_failure_is_treated_as_off (i : Z) (o : obs) (g : globals)
    (Hfail : probe_fails o = true) :
  reports_off (with_power true false o) = true ∧
  (probe_drive i o g).1 = (probe_drive i (with_power true false o) g).1 ∧
  List.filter (λ e, negb (is_power_probe e)) (probe_drive i o g).2 =
    List.filter (λ e, negb (is_power_probe e))
      (probe_drive i (with_power true false o) g).2 ∧
  ∃ g' t,
    probe_drive i o g = (ctl_continue, g', t) ∧
    config g' = config g ∧
    diskstats_of i g' =
      match diskstats_of i g with
      | Some d =>
        Some (mk_DISKSTATS (ds_name d) (ds_idle_time d) (ds_last_io d) (ds_spindown d)
                (ds_spinup d) true (ds_reads d) (ds_writes d))
      | None => None
      end ∧
    (∀ d, diskstats_of i g = Some d →
          ds_spun_down <$> diskstats_of i g' = Some true) ∧
    length (ds_root g') = length (ds_root g) ∧
    List.filter is_counter_read t = [] ∧
    (∀ n, standby_calls n t = 0%nat) ∧
    standby_commands t = 0%nat.
Proof.
  unfold probe_fails in Hfail.
  apply andb_prop in Hfail as [Hopen%bool_decide_eq_true Hr].
  assert (negb (o_power_r o) || negb (o_power_fOn o) = true) as Hoff
    by (by rewrite Hr).
  split; [|split; [|split]].
  - unfold reports_off. simpl. by rewrite bool_decide_eq_true_2.
  - by rewrite (probe_drive_asleep i o g Hopen Hoff),
      (probe_drive_asleep i (with_power true false o) g Hopen eq_refl).
  - rewrite (probe_drive_asleep i o g Hopen Hoff),
      (probe_drive_asleep i (with_power true false o) g Hopen eq_refl).
    reflexivity.
  - destruct (probe_drive_asleep_summary i o g Hopen Hoff)
      as (g' & t & Hrun & Hconfig & Hentry & Hlength & Hread & Hcalls & Hcommands).
    exists g', t. split; [exact Hrun|]. split; [exact Hconfig|].
    split; [|split; [|by repeat split]].
    + rewrite Hentry. by destruct (diskstats_of i g).
    + intros d Hd. by rewrite Hentry, Hd.
Qed.

Lemma probe_failure_is_treated_as_off_witness :
  probe_fails (obs_probe_failed 5) = true ∧
  ds_spun_down (sample_disk false) = false ∧
  diskstats_of 0 (sample_globals false) = Some (sample_disk false) ∧
  (probe_drive 0 (obs_probe_failed 5) (sample_globals false)).1 =
    (probe_drive 0 (with_power true false (obs_probe_failed 5)) (sample_globals false)).1 ∧
  ∃ g' t,
    probe_drive 0 (obs_probe_failed 5) (sample_globals false) = (ctl_continue, g', t) ∧
    diskstats_of 0 g' =
      Some (mk_DISKSTATS "\\.\PhysicalDrive0" 90 0 0 0 true 100 50) ∧
    List.filter is_counter_read t = [].
Proof.
  split; [reflexivity|]. split; [reflexivity|]. split; [reflexivity|].
  destruct (probe_failure_is_treated_as_off 0 (obs_probe_failed 5)
              (sample_globals false) eq_refl)
    as (_ & Hsame & _ & g' & t & Hrun & _ & Hentry & _ & _ & Hread & _).
  split; [exact Hsame|].
  exists g', t. split; [exact Hrun|]. split; [exact Hentry|exact Hread].
Defined.

(** ** The step under arbitrary observations *)

Section Paths.

Implicit Types (o : obs) (g : globals) (d : DISKSTATS) (p : nat) (i : Z).

(** The drive cannot be opened: the loop over the drives ends. *)
Lemma probe_drive_break i o g error :
  o_open_error o = Some error →
  ∃ log, log_lines log ∧
    probe_drive i o g =
    (ctl_break, g,
     [ev_time (o_now o); ev_CreateFile (physical_drive_name i) 0 (Some error)] ++ log).
Proof.
  intros Hopen. unfold probe_drive. run_m. rewrite Hopen. run_m.
  destruct (error =? ERROR_FILE_NOT_FOUND); run_m;
    [|destruct (error =? ERROR_ACCESS_DENIED); run_m];
    (eexists; split; [|reflexivity]); repeat constructor; eauto.
Qed.

(** The drive is powered but not a fixed drive: nothing happens. *)
Lemma probe_drive_not_fixed i o g :
  o_open_error o = None →
  negb (o_power_r o) || negb (o_power_fOn o) = false →
  (o_drive_type o =? DRIVE_FIXED) = false →
  probe_drive i o g =
  (ctl_continue, g,
   [ev_time (o_now o); ev_CreateFile (physical_drive_name i) 0 None;
    ev_GetDevicePowerState (physical_drive_name i) (o_power_r o) (o_power_fOn o);
    ev_GetDriveTypeA (physical_drive_name i +:+ "\") (o_drive_type o)] ++
   dprintf_events g (drive_type_format (o_drive_type o)) [arg_s (physical_drive_name i)]).
Proof.
  intros Hopen Hon Hfixed. unfold probe_drive. run_m.
  rewrite Hopen. run_m. rewrite Hon. run_m. rewrite Hfixed. run_m.
  by rewrite app_nil_r.
Qed.

(** The drive is powered and fixed: the power mode is queried and the step
    goes on with the counters. *)
Lemma probe_drive_fixed i o g :
  o_open_error o = None →
  negb (o_power_r o) || negb (o_power_fOn o) = false →
  (o_drive_type o =? DRIVE_FIXED) = true →
  ∃ ata body,
    probe_drive i o g =
    ((count_io (physical_drive_name i) (o_now o) (ata_power_mode_string ata) o g).1.1,
     (count_io (physical_drive_name i) (o_now o) (ata_power_mode_string ata) o g).1.2,
     [ev_time (o_now o); ev_CreateFile (physical_drive_name i) 0 None;
      ev_GetDevicePowerState (physical_drive_name i) (o_power_r o) (o_power_fOn o);
      ev_GetDriveTypeA (physical_drive_name i +:+ "\") (o_drive_type o);
      ev_call f_ata_check_power_mode (physical_drive_name i) body] ++
     (count_io (physical_drive_name i) (o_now o) (ata_power_mode_string ata) o g).2).
Proof.
  intros Hopen Hon Hfixed.
  destruct (ata_check_power_mode_run (physical_drive_name i) o g)
    as (ata & body & Hcheck).
  exists ata, body.
  unfold probe_drive. run_m.
  rewrite Hopen. run_m. rewrite Hon. run_m. rewrite Hfixed. run_m.
  rewrite Hcheck. run_m.
  by destruct (count_io _ _ _ _ _) as [[c g'] t'].
Qed.

Lemma without_diagnostics_cons e t :
  without_diagnostics (e :: t) =
  if is_diagnostic e then without_diagnostics t else e :: without_diagnostics t.
Proof. unfold without_diagnostics. simpl. by destruct (is_diagnostic e). Qed.

(** Rewrites a trace without its diagnostics into what is left of it. *)
Ltac drop_diagnostics :=
  repeat first
    [ rewrite without_diagnostics_app
    | rewrite without_diagnostics_cons
    | progress change (without_diagnostics []) with (@nil event)
    | rewrite (without_diagnostics_log (dprintf_events _ _ _))
        by apply log_lines_dprintf
    | match goal with
      | H : log_lines ?l |- context [without_diagnostics ?l] =>
        rewrite (without_diagnostics_log l H)
      end
    | progress cbn [is_diagnostic app] ].

(** The power mode string reaches the log and nothing else. *)
Lemma count_io_mode name now mode1 mode2 o g :
  (count_io name now mode1 o g).1 = (count_io name now mode2 o g).1 ∧
  without_diagnostics (count_io name now mode1 o g).2 =
  without_diagnostics (count_io name now mode2 o g).2.
Proof.
  unfold count_io, get_diskstats. run_m.
  destruct (negb (o_perf_result o) || (o_perf_bytesReturned o <=? 0)); run_m.
  - destruct ((o_perf_error o =? 1) && negb (tried_diskperf g)); run_m;
      cbn [fst snd]; (split; [done|]); by drop_diagnostics.
  - destruct (list_find _ (ds_root g)) as [[p d]|]; run_m.
    + destruct (update_diskstats_run name now (to_uint (o_ReadCount o))
                  (to_uint (o_WriteCount o)) mode1 p d o g) as (log1 & Hlog1 & ->).
      destruct (update_diskstats_run name now (to_uint (o_ReadCount o))
                  (to_uint (o_WriteCount o)) mode2 p d o g) as (log2 & Hlog2 & ->).
      destruct ((ds_reads d =? to_uint (o_ReadCount o)) &&
                (ds_writes d =? to_uint (o_WriteCount o)));
        [destruct (negb (ds_spun_down d) && negb (ds_idle_time d =? 0) &&
                   (ds_idle_time d <=? now - ds_last_io d))|];
        run_m; cbn [fst snd]; (split; [done|]); by drop_diagnostics.
    + destruct (o_malloc o); run_m; cbn [fst snd]; (split; [done|]);
        by drop_diagnostics.
Qed.

End Paths.

(** ** The power mode reading *)

(** The counter part of the step does not look at the answer to the power
    mode query. *)
Lemma report_open_error_any_obs fn name error (o o' : obs) g :
  report_open_error fn name error o g = report_open_error fn name error o' g.
Proof.
  unfold report_open_error.
  destruct (error =? ERROR_FILE_NOT_FOUND); [|destruct (error =? ERROR_ACCESS_DENIED)];
    by run_m.
Qed.

Lemma report_ioctl_error_any_obs fn name error (o o' : obs) g :
  report_ioctl_error fn name error o g = report_ioctl_error fn name error o' g.
Proof.
  unfold report_ioctl_error.
  destruct (error =? ERROR_INVALID_FUNCTION);
    [|destruct (error =? ERROR_NOT_SUPPORTED);
      [|destruct (error =? ERROR_ACCESS_DENIED)]];
    by run_m.
Qed.

Lemma ata_set_standby_mode_with_check name a o g :
  ata_set_standby_mode name (with_check a o) g = ata_set_standby_mode name o g.
Proof.
  unfold ata_set_standby_mode. run_m. cbn [o_standby with_check].
  destruct (a_open_error (o_standby o)) as [error|]; run_m.
  - by rewrite (report_open_error_any_obs _ _ _ (with_check a o) o).
  - destruct (a_flushed (o_standby o)); run_m;
      (destruct (a_ioctl_error (o_standby o)) as [error|]; run_m;
       [by rewrite (report_ioctl_error_any_obs _ _ _ (with_check a o) o)|done]).
Qed.

Lemma update_diskstats_with_check name now reads writes mode p d a o g :
  update_diskstats name now reads writes mode p d (with_check a o) g =
  update_diskstats name now reads writes mode p d o g.
Proof.
  unfold update_diskstats.
  destruct ((ds_reads d =? reads) && (ds_writes d =? writes)).
  - destruct (negb (ds_spun_down d)); run_m; [|done].
    destruct (negb (ds_idle_time d =? 0) && (ds_idle_time d <=? now - ds_last_io d));
      run_m; [|done].
    by rewrite ata_set_standby_mode_with_check.
  - run_m. by destruct (ds_spun_down d); run_m.
Qed.

(** Reads fields of changed observations. *)
Ltac obs_fields :=
  cbn [with_check with_standby with_power o_now o_open_error o_power_r o_power_fOn
       o_drive_type o_check o_perf_result o_perf_bytesReturned o_perf_error
       o_ReadCount o_WriteCount o_malloc o_standby].

Lemma count_io_with_check name now mode a o g :
  count_io name now mode (with_check a o) g = count_io name now mode o g.
Proof.
  unfold count_io, get_diskstats. run_m. obs_fields.
  destruct (negb (o_perf_result o) || (o_perf_bytesReturned o <=? 0)); run_m;
    obs_fields.
  - by destruct ((o_perf_error o =? 1) && negb (tried_diskperf g)); run_m.
  - destruct (list_find _ (ds_root g)) as [[p d]|]; run_m; obs_fields.
    + by rewrite update_diskstats_with_check.
    + by destruct (o_malloc o); run_m.
Qed.

Lemma standby_calls_without_diagnostics n t :
  standby_calls n (without_diagnostics t) = standby_calls n t.
Proof.
  unfold standby_calls, without_diagnostics.
  induction t as [|e t IH]; [done|].
  destruct e as [| | | | | | | | | | | | |f name body]; simpl; try exact IH.
  destruct f; simpl; [exact IH|].
  destruct (String.eqb name n); simpl; by rewrite IH.
Qed.

(** C10.  Two steps that differ only in what the power mode query answers
    (a register value or failure) end with the same control, the same
    program state and, log lines and the query itself apart, the same
    events; in particular they agree on calling [ata_set_standby_mode]. *)
Theorem power_mode_reading_is_only_logged (i : Z) (o : obs) (g : globals)
    (a1 a2 : ata_obs) :
  (probe_drive i (with_check a1 o) g).1 = (probe_drive i (with_check a2 o) g).1 ∧
  without_diagnostics (probe_drive i (with_check a1 o) g).2 =
    without_diagnostics (probe_drive i (with_check a2 o) g).2 ∧
  (∀ n, standby_calls n (probe_drive i (with_check a1 o) g).2 =
        standby_calls n (probe_drive i (with_check a2 o) g).2).
Proof.
  assert ((probe_drive i (with_check a1 o) g).1 = (probe_drive i (with_check a2 o) g).1 ∧
          without_diagnostics (probe_drive i (with_check a1 o) g).2 =
          without_diagnostics (probe_drive i (with_check a2 o) g).2) as [Hstate Htrace].
  { destruct (o_open_error o) as [error|] eqn:Hopen.
    - destruct (probe_drive_break i (with_check a1 o) g error Hopen)
        as (log1 & Hlog1 & ->).
      destruct (probe_drive_break i (with_check a2 o) g error Hopen)
        as (log2 & Hlog2 & ->).
      cbn [fst snd]. split; [done|].
      rewrite !without_diagnostics_app.
      by rewrite (without_diagnostics_log log1), (without_diagnostics_log log2).
    - destruct (negb (o_power_r o) || negb (o_power_fOn o)) eqn:Hon.
      + by rewrite (probe_drive_asleep i (with_check a1 o) g Hopen Hon),
          (probe_drive_asleep i (with_check a2 o) g Hopen Hon).
      + destruct (o_drive_type o =? DRIVE_FIXED) eqn:Hfixed.
        * destruct (probe_drive_fixed i (with_check a1 o) g Hopen Hon Hfixed)
            as (ata1 & body1 & ->).
          destruct (probe_drive_fixed i (with_check a2 o) g Hopen Hon Hfixed)
            as (ata2 & body2 & ->).
          rewrite !count_io_with_check. cbn [fst snd].
          destruct (count_io_mode (physical_drive_name i) (o_now o)
                      (ata_power_mode_string ata1) (ata_power_mode_string ata2) o g)
            as [Hstate Htrace].
          split.
          -- change (o_now (with_check a1 o)) with (o_now o).
             change (o_now (with_check a2 o)) with (o_now o).
             destruct (count_io _ _ (ata_power_mode_string ata1) o g) as [[c1 g1] t1].
             destruct (count_io _ _ (ata_power_mode_string ata2) o g) as [[c2 g2] t2].
             exact Hstate.
          -- rewrite !without_diagnostics_app.
             change (o_now (with_check a1 o)) with (o_now o).
             change (o_now (with_check a2 o)) with (o_now o).
             rewrite Htrace. reflexivity.
        * by rewrite (probe_drive_not_fixed i (with_check a1 o) g Hopen Hon Hfixed),
            (probe_drive_not_fixed i (with_check a2 o) g Hopen Hon Hfixed). }
  split; [exact Hstate|]. split; [exact Htrace|].
  intros n.
  rewrite <- (standby_calls_without_diagnostics n (probe_drive i (with_check a1 o) g).2).
  rewrite Htrace. apply standby_calls_without_diagnostics.
Qed.

(** Standby mode (0x00) against active (0xff) on a disk that is due: the log
    lines differ, the call of [ata_set_standby_mode] is made either way. *)
Example power_mode_standby_still_spun_down :
  standby_calls (physical_drive_name 0)
    (probe_drive 0 (with_check (mk_ata_obs None true None 0x00) (obs_running 90 100 50))
       (sample_globals false)).2 = 1%nat ∧
  (probe_drive 0 (with_check (mk_ata_obs None true None 0x00) (obs_running 90 100 50))
     (sample_globals false)).2 ≠
  (probe_drive 0 (with_check (mk_ata_obs None true None 0xff) (obs_running 90 100 50))
     (sample_globals false)).2.
Proof. split; [reflexivity|]. vm_compute. discriminate. Qed.

(** ** Drives with idle time zero *)

Section Exempt.

Variable n : string.

Implicit Types (o : obs) (g : globals) (d : DISKSTATS) (p : nat) (i : Z).

Lemma exempt_alter (f : DISKSTATS → DISKSTATS) p l :
  (∀ x, ds_name (f x) = ds_name x ∧ ds_idle_time (f x) = ds_idle_time x) →
  exempt n l → exempt n (alter f p l).
Proof.
  intros Hf. apply Forall_alter_keep. intros x Hx Hname.
  destruct (Hf x) as [Hn Hi]. rewrite Hi. apply Hx. by rewrite <- Hn.
Qed.

(** The counter part of the step keeps the idle time zero of the entries
    for [n] and does not call [ata_set_standby_mode] for [n]. *)
Lemma count_io_exempt name now mode o g :
  find_idle_time (it_root (config g)) n 0 = 0 →
  exempt n (ds_root g) →
  config (count_io name now mode o g).1.2 = config g ∧
  exempt n (ds_root (count_io name now mode o g).1.2) ∧
  standby_calls n (count_io name now mode o g).2 = 0%nat.
Proof.
  intros Hzero Hexempt.
  unfold count_io, get_diskstats. run_m.
  destruct (negb (o_perf_result o) || (o_perf_bytesReturned o <=? 0)); run_m.
  - destruct ((o_perf_error o =? 1) && negb (tried_diskperf g)); run_m;
      cbn [fst snd]; (split; [done|]); (split; [exact Hexempt|]); by count_calls.
  - destruct (list_find _ (ds_root g)) as [[p d]|] eqn:Hfind; run_m.
    + destruct (update_diskstats_run name now (to_uint (o_ReadCount o))
                  (to_uint (o_WriteCount o)) mode p d o g) as (log & Hlog & ->).
      destruct ((ds_reads d =? to_uint (o_ReadCount o)) &&
                (ds_writes d =? to_uint (o_WriteCount o)));
        [destruct (negb (ds_spun_down d) && negb (ds_idle_time d =? 0) &&
                   (ds_idle_time d <=? now - ds_last_io d)) eqn:Hdue|];
        run_m; cbn [fst snd]; (split; [done|]).
      * split; [by do 2 (apply exempt_alter; [done|])|].
        destruct (ata_set_standby_mode_run (ds_name d) o g) as (ok & body & -> & _).
        cbn [snd]. count_calls.
        destruct (String.eqb_spec (ds_name d) n) as [Hname|_]; [|done].
        apply list_find_Some in Hfind as (Hp & _ & _).
        unfold exempt in Hexempt. rewrite Forall_lookup in Hexempt.
        rewrite (Hexempt p d Hp Hname) in Hdue.
        by rewrite andb_false_r in Hdue.
      * split; [done|]. by count_calls.
      * split; [|by count_calls].
        do 3 (apply exempt_alter; [done|]).
        destruct (ds_spun_down d); [by apply exempt_alter|done].
    + destruct (o_malloc o); run_m; cbn [fst snd]; (split; [done|]);
        (split; [|by count_calls]); [|done].
      apply Forall_cons. split; [|done].
      simpl. by intros ->.
Qed.

(** So does the whole step. *)
Lemma probe_drive_exempt i o g :
  find_idle_time (it_root (config g)) n 0 = 0 →
  exempt n (ds_root g) →
  config (probe_drive i o g).1.2 = config g ∧
  exempt n (ds_root (probe_drive i o g).1.2) ∧
  standby_calls n (probe_drive i o g).2 = 0%nat.
Proof.
  intros Hzero Hexempt.
  destruct (o_open_error o) as [error|] eqn:Hopen.
  - destruct (probe_drive_break i o g error Hopen) as (log & Hlog & ->).
    cbn [fst snd]. split; [done|]. split; [done|]. by count_calls.
  - destruct (negb (o_power_r o) || negb (o_power_fOn o)) eqn:Hon.
    + rewrite (probe_drive_asleep i o g Hopen Hon). cbn [fst snd].
      destruct (list_find _ (ds_root g)) as [[p d]|];
        (split; [done|]); (split; [|by count_calls]); [|done].
      by apply exempt_alter.
    + destruct (o_drive_type o =? DRIVE_FIXED) eqn:Hfixed.
      * destruct (probe_drive_fixed i o g Hopen Hon Hfixed) as (ata & body & ->).
        cbn [fst snd].
        destruct (count_io_exempt (physical_drive_name i) (o_now o)
                    (ata_power_mode_string ata) o g Hzero Hexempt)
          as (Hconfig & Hkeep & Hcalls).
        split; [exact Hconfig|]. split; [exact Hkeep|].
        count_calls. exact Hcalls.
      * rewrite (probe_drive_not_fixed i o g Hopen Hon Hfixed). cbn [fst snd].
        split; [done|]. split; [done|]. by count_calls.
Qed.

(** So does the loop over the drives. *)
Lemma probe_drives_exempt k : ∀ i w g,
  find_idle_time (it_root (config g)) n 0 = 0 →
  exempt n (ds_root g) →
  config (probe_drives k i w g).1.2 = config g ∧
  exempt n (ds_root (probe_drives k i w g).1.2) ∧
  standby_calls n (probe_drives k i w g).2 = 0%nat.
Proof.
  induction k as [|k IH]; intros i w g Hzero Hexempt; [done|].
  cbn [probe_drives].
  destruct (probe_drive_exempt i (w i) g Hzero Hexempt) as (Hconfig & Hkeep & Hcalls).
  destruct (probe_drive i (w i) g) as [[c g1] t1]. cbn [fst snd] in *.
  destruct c; cbn [fst snd]; try done.
  rewrite <- Hconfig in Hzero.
  destruct (IH (i + 1) w g1 Hzero Hkeep) as (Hconfig2 & Hkeep2 & Hcalls2).
  destruct (probe_drives k (i + 1) w g1) as [[r g2] t2]. cbn [fst snd] in *.
  split; [congruence|]. split; [done|].
  by rewrite standby_calls_app, Hcalls, Hcalls2.
Qed.

(** So do the rounds of the main loop. *)
Lemma main_loop_exempt sleep_time ws : ∀ g,
  find_idle_time (it_root (config g)) n 0 = 0 →
  exempt n (ds_root g) →
  exempt n (ds_root (main_loop sleep_time ws g).1.2) ∧
  standby_calls n (main_loop sleep_time ws g).2 = 0%nat.
Proof.
  induction ws as [|w ws IH]; intros g Hzero Hexempt; [done|].
  cbn [main_loop].
  destruct (probe_drives_exempt 255 0 w g Hzero Hexempt) as (Hconfig & Hkeep & Hcalls).
  destruct (probe_drives 255 0 w g) as [[r g1] t1]. cbn [fst snd] in *.
  destruct r as [code|]; cbn [fst snd]; [done|].
  rewrite <- Hconfig in Hzero.
  destruct (IH g1 Hzero Hkeep) as (Hkeep2 & Hcalls2).
  destruct (main_loop sleep_time ws g1) as [[r2 g2] t2]. cbn [fst snd] in *.
  split; [done|].
  by rewrite standby_calls_app, standby_calls_cons, Hcalls, Hcalls2.
Qed.

End Exempt.

(** C5.  A drive that the idle-time table gives the idle time zero: however
    many rounds the main loop runs and whatever the drives report,
    [ata_set_standby_mode] is never called for it, and its entry, once it
    has one, keeps the idle time zero. *)
Theorem zero_idle_time_is_never_spun_down (opts : list getopt_result) (s : startup)
    (i : Z) (ws : list (Z → obs))
    (Hparsed : main_options opts = Parsed s)
    (Hzero : find_idle_time (it_root s) (physical_drive_name i) 0 = 0) :
  ∃ r g t,
    main opts ws = Some (r, g, t) ∧
    standby_calls (physical_drive_name i) t = 0%nat ∧
    (∀ d, diskstats_of i g = Some d → ds_idle_time d = 0).
Proof.
  unfold main. rewrite Hparsed.
  destruct (main_loop_exempt (physical_drive_name i) (compute_sleep_time (it_root s))
              ws (initial_globals s) Hzero) as (Hkeep & Hcalls).
  { constructor. }
  destruct (main_loop _ ws (initial_globals s)) as [[r g] t]. cbn [fst snd] in *.
  exists r, g, t. split; [done|]. split; [exact Hcalls|].
  intros d [p (Hp & Hname & _)%list_find_Some]%diskstats_of_Some.
  unfold exempt in Hkeep. rewrite Forall_lookup in Hkeep.
  by apply (Hkeep p d).
Qed.

Lemma zero_idle_time_is_never_spun_down_witness :
  main_options [opt_a "\\.\PhysicalDrive0"; opt_i 0] =
    Parsed (mk_startup [mk_IDLE_TIME (Some "\\.\PhysicalDrive0") 0;
                        mk_IDLE_TIME None DEFAULT_IDLE_TIME] "/dev/null" false true) ∧
  find_idle_time [mk_IDLE_TIME (Some "\\.\PhysicalDrive0") 0;
                  mk_IDLE_TIME None DEFAULT_IDLE_TIME] (physical_drive_name 0) 0 = 0 ∧
  ∃ r g t,
    main [opt_a "\\.\PhysicalDrive0"; opt_i 0]
         [λ j, if j =? 0 then obs_running 0 100 50 else obs_absent 0;
          λ j, if j =? 0 then obs_running 100000 100 50 else obs_absent 100000]
      = Some (r, g, t) ∧
    standby_calls (physical_drive_name 0) t = 0%nat.
Proof.
  split; [reflexivity|]. split; [reflexivity|].
  destruct (zero_idle_time_is_never_spun_down
              [opt_a "\\.\PhysicalDrive0"; opt_i 0] _ 0
              [λ j, if j =? 0 then obs_running 0 100 50 else obs_absent 0;
               λ j, if j =? 0 then obs_running 100000 100 50 else obs_absent 100000]
              eq_refl eq_refl)
    as (r & g & t & Hmain & Hcalls & _).
  exists r, g, t. split; [exact Hmain|exact Hcalls].
Defined.

(** The same two rounds with the default idle time: the second round calls
    [ata_set_standby_mode] for the drive. *)
Example default_idle_time_is_spun_down :
  ∃ r g t,
    main []
         [λ j, if j =? 0 then obs_running 0 100 50 else obs_absent 0;
          λ j, if j =? 0 then obs_running 100000 100 50 else obs_absent 100000]
      = Some (r, g, t) ∧
    standby_calls (physical_drive_name 0) t = 1%nat.
Proof. do 3 eexists. split; [vm_compute; reflexivity|]. reflexivity. Qed.

(** ** Steps on other drives *)

(** Two drives have two names. *)
Lemma physical_drive_name_inj i j :
  physical_drive_name i = physical_drive_name j → i = j.
Proof.
  unfold physical_drive_name. intros H. simpl in H.
  repeat injection H as H. by apply (inj pretty).
Qed.

Section Frame.

Variable n : string.

Implicit Types (o : obs) (g : globals) (d : DISKSTATS) (l : list DISKSTATS).

(** A write to an entry with another name does not change what
    [get_diskstats] finds for [n]. *)
Lemma get_diskstats_alter_other l q (f : DISKSTATS → DISKSTATS) :
  (∀ x, ds_name (f x) = ds_name x) →
  (∀ dq, l !! q = Some dq → ds_name dq ≠ n) →
  snd <$> list_find (λ ds, ds_name ds = n) (alter f q l) =
  snd <$> list_find (λ ds, ds_name ds = n) l.
Proof.
  intros Hname. revert q.
  induction l as [|x l IH]; intros q Hother; [done|].
  destruct q as [|q]; simpl.
  - rewrite !decide_False; [done| |].
    + by apply (Hother x).
    + rewrite Hname. by apply (Hother x).
  - destruct (decide (ds_name x = n)); [done|].
    specialize (IH q (λ dq Hq, Hother dq Hq)).
    change (list_alter f q l) with (alter f q l).
    destruct (list_find _ (alter f q l)) as [[??]|],
             (list_find _ l) as [[??]|]; simpl in *; congruence.
Qed.

Lemma get_diskstats_cons_other l d :
  ds_name d ≠ n →
  snd <$> list_find (λ ds, ds_name ds = n) (d :: l) =
  snd <$> list_find (λ ds, ds_name ds = n) l.
Proof.
  intros Hother. simpl. rewrite decide_False by done.
  by destruct (list_find _ l) as [[??]|].
Qed.

(** The counter part of a step for the drive [name] leaves the entry for
    another name [n] as it is and makes no standby call for [n]. *)
Lemma count_io_other name now mode o g :
  n ≠ name →
  snd <$> list_find (λ ds, ds_name ds = n) (ds_root (count_io name now mode o g).1.2) =
    snd <$> list_find (λ ds, ds_name ds = n) (ds_root g) ∧
  standby_calls n (count_io name now mode o g).2 = 0%nat.
Proof.
  intros Hother.
  unfold count_io, get_diskstats. run_m.
  destruct (negb (o_perf_result o) || (o_perf_bytesReturned o <=? 0)); run_m.
  - destruct ((o_perf_error o =? 1) && negb (tried_diskperf g)); run_m;
      cbn [fst snd]; (split; [done|]); by count_calls.
  - destruct (list_find _ (ds_root g)) as [[p d]|] eqn:Hfind; run_m.
    + apply list_find_Some in Hfind as (Hp & Hd & _).
      assert (∀ dq, ds_root g !! p = Some dq → ds_name dq ≠ n) as Hentry.
      { intros dq Hdq. rewrite Hp in Hdq. injection Hdq as <-. congruence. }
      destruct (update_diskstats_run name now (to_uint (o_ReadCount o))
                  (to_uint (o_WriteCount o)) mode p d o g) as (log & Hlog & ->).
      destruct ((ds_reads d =? to_uint (o_ReadCount o)) &&
                (ds_writes d =? to_uint (o_WriteCount o)));
        [destruct (negb (ds_spun_down d) && negb (ds_idle_time d =? 0) &&
                   (ds_idle_time d <=? now - ds_last_io d))|];
        run_m; cbn [fst snd update_ds_root ds_root].
      * rewrite list_alter_alter_eq. split; [by apply get_diskstats_alter_other|].
        destruct (ata_set_standby_mode_run (ds_name d) o g) as (ok & body & -> & _).
        cbn [snd]. count_calls.
        destruct (String.eqb_spec (ds_name d) n) as [Hname|_]; [congruence|done].
      * split; [done|]. by count_calls.
      * split; [|by count_calls].
        destruct (ds_spun_down d); rewrite !list_alter_alter_eq;
          by apply get_diskstats_alter_other.
    + destruct (o_malloc o); run_m; cbn [fst snd update_ds_root ds_root];
        (split; [|by count_calls]); [|done].
      by apply get_diskstats_cons_other.
Qed.

(** So does the whole step for drive [i]. *)
Lemma probe_drive_other i o g :
  n ≠ physical_drive_name i →
  snd <$> list_find (λ ds, ds_name ds = n) (ds_root (probe_drive i o g).1.2) =
    snd <$> list_find (λ ds, ds_name ds = n) (ds_root g) ∧
  standby_calls n (probe_drive i o g).2 = 0%nat.
Proof.
  intros Hother.
  destruct (o_open_error o) as [error|] eqn:Hopen.
  - destruct (probe_drive_break i o g error Hopen) as (log & Hlog & ->).
    cbn [fst snd]. split; [done|]. by count_calls.
  - destruct (negb (o_power_r o) || negb (o_power_fOn o)) eqn:Hon.
    + rewrite (probe_drive_asleep i o g Hopen Hon). cbn [fst snd].
      destruct (list_find _ (ds_root g)) as [[p d]|] eqn:Hfind;
        (split; [|by count_calls]); [|done].
      apply list_find_Some in Hfind as (Hp & Hd & _).
      apply get_diskstats_alter_other; [done|].
      intros dq Hdq. rewrite Hp in Hdq. injection Hdq as <-. congruence.
    + destruct (o_drive_type o =? DRIVE_FIXED) eqn:Hfixed.
      * destruct (probe_drive_fixed i o g Hopen Hon Hfixed) as (ata & body & ->).
        cbn [fst snd].
        destruct (count_io_other (physical_drive_name i) (o_now o)
                    (ata_power_mode_string ata) o g Hother) as (Hkeep & Hcalls).
        split; [exact Hkeep|]. count_calls. exact Hcalls.
      * rewrite (probe_drive_not_fixed i o g Hopen Hon Hfixed). cbn [fst snd].
        split; [done|]. by count_calls.
Qed.

End Frame.

(** A step for another drive [j] leaves the entry of drive [i] as it is and
    makes no standby call for drive [i]. *)
Lemma probe_drive_other_drive i j o g :
  j ≠ i →
  diskstats_of i (probe_drive j o g).1.2 = diskstats_of i g ∧
  standby_calls (physical_drive_name i) (probe_drive j o g).2 = 0%nat.
Proof.
  intros Hne. apply probe_drive_other.
  intros Heq. by apply physical_drive_name_inj in Heq.
Qed.

(** ** The step on a drive that has an entry *)

Section Known.

Implicit Types (o : obs) (g : globals) (d : DISKSTATS) (p : nat) (i : Z).

Lemma standby_call_event name n body :
  standby_calls n [ev_call f_ata_set_standby_mode name body] =
  if String.eqb name n then 1%nat else 0%nat.
Proof. unfold standby_calls. simpl. by destruct (String.eqb name n). Qed.

(** The step with counters read, in its three cases. *)
Lemma probe_drive_known i o g reads writes p d :
  reads_counters reads writes o = true →
  list_find (λ ds, ds_name ds = physical_drive_name i) (ds_root g) = Some (p, d) →
  ∃ pre,
    (∀ n, standby_calls n pre = 0%nat) ∧ standby_commands pre = 0%nat ∧
    probe_drive i o g =
    if (ds_reads d =? reads) && (ds_writes d =? writes) then
      if spin_down_due d (o_now o) then
        (ctl_continue,
         update_ds_root
           (λ l, alter (set_spun_down true) p (alter (set_spindown (o_now o)) p l)) g,
         pre ++ (ata_set_standby_mode (physical_drive_name i) o g).2)
      else (ctl_continue, g, pre)
    else
      (ctl_continue,
       update_ds_root
         (λ l, alter (set_spun_down false) p
                 (alter (set_last_io (o_now o)) p
                    (alter (set_counts reads writes) p
                       (if ds_spun_down d then alter (set_spinup (o_now o)) p l
                        else l)))) g,
       pre).
Proof.
  intros Hobs Hfind.
  destruct (probe_drive_compare i o g reads writes p d Hobs Hfind)
    as (ata & body & _ & ->).
  destruct (update_diskstats_run (physical_drive_name i) (o_now o) reads writes
              (ata_power_mode_string ata) p d o g) as (log & Hlog & ->).
  rewrite (get_diskstats_name _ _ _ _ Hfind). fold (spin_down_due d (o_now o)).
  set (head := [ev_time (o_now o); _; _; _; _; _; _]).
  assert (∀ n, standby_calls n head = 0%nat) as Hcalls by done.
  assert (standby_commands head = 0%nat) as Hcommands by done.
  exists (head ++ log). split; [|split].
  - intros n. by rewrite standby_calls_app, Hcalls, standby_calls_log.
  - by rewrite standby_commands_app, Hcommands, standby_commands_log.
  - destruct ((ds_reads d =? reads) && (ds_writes d =? writes)); [|done].
    destruct (spin_down_due d (o_now o)); [|done].
    cbn [fst snd]. by rewrite app_assoc.
Qed.

(** The step on a drive whose counters have not changed. *)
Lemma probe_drive_quiet i o g reads writes p d :
  reads_counters reads writes o = true →
  list_find (λ ds, ds_name ds = physical_drive_name i) (ds_root g) = Some (p, d) →
  ds_reads d = reads → ds_writes d = writes →
  ∃ g' t,
    probe_drive i o g = (ctl_continue, g', t) ∧
    list_find (λ ds, ds_name ds = physical_drive_name i) (ds_root g') =
      Some (p, if spin_down_due d (o_now o)
               then set_spun_down true (set_spindown (o_now o) d) else d) ∧
    (spin_down_due d (o_now o) = false → g' = g) ∧
    standby_calls (physical_drive_name i) t =
      (if spin_down_due d (o_now o) then 1 else 0)%nat ∧
    (standby_commands t ≤ if spin_down_due d (o_now o) then 1 else 0)%nat.
Proof.
  intros Hobs Hfind Hreads Hwrites.
  destruct (probe_drive_known i o g reads writes p d Hobs Hfind)
    as (pre & Hcalls & Hcommands & ->).
  rewrite Hreads, Hwrites, !Z.eqb_refl. simpl.
  destruct (spin_down_due d (o_now o)).
  - destruct (ata_set_standby_mode_run (physical_drive_name i) o g)
      as (ok & body & -> & Hbody).
    do 2 eexists. split; [reflexivity|]. split; [|split; [done|split]].
    + simpl. by do 2 (apply get_diskstats_alter; [done|]).
    + simpl. rewrite standby_calls_app, Hcalls, standby_call_event.
      by rewrite String.eqb_refl.
    + simpl. rewrite standby_commands_app, Hcommands.
      unfold standby_commands. simpl. rewrite Hbody.
      destruct (a_open_error (o_standby o)); simpl; lia.
  - do 2 eexists. split; [reflexivity|]. split; [done|]. split; [done|].
    rewrite Hcalls, Hcommands. split; [done|lia].
Qed.

End Known.

(** ** Successive steps on an idle drive *)

Lemma spin_down_due_spun_down d t now :
  spin_down_due (set_spun_down true (set_spindown t d)) now = false.
Proof. done. Qed.

Lemma existsb_false {A} (l : list A) : existsb (λ _, false) l = false.
Proof. by induction l. Qed.

Lemma existsb_pointwise {A} (f h : A → bool) (l : list A) :
  (∀ x, f x = h x) → existsb f l = existsb h l.
Proof. intros Hfh. induction l as [|x l IH]; [done|]. simpl. by rewrite Hfh, IH. Qed.

Lemma forallb_pointwise {A} (f h : A → bool) (l : list A) :
  (∀ x, f x = h x) → forallb f l = forallb h l.
Proof. intros Hfh. induction l as [|x l IH]; [done|]. simpl. by rewrite Hfh, IH. Qed.

(** Steps on the drives in any order, where every step on drive [i] reads
    the counters that the entry of drive [i] holds: which step calls
    [ata_set_standby_mode] for drive [i], and how often it is called in
    all. *)
Lemma idle_sequence i reads writes steps : ∀ g d,
  Forall (λ s, s.1 = i → reads_counters reads writes s.2 = true) steps →
  diskstats_of i g = Some d →
  ds_reads d = reads → ds_writes d = writes →
  ∃ g' ts,
    probe_sequence steps g = (g', ts) ∧
    length ts = length steps ∧
    (∀ k s t, steps !! k = Some s → ts !! k = Some t →
       standby_calls (physical_drive_name i) t =
       if step_is_due i d s && forallb (λ s', negb (step_is_due i d s')) (take k steps)
       then 1%nat else 0%nat) ∧
    standby_calls (physical_drive_name i) (concat ts) =
      (if existsb (step_is_due i d) steps then 1 else 0)%nat.
Proof.
  induction steps as [|[j o] steps IH]; intros g d Hquiet Hentry Hreads Hwrites.
  - exists g, []. by repeat split.
  - apply Forall_cons in Hquiet as [Ho Hsteps]. cbn [probe_sequence].
    destruct (Z.eqb_spec j i) as [->|Hne].
    + (* a step on drive [i] *)
      apply diskstats_of_Some in Hentry as [p Hfind].
      destruct (probe_drive_quiet i o g reads writes p d (Ho eq_refl) Hfind
                  Hreads Hwrites)
        as (g1 & t1 & -> & Hfind1 & _ & Hcalls & _).
      assert (step_is_due i d (i, o) = spin_down_due d (o_now o)) as Hhere.
      { unfold step_is_due. simpl. by rewrite Z.eqb_refl. }
      assert (diskstats_of i g1 =
                Some (if spin_down_due d (o_now o)
                      then set_spun_down true (set_spindown (o_now o) d) else d))
        as Hentry1.
      { apply diskstats_of_Some. by exists p. }
      clear Hfind1.
      destruct (spin_down_due d (o_now o)) eqn:Hdue.
      * (* it spins the disk down; no later step does *)
        destruct (IH g1 _ Hsteps Hentry1 Hreads Hwrites)
          as (g' & ts & -> & Hlen & Hstep & Htotal).
        assert (∀ s, step_is_due i
                       (set_spun_down true (set_spindown (o_now o) d)) s = false)
          as Hnone.
        { intros s. unfold step_is_due. by rewrite spin_down_due_spun_down, andb_false_r. }
        rewrite (existsb_pointwise _ (λ _, false)), existsb_false in Htotal by done.
        exists g', (t1 :: ts).
        split; [done|]. split; [simpl; by rewrite Hlen|]. split.
        -- intros [|k] s t Hs Ht; simpl in Hs, Ht.
           ++ injection Hs as <-. injection Ht as <-.
              cbn [take firstn forallb]. by rewrite Hhere, Hcalls.
           ++ rewrite (Hstep k s t Hs Ht), Hnone.
              cbn [take firstn forallb andb]. rewrite Hhere.
              cbn [negb andb]. by rewrite andb_false_r.
        -- cbn [concat existsb].
           by rewrite standby_calls_app, Hcalls, Htotal, Hhere.
      * (* nothing happens; the entry is as before *)
        destruct (IH g1 d Hsteps Hentry1 Hreads Hwrites)
          as (g' & ts & -> & Hlen & Hstep & Htotal).
        exists g', (t1 :: ts).
        split; [done|]. split; [simpl; by rewrite Hlen|]. split.
        -- intros [|k] s t Hs Ht; simpl in Hs, Ht.
           ++ injection Hs as <-. injection Ht as <-.
              cbn [take firstn forallb]. by rewrite Hhere, Hcalls.
           ++ rewrite (Hstep k s t Hs Ht).
              cbn [take firstn forallb]. by rewrite Hhere.
        -- cbn [concat existsb].
           by rewrite standby_calls_app, Hcalls, Htotal, Hhere.
    + (* a step on another drive *)
      destruct (probe_drive_other_drive i j o g Hne) as (Hkeep & Hcalls).
      destruct (probe_drive j o g) as [[c g1] t1]. cbn [fst snd] in *.
      rewrite <- Hkeep in Hentry.
      destruct (IH g1 d Hsteps Hentry Hreads Hwrites)
        as (g' & ts & -> & Hlen & Hstep & Htotal).
      assert (step_is_due i d (j, o) = false) as Hnot.
      { unfold step_is_due. simpl. by destruct (Z.eqb_spec j i). }
      exists g', (t1 :: ts).
      split; [done|]. split; [simpl; by rewrite Hlen|]. split.
      * intros [|k] s t Hs Ht; simpl in Hs, Ht.
        -- injection Hs as <-. injection Ht as <-. by rewrite Hcalls, Hnot.
        -- rewrite (Hstep k s t Hs Ht).
           cbn [take firstn forallb]. by rewrite Hnot.
      * cbn [concat existsb].
        by rewrite standby_calls_app, Hcalls, Htotal, Hnot.
Qed.

(** C1.  A drive with an idle time [T > 0] whose counters stay unchanged
    over successive steps, with steps on other drives in between: the step
    that calls [ata_set_standby_mode] for the drive is the first step on it
    whose time [now] has [now - last_io >= T] (with [>=]: idle for exactly
    [T] is enough), so the call is made exactly once if there is such a
    step; and once [spun_down] is set, no step makes the call. *)
Theorem spins_down_exactly_once (i : Z) (g : globals) (d : DISKSTATS) (T : Z)
    (steps : list (Z * obs))
    (Hentry : diskstats_of i g = Some d)
    (HT : ds_idle_time d = T) (Hpos : 0 < T)
    (Hquiet : Forall (λ s, s.1 = i →
                           reads_counters (ds_reads d) (ds_writes d) s.2 = true) steps) :
  ∃ g' ts,
    probe_sequence steps g = (g', ts) ∧
    length ts = length steps ∧
    (ds_spun_down d = false →
       (∀ k s t, steps !! k = Some s → ts !! k = Some t →
          standby_calls (physical_drive_name i) t =
          if (s.1 =? i) && (T <=? o_now s.2 - ds_last_io d) &&
             forallb (λ s', negb (s'.1 =? i) || (o_now s'.2 - ds_last_io d <? T))
                     (take k steps)
          then 1%nat else 0%nat) ∧
       standby_calls (physical_drive_name i) (concat ts) =
         if existsb (λ s, (s.1 =? i) && (T <=? o_now s.2 - ds_last_io d)) steps
         then 1%nat else 0%nat) ∧
    (ds_spun_down d = true →
       standby_calls (physical_drive_name i) (concat ts) = 0%nat).
Proof.
  destruct (idle_sequence i _ _ steps g d Hquiet Hentry eq_refl eq_refl)
    as (g' & ts & Hseq & Hlen & Hstep & Htotal).
  exists g', ts. split; [exact Hseq|]. split; [exact Hlen|]. split.
  - intros Hrunning.
    assert (∀ s, step_is_due i d s = (s.1 =? i) && (T <=? o_now s.2 - ds_last_io d))
      as Hdue.
    { intros s. unfold step_is_due, spin_down_due. rewrite Hrunning, HT.
      destruct (Z.eqb_spec T 0); [lia|done]. }
    split.
    + intros k s t Hs Ht. rewrite (Hstep k s t Hs Ht), Hdue.
      rewrite (forallb_pointwise _
                 (λ s', negb (s'.1 =? i) || (o_now s'.2 - ds_last_io d <? T)));
        [done|].
      intros s'. by rewrite Hdue, negb_andb, Z.ltb_antisym.
    + rewrite Htotal.
      by rewrite (existsb_pointwise _
                    (λ s, (s.1 =? i) && (T <=? o_now s.2 - ds_last_io d))).
  - intros Hspun.
    assert (∀ s, step_is_due i d s = false) as Hdue.
    { intros s. unfold step_is_due, spin_down_due. by rewrite Hspun, andb_false_r. }
    by rewrite (existsb_pointwise _ (λ _, false)), existsb_false in Htotal.
Qed.

Lemma spins_down_exactly_once_witness :
  diskstats_of 0 (sample_globals false) = Some (sample_disk false) ∧
  0 < 90 ∧
  ∃ g' ts,
    probe_sequence
      [(0, obs_running 30 100 50); (1, obs_running 31 7 7);
       (0, obs_running 60 100 50); (1, obs_off 61);
       (0, obs_running 90 100 50); (1, obs_running 91 8 7);
       (0, obs_running 120 100 50)]
      (sample_globals false) = (g', ts) ∧
    standby_calls (physical_drive_name 0) (concat ts) = 1%nat.
Proof.
  assert (diskstats_of 0 (sample_globals false) = Some (sample_disk false)) as Hentry
    by reflexivity.
  assert (0 < 90) as Hpos by lia.
  split; [exact Hentry|]. split; [exact Hpos|].
  destruct (spins_down_exactly_once 0 (sample_globals false) (sample_disk false) 90
              [(0, obs_running 30 100 50); (1, obs_running 31 7 7);
               (0, obs_running 60 100 50); (1, obs_off 61);
               (0, obs_running 90 100 50); (1, obs_running 91 8 7);
               (0, obs_running 120 100 50)]
              Hentry eq_refl Hpos)
    as (g' & ts & Hseq & _ & Hrunning & _).
  { repeat constructor; simpl; intros H; (reflexivity || discriminate H). }
  exists g', ts. split; [exact Hseq|].
  destruct (Hrunning eq_refl) as [_ Htotal]. exact Htotal.
Defined.

(** The scenario of the specification: 100 reads and 50 writes first seen at
    time 0, unchanged at 30, 60 and 90, with an idle time of 90: the call is
    made at 90 and not at 60. *)
Example scenario_threshold_90 :
  ∃ s, main_options [opt_a (physical_drive_name 0); opt_i 90] = Parsed s ∧
       map (standby_calls (physical_drive_name 0))
           (probe_sequence
              [(0, obs_running 0 100 50); (0, obs_running 30 100 50);
               (0, obs_running 60 100 50); (0, obs_running 90 100 50)]
              (initial_globals s)).2 = [0; 0; 0; 1]%nat.
Proof. eexists. split; [reflexivity|]. vm_compute. reflexivity. Qed.

(** ** Activity *)

(** C6.  When the counters read differ in any way from those of the entry
    (a smaller value counts as well), the step records activity: the entry
    gets the new counts, [last_io = now] and [spun_down = 0], and
    [spinup = now] if [spun_down] was set; nothing else in it changes, and
    [ata_set_standby_mode] is not called. *)
Theorem counter_change_is_activity (i : Z) (o : obs) (g : globals) (d : DISKSTATS)
    (reads writes : Z)
    (Hobs : reads_counters reads writes o = true)
    (Hentry : diskstats_of i g = Some d)
    (Hchanged : ds_reads d ≠ reads ∨ ds_writes d ≠ writes) :
  ∃ g' t,
    probe_drive i o g = (ctl_continue, g', t) ∧
    diskstats_of i g' =
      Some (mk_DISKSTATS (ds_name d) (ds_idle_time d) (o_now o) (ds_spindown d)
              (if ds_spun_down d then o_now o else ds_spinup d) false reads writes) ∧
    (∀ n, standby_calls n t = 0%nat) ∧
    standby_commands t = 0%nat.
Proof.
  apply diskstats_of_Some in Hentry as [p Hfind].
  destruct (probe_drive_known i o g reads writes p d Hobs Hfind)
    as (pre & Hcalls & Hcommands & ->).
  assert ((ds_reads d =? reads) && (ds_writes d =? writes) = false) as ->.
  { apply andb_false_iff. rewrite !Z.eqb_neq. exact Hchanged. }
  do 2 eexists. split; [reflexivity|]. split; [|by split].
  apply diskstats_of_Some. exists p. simpl.
  destruct (ds_spun_down d).
  - apply (get_diskstats_alter _ _ p
             (set_last_io (o_now o) (set_counts reads writes (set_spinup (o_now o) d)))
             (set_spun_down false)); [done|].
    by do 3 (apply get_diskstats_alter; [done|]).
  - apply (get_diskstats_alter _ _ p
             (set_last_io (o_now o) (set_counts reads writes d))
             (set_spun_down false)); [done|].
    by do 2 (apply get_diskstats_alter; [done|]).
Qed.

Lemma counter_change_is_activity_witness :
  reads_counters 90 50 (obs_running 200 90 50) = true ∧
  diskstats_of 0 (sample_globals true) = Some (sample_disk true) ∧
  ∃ g' t,
    probe_drive 0 (obs_running 200 90 50) (sample_globals true) = (ctl_continue, g', t) ∧
    diskstats_of 0 g' =
      Some (mk_DISKSTATS "\\.\PhysicalDrive0" 90 200 0 200 false 90 50).
Proof.
  split; [reflexivity|]. split; [reflexivity|].
  destruct (counter_change_is_activity 0 (obs_running 200 90 50) (sample_globals true)
              (sample_disk true) 90 50 eq_refl eq_refl)
    as (g' & t & Hrun & Hentry & _).
  { left. simpl. lia. }
  exists g', t. split; [exact Hrun|exact Hentry].
Defined.

(** ** The standby command *)

(** C7.  When the standby call is due, the step sets [spindown = now] and
    [spun_down = 1] whatever [ata_set_standby_mode] does and returns: the
    program state after the step is the same for every outcome of the call.
    The step calls it once, STANDBY IMMEDIATE goes out at most once, and
    while the counters stay unchanged no later step calls it again, whatever
    the steps on other drives in between. *)
Theorem standby_result_is_ignored (i : Z) (o : obs) (g : globals) (d : DISKSTATS)
    (Hobs : reads_counters (ds_reads d) (ds_writes d) o = true)
    (Hentry : diskstats_of i g = Some d)
    (Hdue : spin_down_due d (o_now o) = true) :
  ∃ g',
    diskstats_of i g' = Some (set_spun_down true (set_spindown (o_now o) d)) ∧
    (∀ a, ∃ t ok body,
       ata_set_standby_mode (physical_drive_name i) (with_standby a o) g =
         (ok, g, [ev_call f_ata_set_standby_mode (physical_drive_name i) body]) ∧
       probe_drive i (with_standby a o) g = (ctl_continue, g', t) ∧
       standby_calls (physical_drive_name i) t = 1%nat ∧
       (standby_commands t ≤ 1)%nat) ∧
    (∀ steps,
       Forall (λ s, s.1 = i →
                    reads_counters (ds_reads d) (ds_writes d) s.2 = true) steps →
       ∃ g'' ts,
         probe_sequence steps g' = (g'', ts) ∧
         standby_calls (physical_drive_name i) (concat ts) = 0%nat).
Proof.
  apply diskstats_of_Some in Hentry as [p Hfind].
  set (g' := update_ds_root
               (λ l, alter (set_spun_down true) p (alter (set_spindown (o_now o)) p l)) g).
  assert (list_find (λ ds, ds_name ds = physical_drive_name i) (ds_root g') =
            Some (p, set_spun_down true (set_spindown (o_now o) d))) as Hfind'.
  { simpl. by do 2 (apply get_diskstats_alter; [done|]). }
  exists g'. split; [|split].
  - apply diskstats_of_Some. by exists p.
  - intros a.
    destruct (ata_set_standby_mode_run (physical_drive_name i) (with_standby a o) g)
      as (ok & body & Hcall & Hbody).
    destruct (probe_drive_known i (with_standby a o) g _ _ p d Hobs Hfind)
      as (pre & Hcalls & Hcommands & Hrun).
    rewrite !Z.eqb_refl in Hrun. simpl in Hrun. rewrite Hdue, Hcall in Hrun.
    eexists _, ok, body. split; [exact Hcall|]. split; [exact Hrun|]. split.
    + simpl. rewrite standby_calls_app, Hcalls, standby_call_event.
      by rewrite String.eqb_refl.
    + simpl. rewrite standby_commands_app, Hcommands.
      unfold standby_commands. simpl. rewrite Hbody.
      destruct (a_open_error (o_standby (with_standby a o))); simpl; lia.
  - intros steps Hquiet.
    destruct (idle_sequence i _ _ steps g' _ Hquiet
                (proj2 (diskstats_of_Some i g' _) (ex_intro _ p Hfind')) eq_refl eq_refl)
      as (g'' & ts & Hseq & _ & _ & Htotal).
    rewrite (existsb_pointwise _ (λ _, false)), existsb_false in Htotal.
    + exists g'', ts. split; [exact Hseq|exact Htotal].
    + intros s. unfold step_is_due. by rewrite spin_down_due_spun_down, andb_false_r.
Qed.

Lemma standby_result_is_ignored_witness :
  reads_counters 100 50 (obs_running 90 100 50) = true ∧
  diskstats_of 0 (sample_globals false) = Some (sample_disk false) ∧
  spin_down_due (sample_disk false) 90 = true ∧
  (ata_set_standby_mode (physical_drive_name 0)
     (with_standby answer_denied (obs_running 90 100 50)) (sample_globals false)).1.1
    = false ∧
  ∃ t,
    probe_drive 0 (with_standby answer_denied (obs_running 90 100 50))
      (sample_globals false) =
    (ctl_continue,
     mk_globals initial_startup
       [mk_DISKSTATS "\\.\PhysicalDrive0" 90 0 90 0 true 100 50] false, t) ∧
    (standby_commands t ≤ 1)%nat.
Proof.
  split; [reflexivity|]. split; [reflexivity|]. split; [reflexivity|].
  split; [reflexivity|].
  destruct (standby_result_is_ignored 0 (obs_running 90 100 50) (sample_globals false)
              (sample_disk false) eq_refl eq_refl eq_refl)
    as (g' & _ & Hany & _).
  destruct (Hany answer_denied) as (t & ok & body & _ & Hrun & _ & Hsent).
  exists t. split; [|exact Hsent].
  rewrite Hrun. f_equal. f_equal.
  apply (f_equal (λ r, r.1.2)) in Hrun. simpl in Hrun. rewrite <- Hrun.
  vm_compute. reflexivity.
Defined.


(** ** The sleep between rounds *)

Section Sleep.

Implicit Types (o : obs) (g : globals) (t log : list event).

Lemma sleeps_app t1 t2 : sleeps (t1 ++ t2) = sleeps t1 ++ sleeps t2.
Proof. apply omap_app. Qed.

Lemma sleeps_cons e t :
  sleeps (e :: t) =
  match e with ev_sleep seconds => seconds :: sleeps t | _ => sleeps t end.
Proof. by destruct e. Qed.

Lemma sleeps_log log : log_lines log → sleeps log = [].
Proof. induction 1 as [|e log (format & args & ->) _ IH]; [done|exact IH]. Qed.

(** Finds the calls of [sleep] in a trace put together from events, log
    lines and pieces. *)
Ltac find_sleeps :=
  repeat first
    [ rewrite sleeps_app
    | rewrite (sleeps_log (dprintf_events _ _ _)) by apply log_lines_dprintf
    | match goal with
      | H : log_lines ?l |- context [sleeps ?l] => rewrite (sleeps_log l H)
      end
    | progress change (sleeps []) with (@nil Z)
    | rewrite sleeps_cons
    | progress cbn [app] ].

Lemma count_io_no_sleep name now mode o g :
  sleeps (count_io name now mode o g).2 = [].
Proof.
  unfold count_io, get_diskstats. run_m.
  destruct (negb (o_perf_result o) || (o_perf_bytesReturned o <=? 0)); run_m.
  - by destruct ((o_perf_error o =? 1) && negb (tried_diskperf g)); run_m;
      cbn [snd]; find_sleeps.
  - destruct (list_find _ (ds_root g)) as [[p d]|]; run_m.
    + destruct (update_diskstats_run name now (to_uint (o_ReadCount o))
                  (to_uint (o_WriteCount o)) mode p d o g) as (log & Hlog & ->).
      destruct ((ds_reads d =? to_uint (o_ReadCount o)) &&
                (ds_writes d =? to_uint (o_WriteCount o)));
        [destruct (negb (ds_spun_down d) && negb (ds_idle_time d =? 0) &&
                   (ds_idle_time d <=? now - ds_last_io d))|];
        run_m; cbn [snd]; try (by find_sleeps).
      destruct (ata_set_standby_mode_run (ds_name d) o g) as (ok & body & -> & _).
      cbn [snd]. by find_sleeps.
    + by destruct (o_malloc o); run_m; cbn [snd]; find_sleeps.
Qed.

Lemma probe_drive_no_sleep i o g : sleeps (probe_drive i o g).2 = [].
Proof.
  destruct (o_open_error o) as [error|] eqn:Hopen.
  - destruct (probe_drive_break i o g error Hopen) as (log & Hlog & ->).
    cbn [snd]. by find_sleeps.
  - destruct (negb (o_power_r o) || negb (o_power_fOn o)) eqn:Hon.
    + rewrite (probe_drive_asleep i o g Hopen Hon). cbn [snd]. by find_sleeps.
    + destruct (o_drive_type o =? DRIVE_FIXED) eqn:Hfixed.
      * destruct (probe_drive_fixed i o g Hopen Hon Hfixed) as (ata & body & ->).
        cbn [snd]. find_sleeps. by rewrite count_io_no_sleep.
      * rewrite (probe_drive_not_fixed i o g Hopen Hon Hfixed). cbn [snd].
        by find_sleeps.
Qed.

Lemma probe_drives_no_sleep k : ∀ i w g, sleeps (probe_drives k i w g).2 = [].
Proof.
  induction k as [|k IH]; intros i w g; [done|].
  cbn [probe_drives].
  pose proof (probe_drive_no_sleep i (w i) g) as Hstep.
  destruct (probe_drive i (w i) g) as [[c g1] t1]. cbn [snd] in Hstep.
  destruct c; cbn [snd]; try done.
  specialize (IH (i + 1) w g1).
  destruct (probe_drives k (i + 1) w g1) as [[r g2] t2]. cbn [snd] in *.
  by rewrite sleeps_app, Hstep, IH.
Qed.

(** Every round of the main loop that runs to its end sleeps once, and
    always for the [sleep_time] that was computed before the loop. *)
Lemma main_loop_sleeps sleep_time ws : ∀ g,
  ∃ rounds,
    (rounds ≤ length ws)%nat ∧
    sleeps (main_loop sleep_time ws g).2 = replicate rounds sleep_time ∧
    ((main_loop sleep_time ws g).1.1 = None → rounds = length ws).
Proof.
  induction ws as [|w ws IH]; intros g.
  - exists 0%nat. by repeat split.
  - cbn [main_loop].
    pose proof (probe_drives_no_sleep 255 0 w g) as Hround.
    destruct (probe_drives 255 0 w g) as [[r g1] t1]. cbn [snd] in Hround.
    destruct r as [code|]; cbn [fst snd].
    + exists 0%nat. split; [lia|]. by split.
    + destruct (IH g1) as (rounds & Hle & Hsleeps & Hall).
      destruct (main_loop sleep_time ws g1) as [[r2 g2] t2]. cbn [fst snd] in *.
      exists (S rounds). split; [simpl; lia|]. split.
      * rewrite sleeps_app, Hround. simpl.
        change (sleep_time :: sleeps t2 = sleep_time :: replicate rounds sleep_time).
        by rewrite Hsleeps.
      * intros Hnone. simpl. by rewrite (Hall Hnone).
Qed.

End Sleep.

(** The program sleeps for the time computed from the idle-time table at
    start-up, in every round. *)
Lemma main_sleeps opts s ws r g t :
  main_options opts = Parsed s →
  main opts ws = Some (r, g, t) →
  ∃ rounds,
    (rounds ≤ length ws)%nat ∧
    sleeps t = replicate rounds (compute_sleep_time (it_root s)).
Proof.
  intros Hparsed Hmain. unfold main in Hmain. rewrite Hparsed in Hmain.
  destruct (main_loop_sleeps (compute_sleep_time (it_root s)) ws (initial_globals s))
    as (rounds & Hle & Hsleeps & _).
  injection Hmain as Hmain. rewrite Hmain in Hsleeps.
  exists rounds. by split.
Qed.

(** * Further properties *)

(** ** What a pass does to the list of disk statistics *)

Section Shape.

Implicit Types (o : obs) (g : globals) (d : DISKSTATS) (l : list DISKSTATS) (i : Z).

Lemma keeps_policy_compose f h :
  keeps_policy f → keeps_policy h → keeps_policy (f ∘ h).
Proof.
  intros Hf Hh x. simpl. destruct (Hf (h x)) as [-> ->]. apply Hh.
Qed.

(** The counter part of a pass either writes to one entry, or puts a new
    entry in front, or returns when [malloc] fails. *)
Lemma count_io_shape name now mode o g :
  ∃ c g' t,
    count_io name now mode o g = (c, g', t) ∧
    config g' = config g ∧
    ((c = ctl_continue ∧
      ∃ f p, keeps_policy f ∧ ds_root g' = alter f p (ds_root g)) ∨
     (c = ctl_continue ∧
      negb (o_perf_result o) || (o_perf_bytesReturned o <=? 0) = false ∧
      o_malloc o = true ∧
      list_find (λ ds, ds_name ds = name) (ds_root g) = None ∧
      ds_root g' =
        new_diskstats (it_root (config g)) name now (to_uint (o_ReadCount o))
                      (to_uint (o_WriteCount o)) :: ds_root g) ∨
     (c = ctl_return 2 ∧ g' = g ∧
      negb (o_perf_result o) || (o_perf_bytesReturned o <=? 0) = false ∧
      o_malloc o = false ∧
      list_find (λ ds, ds_name ds = name) (ds_root g) = None)).
Proof.
  assert (∀ l, l = alter (λ x : DISKSTATS, x) 0%nat l) as Hid
    by (intros l; symmetry; by apply list_alter_id).
  assert (keeps_policy (λ x, x)) as Hkeep by done.
  unfold count_io, get_diskstats. run_m.
  destruct (negb (o_perf_result o) || (o_perf_bytesReturned o <=? 0)) eqn:Hperf; run_m.
  - destruct ((o_perf_error o =? 1) && negb (tried_diskperf g)); run_m;
      (do 3 eexists; split; [reflexivity|]; split; [done|]; left; split; [done|]);
      exists (λ x, x), 0%nat; split; try done; apply Hid.
  - destruct (list_find _ (ds_root g)) as [[p d]|] eqn:Hfind; run_m.
    + destruct (update_diskstats_run name now (to_uint (o_ReadCount o))
                  (to_uint (o_WriteCount o)) mode p d o g) as (log & Hlog & ->).
      destruct ((ds_reads d =? to_uint (o_ReadCount o)) &&
                (ds_writes d =? to_uint (o_WriteCount o)));
        [destruct (negb (ds_spun_down d) && negb (ds_idle_time d =? 0) &&
                   (ds_idle_time d <=? now - ds_last_io d))|];
        run_m;
        (do 3 eexists; split; [reflexivity|]; split; [done|]; left; split; [done|]).
      * exists (set_spun_down true ∘ set_spindown now), p. split; [done|].
        simpl. by rewrite list_alter_alter_eq.
      * exists (λ x, x), 0%nat. split; [done|apply Hid].
      * destruct (ds_spun_down d).
        -- exists (set_spun_down false ∘ (set_last_io now ∘
                     (set_counts (to_uint (o_ReadCount o)) (to_uint (o_WriteCount o))
                        ∘ set_spinup now))), p.
           split; [done|]. simpl. by rewrite !list_alter_alter_eq.
        -- exists (set_spun_down false ∘ (set_last_io now ∘
                     set_counts (to_uint (o_ReadCount o)) (to_uint (o_WriteCount o)))), p.
           split; [done|]. simpl. by rewrite !list_alter_alter_eq.
    + destruct (o_malloc o) eqn:Hmalloc; run_m;
        (do 3 eexists; split; [reflexivity|]; split; [done|]).
      * right. left. by repeat split.
      * right. right. by repeat split.
Qed.

(** So for the whole pass: it ends the round when the drive does not open,
    and else does one of the three things above. *)
Lemma probe_drive_shape i o g :
  ∃ c g' t,
    probe_drive i o g = (c, g', t) ∧
    config g' = config g ∧
    ((c = ctl_break ∧ g' = g ∧ o_open_error o ≠ None) ∨
     (c = ctl_continue ∧ o_open_error o = None ∧
      ∃ f p, keeps_policy f ∧ ds_root g' = alter f p (ds_root g)) ∨
     (c = ctl_continue ∧ reads_now o = true ∧ o_malloc o = true ∧
      diskstats_of i g = None ∧
      ds_root g' =
        new_diskstats (it_root (config g)) (physical_drive_name i) (o_now o)
                      (to_uint (o_ReadCount o)) (to_uint (o_WriteCount o)) :: ds_root g) ∨
     (c = ctl_return 2 ∧ g' = g ∧ reads_now o = true ∧ o_malloc o = false ∧
      diskstats_of i g = None)).
Proof.
  assert (∀ l, l = alter (λ x : DISKSTATS, x) 0%nat l) as Hid
    by (intros l; symmetry; by apply list_alter_id).
  destruct (o_open_error o) as [error|] eqn:Hopen.
  - destruct (probe_drive_break i o g error Hopen) as (log & _ & ->).
    do 3 eexists. split; [reflexivity|]. split; [done|]. left. by repeat split.
  - destruct (negb (o_power_r o) || negb (o_power_fOn o)) eqn:Hon.
    + rewrite (probe_drive_asleep i o g Hopen Hon).
      do 3 eexists. split; [reflexivity|]. split.
      * by destruct (list_find _ _) as [[??]|].
      * right. left. split; [done|]. split; [done|].
        destruct (list_find _ _) as [[p d]|].
        -- by exists (set_spun_down true), p.
        -- exists (λ x, x), 0%nat. split; [done|apply Hid].
    + destruct (o_drive_type o =? DRIVE_FIXED) eqn:Hfixed.
      * destruct (probe_drive_fixed i o g Hopen Hon Hfixed) as (ata & body & ->).
        destruct (count_io_shape (physical_drive_name i) (o_now o)
                    (ata_power_mode_string ata) o g)
          as (c & g' & t & -> & Hconfig & Hcases).
        cbn [fst snd].
        assert (negb (o_perf_result o) || (o_perf_bytesReturned o <=? 0) = false →
                reads_now o = true) as Hreads.
        { intros Hperf. apply orb_false_elim in Hperf as [Hres Hbytes].
          apply negb_false_iff in Hres. apply orb_false_elim in Hon as [Hr Hf].
          apply negb_false_iff in Hr, Hf.
          unfold reads_now, reads_counters.
          rewrite Hopen, Hr, Hf, Hfixed, Hres, !Z.eqb_refl.
          rewrite bool_decide_eq_true_2 by done. simpl.
          destruct (Z.ltb_spec 0 (o_perf_bytesReturned o)); [done|].
          apply Z.leb_gt in Hbytes. lia. }
        do 3 eexists. split; [reflexivity|]. split; [done|].
        destruct Hcases as [(-> & Hf)|[(-> & Hperf & Hm & Hnone & Hroot)
                                      |(-> & -> & Hperf & Hm & Hnone)]].
        -- right. left. by repeat split.
        -- right. right. left. repeat split; try done; auto.
           by apply diskstats_of_None.
        -- right. right. right. repeat split; try done; auto.
           by apply diskstats_of_None.
      * rewrite (probe_drive_not_fixed i o g Hopen Hon Hfixed).
        do 3 eexists. split; [reflexivity|]. split; [done|].
        right. left. split; [done|]. split; [done|].
        exists (λ x, x), 0%nat. split; [done|apply Hid].
Qed.

End Shape.

(** ** Invariants of the rounds *)

Section Rounds.

Implicit Types (o : obs) (g : globals) (d : DISKSTATS) (l : list DISKSTATS) (i j : Z).

(** What every pass of a round keeps, the round keeps. *)
Lemma probe_drives_invariant (P : globals → Prop) (w : Z → obs) n : ∀ i g,
  (∀ k g, (k < n)%nat → P g →
          P (probe_drive (i + Z.of_nat k) (w (i + Z.of_nat k)) g).1.2) →
  P g → P (probe_drives n i w g).1.2.
Proof.
  induction n as [|n IH]; intros i g Hstep HP; [done|].
  cbn [probe_drives].
  pose proof (Hstep 0%nat g ltac:(lia) HP) as HP1.
  replace (i + Z.of_nat 0) with i in HP1 by lia.
  destruct (probe_drive i (w i) g) as [[c g1] t1]. cbn [fst snd] in HP1.
  destruct c; cbn [fst snd]; try done.
  specialize (IH (i + 1) g1).
  destruct (probe_drives n (i + 1) w g1) as [[r g2] t2]. cbn [fst snd] in *.
  apply IH; [|done].
  intros k g' Hk HP'.
  replace (i + 1 + Z.of_nat k) with (i + Z.of_nat (S k)) by lia.
  apply Hstep; [lia|done].
Qed.

(** What every pass on a drive from 0 to 254 keeps, the main loop keeps. *)
Lemma main_loop_invariant (P : globals → Prop) sleep_time ws :
  (∀ w j g, w ∈ ws → 0 ≤ j < 255 → P g → P (probe_drive j (w j) g).1.2) →
  ∀ g, P g → P (main_loop sleep_time ws g).1.2.
Proof.
  induction ws as [|w ws IH]; intros Hstep g HP; [done|].
  cbn [main_loop].
  assert (P (probe_drives 255 0 w g).1.2) as HP1.
  { apply probe_drives_invariant; [|done].
    intros k g' Hk HP'. apply Hstep; [by left|lia|done]. }
  destruct (probe_drives 255 0 w g) as [[r g1] t1]. cbn [fst snd] in HP1.
  destruct r as [code|]; cbn [fst snd]; [done|].
  assert (P (main_loop sleep_time ws g1).1.2) as HP2.
  { apply IH; [|done]. intros w' j g' Hw'. apply Hstep. by right. }
  by destruct (main_loop sleep_time ws g1) as [[r2 g2] t2].
Qed.

(** The names do not change under a write that keeps them. *)
Lemma names_alter l p (f : DISKSTATS → DISKSTATS) :
  (∀ x, ds_name (f x) = ds_name x) →
  ds_name <$> alter f p l = ds_name <$> l.
Proof.
  intros Hname. apply list_eq. intros q.
  rewrite !list_lookup_fmap.
  destruct (decide (p = q)) as [->|Hne].
  - rewrite list_lookup_alter_eq. destruct (l !! q); [simpl; by rewrite Hname|done].
  - by rewrite list_lookup_alter_ne.
Qed.

(** What [get_diskstats] finds stays where it is under a write to any entry,
    and is that entry as it was or as written. *)
Lemma get_diskstats_alter_any l n p q d (f : DISKSTATS → DISKSTATS) :
  (∀ x, ds_name (f x) = ds_name x) →
  list_find (λ ds, ds_name ds = n) l = Some (q, d) →
  ∃ d', list_find (λ ds, ds_name ds = n) (alter f p l) = Some (q, d') ∧
        (d' = d ∨ d' = f d).
Proof.
  intros Hname Hfind.
  destruct (decide (p = q)) as [->|Hne].
  - exists (f d). split; [by apply get_diskstats_alter|by right].
  - exists d. split; [|by left].
    apply list_find_Some in Hfind as (Hq & Hd & Hfirst).
    apply list_find_Some. split; [|split; [done|]].
    + by rewrite list_lookup_alter_ne.
    + intros k y Hk Hlt.
      destruct (decide (p = k)) as [->|Hpk].
      * rewrite list_lookup_alter_eq in Hk.
        destruct (l !! k) as [y0|] eqn:Hy0; [|done].
        injection Hk as <-. rewrite Hname. by apply (Hfirst k).
      * rewrite list_lookup_alter_ne in Hk by done. by apply (Hfirst k).
Qed.

(** An entry, once there, stays, with its name and idle time, through any
    pass. *)
Lemma probe_drive_keeps_entry i j o g d :
  diskstats_of i g = Some d →
  ∃ d', diskstats_of i (probe_drive j o g).1.2 = Some d' ∧
        ds_name d' = ds_name d ∧ ds_idle_time d' = ds_idle_time d.
Proof.
  intros Hentry.
  destruct (probe_drive_shape j o g) as (c & g' & t & Hrun & _ & Hcases).
  rewrite Hrun. cbn [fst snd].
  destruct Hcases as [(_ & -> & _)|[(_ & _ & f & p & Hf & Hroot)
                     |[(_ & _ & _ & Hnone & Hroot)|(_ & -> & _)]]];
    try (by exists d).
  - apply diskstats_of_Some in Hentry as [q Hfind].
    destruct (get_diskstats_alter_any _ _ p q d f (λ x, proj1 (Hf x)) Hfind)
      as (d' & Hfind' & Hd').
    exists d'. split.
    + apply diskstats_of_Some. exists q. by rewrite Hroot.
    + destruct Hd' as [->| ->]; [done|]. apply Hf.
  - exists d. split; [|done].
    destruct (decide (j = i)) as [->|Hne]; [congruence|].
    unfold diskstats_of in *. rewrite Hroot, get_diskstats_cons_other; [done|].
    simpl. intros Heq. by apply physical_drive_name_inj in Heq.
Qed.

End Rounds.

(** X1.  An entry of the list of disk statistics is never removed, and its
    name and its idle time never change: whatever the drives report, for any
    number of rounds of the main loop, the drive still has an entry with the
    idle time it was created with. *)
Theorem entry_keeps_idle_time (sleep_time : Z) (ws : list (Z → obs)) (g : globals)
    (i : Z) (d : DISKSTATS)
    (Hentry : diskstats_of i g = Some d) :
  ∃ d', diskstats_of i (main_loop sleep_time ws g).1.2 = Some d' ∧
        ds_name d' = ds_name d ∧ ds_idle_time d' = ds_idle_time d.
Proof.
  apply (main_loop_invariant
           (λ g, ∃ d', diskstats_of i g = Some d' ∧
                       ds_name d' = ds_name d ∧ ds_idle_time d' = ds_idle_time d)).
  - intros w j g0 _ _ (d0 & Hd0 & Hname & Hidle).
    destruct (probe_drive_keeps_entry i j (w j) g0 d0 Hd0) as (d' & Hd' & Hn & Hi).
    exists d'. split; [done|]. split; congruence.
  - by exists d.
Qed.

Lemma entry_keeps_idle_time_witness :
  diskstats_of 0 (sample_globals false) = Some (sample_disk false) ∧
  ∃ d', diskstats_of 0
          (main_loop 6
             [λ j, if j =? 0 then obs_running 50 100 50 else obs_absent 50;
              λ j, if j =? 0 then obs_running 95 101 50 else obs_absent 95;
              λ j, if j =? 0 then obs_off 200 else obs_absent 200]
             (sample_globals false)).1.2 = Some d' ∧
        ds_idle_time d' = 90.
Proof.
  split; [reflexivity|].
  destruct (entry_keeps_idle_time 6
              [λ j, if j =? 0 then obs_running 50 100 50 else obs_absent 50;
               λ j, if j =? 0 then obs_running 95 101 50 else obs_absent 95;
               λ j, if j =? 0 then obs_off 200 else obs_absent 200]
              (sample_globals false) 0 (sample_disk false) eq_refl)
    as (d' & Hd' & _ & Hidle).
  exists d'. split; [exact Hd'|exact Hidle].
Defined.

(** A pass on a drive from 0 to 254 keeps the names of the entries apart and
    of the form that [sprintf] gives them. *)
Lemma probe_drive_keeps_names j o g :
  0 ≤ j < 255 →
  NoDup (ds_name <$> ds_root g) ∧
  Forall (λ d, ∃ k, 0 ≤ k < 255 ∧ ds_name d = physical_drive_name k) (ds_root g) →
  NoDup (ds_name <$> ds_root (probe_drive j o g).1.2) ∧
  Forall (λ d, ∃ k, 0 ≤ k < 255 ∧ ds_name d = physical_drive_name k)
         (ds_root (probe_drive j o g).1.2).
Proof.
  intros Hj [Hnodup Hnames].
  destruct (probe_drive_shape j o g) as (c & g' & t & Hrun & _ & Hcases).
  rewrite Hrun. cbn [fst snd].
  destruct Hcases as [(_ & -> & _)|[(_ & _ & f & p & Hf & Hroot)
                     |[(_ & _ & _ & Hnone & Hroot)|(_ & -> & _)]]];
    try done; rewrite Hroot.
  - split.
    + rewrite names_alter; [done|]. intros x. apply Hf.
    + apply Forall_alter_keep; [|done].
      intros x (k & Hk & Hx). exists k. split; [done|].
      by rewrite (proj1 (Hf x)).
  - split.
    + rewrite fmap_cons. apply NoDup_cons. split; [|done].
      simpl. intros (d & Hd & Hin)%list_elem_of_fmap.
      apply diskstats_of_None, list_find_None in Hnone.
      rewrite Forall_forall in Hnone. by apply (Hnone d).
    + apply Forall_cons. split; [|done]. by exists j.
Qed.

(** X2.  In every state the program reaches, the list of disk statistics has
    at most one entry per name, and every name is that of a drive from 0 to
    254: [get_diskstats] never has two entries to choose from. *)
Theorem one_entry_per_drive (opts : list getopt_result) (ws : list (Z → obs))
    (r : option Z) (g : globals) (t : list event)
    (Hmain : main opts ws = Some (r, g, t)) :
  NoDup (ds_name <$> ds_root g) ∧
  Forall (λ d, ∃ k, 0 ≤ k < 255 ∧ ds_name d = physical_drive_name k) (ds_root g).
Proof.
  unfold main in Hmain.
  destruct (main_options opts) as [s|]; [|discriminate].
  injection Hmain as Hmain.
  apply (f_equal (λ x, x.1.2)) in Hmain. cbn [fst snd] in Hmain. rewrite <- Hmain.
  apply (main_loop_invariant
           (λ g, NoDup (ds_name <$> ds_root g) ∧
                 Forall (λ d, ∃ k, 0 ≤ k < 255 ∧ ds_name d = physical_drive_name k)
                        (ds_root g))).
  - intros w j g0 _ Hj. by apply probe_drive_keeps_names.
  - split; [apply NoDup_nil_2|apply Forall_nil_2].
Qed.

Lemma one_entry_per_drive_witness :
  ∃ r g t,
    main [] [λ j, if j <? 2 then obs_running 0 100 50 else obs_absent 0;
             λ j, if j <? 3 then obs_running 10 100 50 else obs_absent 10]
      = Some (r, g, t) ∧
    length (ds_root g) = 3%nat ∧
    NoDup (ds_name <$> ds_root g).
Proof.
  do 3 eexists. split; [vm_compute; reflexivity|]. split; [reflexivity|].
  eapply (one_entry_per_drive []
            [λ j, if j <? 2 then obs_running 0 100 50 else obs_absent 0;
             λ j, if j <? 3 then obs_running 10 100 50 else obs_absent 10]).
  vm_compute. reflexivity.
Defined.

(** A pass that does not read the counters of drive [i] with a working
    [malloc] gives drive [i] no entry. *)
Lemma probe_drive_no_entry i j o g :
  (j = i → reads_now o && o_malloc o = false) →
  diskstats_of i g = None →
  diskstats_of i (probe_drive j o g).1.2 = None.
Proof.
  intros Hquiet Hnone.
  destruct (decide (j = i)) as [->|Hne].
  - specialize (Hquiet eq_refl).
    destruct (probe_drive_shape i o g) as (c & g' & t & Hrun & _ & Hcases).
    rewrite Hrun. cbn [fst snd].
    destruct Hcases as [(_ & -> & _)|[(_ & _ & f & p & Hf & Hroot)
                       |[(_ & Hreads & Hmalloc & _)|(_ & -> & _)]]]; try done.
    + unfold diskstats_of in *. rewrite Hroot.
      rewrite get_diskstats_alter_other; [done|intros x; apply Hf|].
      intros dq Hdq.
      destruct (list_find _ (ds_root g)) as [[??]|] eqn:Hfind; [done|].
      apply list_find_None in Hfind. rewrite Forall_lookup in Hfind.
      by apply (Hfind p).
    + by rewrite Hreads, Hmalloc in Hquiet.
  - by rewrite (proj1 (probe_drive_other_drive i j o g Hne)).
Qed.

(** X3.  A drive gets an entry only in a pass that reads its counters: a
    drive that in every round fails to open, reports that it is not powered,
    is not a fixed drive, or does not give its counters, never has an entry,
    however many rounds run. *)
Theorem no_entry_without_counters (sleep_time : Z) (ws : list (Z → obs))
    (g : globals) (i : Z)
    (Hnone : diskstats_of i g = None)
    (Hnever : Forall (λ w, reads_now (w i) = false) ws) :
  diskstats_of i (main_loop sleep_time ws g).1.2 = None.
Proof.
  apply (main_loop_invariant (λ g, diskstats_of i g = None)); [|done].
  intros w j g0 Hw _ Hg0. apply probe_drive_no_entry; [|done].
  intros ->. rewrite Forall_forall in Hnever. by rewrite (Hnever w Hw).
Qed.

Lemma no_entry_without_counters_witness :
  diskstats_of 1 (initial_globals initial_startup) = None ∧
  diskstats_of 1
    (main_loop 6
       [λ j, if j =? 0 then obs_running 0 100 50
             else if j =? 1 then
               mk_obs 0 None true true DRIVE_REMOVABLE answer_ok true 8 0 7 7 true
                      answer_ok
             else obs_absent 0;
        λ j, if j =? 0 then obs_running 10 100 50
             else if j =? 1 then obs_off 10
             else obs_absent 10]
       (initial_globals initial_startup)).1.2 = None.
Proof.
  split; [reflexivity|].
  apply (no_entry_without_counters 6 _ (initial_globals initial_startup) 1 eq_refl).
  by repeat constructor.
Defined.

(** ** How a round and the loop end *)

(** A pass ends the round exactly when the drive does not open, and returns
    from [main] only with 2 and only when [malloc] fails for a new disk. *)
Lemma probe_drive_control i o g :
  ((probe_drive i o g).1.1 = ctl_break ↔ o_open_error o ≠ None) ∧
  (∀ code, (probe_drive i o g).1.1 = ctl_return code →
           code = 2 ∧ reads_now o = true ∧ o_malloc o = false).
Proof.
  destruct (probe_drive_shape i o g) as (c & g' & t & Hrun & _ & Hcases).
  rewrite Hrun. cbn [fst snd].
  assert (reads_now o = true → o_open_error o = None) as Hopen.
  { unfold reads_now. by intros (H & _)%reads_counters_spec. }
  destruct Hcases as [(-> & _ & Herr)|[(-> & Hnone & _)
                     |[(-> & Hreads & _)|(-> & _ & Hreads & Hmalloc & _)]]].
  - split; [done|]. intros code [=].
  - split; [|intros code [=]]. split; [done|]. intros H. by destruct H.
  - split; [|intros code [=]]. split; [done|]. intros H. destruct H. auto.
  - split.
    + split; [done|]. intros H. destruct H. auto.
    + by intros code [= <-].
Qed.

Lemma probe_drives_return n : ∀ i w g code,
  (probe_drives n i w g).1.1 = Some code →
  code = 2 ∧
  ∃ k, (k < n)%nat ∧ reads_now (w (i + Z.of_nat k)) = true ∧
       o_malloc (w (i + Z.of_nat k)) = false.
Proof.
  induction n as [|n IH]; intros i w g code Hret; [done|].
  cbn [probe_drives] in Hret.
  pose proof (proj2 (probe_drive_control i (w i) g)) as Hctl.
  destruct (probe_drive i (w i) g) as [[c g1] t1]. cbn [fst snd] in Hctl.
  destruct c as [| |code'].
  - specialize (IH (i + 1) w g1 code).
    destruct (probe_drives n (i + 1) w g1) as [[r g2] t2]. cbn [fst snd] in *.
    destruct (IH Hret) as (-> & k & Hk & Hreads & Hmalloc).
    split; [done|]. exists (S k). split; [lia|].
    by replace (i + Z.of_nat (S k)) with (i + 1 + Z.of_nat k) by lia.
  - done.
  - cbn [fst snd] in Hret. injection Hret as <-.
    destruct (Hctl code' eq_refl) as (-> & Hreads & Hmalloc).
    split; [done|]. exists 0%nat. split; [lia|].
    by replace (i + Z.of_nat 0) with i by lia.
Qed.

(** X4.  The main loop returns only with the code 2, and only after [malloc]
    has failed for a drive whose counters were just read; nothing else ends
    it. *)
Theorem loop_returns_only_out_of_memory (sleep_time : Z) (ws : list (Z → obs))
    (g : globals) (code : Z)
    (Hret : (main_loop sleep_time ws g).1.1 = Some code) :
  code = 2 ∧
  ∃ w j, w ∈ ws ∧ 0 ≤ j < 255 ∧ reads_now (w j) = true ∧ o_malloc (w j) = false.
Proof.
  revert g Hret. induction ws as [|w ws IH]; intros g Hret; [done|].
  cbn [main_loop] in Hret.
  pose proof (probe_drives_return 255 0 w g) as Hround.
  destruct (probe_drives 255 0 w g) as [[r g1] t1]. cbn [fst snd] in Hround.
  destruct r as [code'|].
  - cbn [fst snd] in Hret. injection Hret as <-.
    destruct (Hround code' eq_refl) as (-> & k & Hk & Hreads & Hmalloc).
    split; [done|]. exists w, (0 + Z.of_nat k).
    split; [by left|]. split; [lia|done].
  - specialize (IH g1).
    destruct (main_loop sleep_time ws g1) as [[r2 g2] t2]. cbn [fst snd] in *.
    destruct (IH Hret) as (-> & w' & j & Hw' & Hj & Hreads & Hmalloc).
    split; [done|]. exists w', j. split; [by right|done].
Qed.

Lemma loop_returns_only_out_of_memory_witness :
  (main_loop 6
     [λ j, if j =? 0 then obs_running 0 100 50 else obs_absent 0;
      λ j, if j =? 0 then obs_running 10 100 50
           else if j =? 1 then
             mk_obs 10 None true true DRIVE_FIXED answer_ok true 8 0 7 7 false answer_ok
           else obs_absent 10;
      λ j, obs_absent 20]
     (initial_globals initial_startup)).1.1 = Some 2 ∧
  ∃ (w : Z → obs) j, 0 ≤ j < 255 ∧ reads_now (w j) = true ∧ o_malloc (w j) = false.
Proof.
  assert ((main_loop 6
     [λ j, if j =? 0 then obs_running 0 100 50 else obs_absent 0;
      λ j, if j =? 0 then obs_running 10 100 50
           else if j =? 1 then
             mk_obs 10 None true true DRIVE_FIXED answer_ok true 8 0 7 7 false answer_ok
           else obs_absent 10;
      λ j, obs_absent 20]
     (initial_globals initial_startup)).1.1 = Some 2) as Hret
    by (vm_compute; reflexivity).
  split; [exact Hret|].
  destruct (loop_returns_only_out_of_memory _ _ _ _ Hret)
    as (_ & w & j & _ & Hj & Hreads & Hmalloc).
  by exists w, j.
Defined.

(** X5.  A round ends at the first drive that does not open: what the drives
    behind it would report has no effect on the round, so a drive behind a
    gap in the numbering is never probed. *)
Theorem round_stops_at_first_gap (n : nat) (i : Z) (k : nat) (w w' : Z → obs)
    (g : globals)
    (Hgap : o_open_error (w (i + Z.of_nat k)) ≠ None)
    (Hsame : ∀ m, (m ≤ k)%nat → w' (i + Z.of_nat m) = w (i + Z.of_nat m)) :
  probe_drives n i w' g = probe_drives n i w g.
Proof.
  revert i k g Hgap Hsame. induction n as [|n IH]; intros i k g Hgap Hsame; [done|].
  cbn [probe_drives].
  pose proof (Hsame 0%nat ltac:(lia)) as Hfirst.
  replace (i + Z.of_nat 0) with i in Hfirst by lia. rewrite Hfirst.
  pose proof (proj1 (probe_drive_control i (w i) g)) as Hctl.
  destruct (probe_drive i (w i) g) as [[c g1] t1]. cbn [fst snd] in Hctl.
  destruct c; try done.
  destruct k as [|k].
  - replace (i + Z.of_nat 0) with i in Hgap by lia.
    by apply Hctl in Hgap.
  - rewrite (IH (i + 1) k g1); [done| |].
    + by replace (i + 1 + Z.of_nat k) with (i + Z.of_nat (S k)) by lia.
    + intros m Hm.
      replace (i + 1 + Z.of_nat m) with (i + Z.of_nat (S m)) by lia.
      apply Hsame. lia.
Qed.

Lemma round_stops_at_first_gap_witness :
  probe_drives 255 0
    (λ j, if j =? 0 then obs_running 0 100 50
          else if j =? 1 then obs_absent 0 else obs_running 0 5 5)
    (initial_globals initial_startup) =
  probe_drives 255 0
    (λ j, if j =? 0 then obs_running 0 100 50 else obs_absent 0)
    (initial_globals initial_startup).
Proof.
  apply (round_stops_at_first_gap 255 0 1).
  - discriminate.
  - intros [|[|m]] Hm; [reflexivity|reflexivity|lia].
Defined.

(** ** The first observation of a drive *)

(** X6.  The first pass that reads the counters of a drive without an entry
    puts a new entry in front of the list: idle time from the idle-time table
    (the table's answer for the drive name), [last_io] and [spinup] at the
    time of the pass, the counts as read, not spun down.  The pass makes no
    standby call, whatever the idle time is. *)
Theorem first_observation_creates_entry (i : Z) (o : obs) (g : globals)
    (Hreads : reads_now o = true)
    (Hnone : diskstats_of i g = None)
    (Hmalloc : o_malloc o = true) :
  ∃ t,
    probe_drive i o g =
      (ctl_continue,
       update_ds_root
         (cons (mk_DISKSTATS (physical_drive_name i)
                  (find_idle_time (it_root (config g)) (physical_drive_name i) 0)
                  (o_now o) 0 (o_now o) false
                  (to_uint (o_ReadCount o)) (to_uint (o_WriteCount o)))) g,
       t) ∧
    (∀ n, standby_calls n t = 0%nat) ∧
    length (List.filter is_counter_read t) = 1%nat.
Proof.
  unfold reads_now in Hreads.
  apply reads_counters_spec in Hreads
    as (Hopen & Hr & Hon & Hfixed & Hres & Hbytes & _ & _).
  apply diskstats_of_None in Hnone.
  destruct (ata_check_power_mode_run (physical_drive_name i) o g)
    as (ata & body & Hcheck).
  unfold probe_drive, count_io, get_diskstats. run_m.
  rewrite Hopen. run_m. rewrite Hr, Hon. run_m. rewrite Hfixed. run_m.
  rewrite Hcheck. run_m. rewrite Hres, Hbytes. run_m.
  rewrite Hnone. run_m. rewrite Hmalloc. run_m.
  eexists. split; [reflexivity|]. split.
  - intros n. by count_calls.
  - simpl. rewrite !List.filter_app, !counter_reads_log by apply log_lines_dprintf.
    reflexivity.
Qed.

Lemma first_observation_creates_entry_witness :
  reads_now (obs_running 7 100 50) = true ∧
  diskstats_of 1 (sample_globals false) = None ∧
  ∃ t,
    probe_drive 1 (obs_running 7 100 50) (sample_globals false) =
      (ctl_continue,
       mk_globals initial_startup
         [mk_DISKSTATS "\\.\PhysicalDrive1" 60 7 0 7 false 100 50; sample_disk false]
         false,
       t).
Proof.
  split; [reflexivity|]. split; [reflexivity|].
  destruct (first_observation_creates_entry 1 (obs_running 7 100 50)
              (sample_globals false) eq_refl eq_refl eq_refl) as (t & Hrun & _).
  exists t. rewrite Hrun. reflexivity.
Defined.

(** ** A pass that changes nothing *)

(** X7.  While the counters read are those of the entry and the standby call
    is not due (the idle time has not passed, or is zero, or the disk is
    already taken to be spun down), a pass leaves the whole program state as
    it is and makes no standby call. *)
Theorem idle_pass_changes_nothing (i : Z) (o : obs) (g : globals) (d : DISKSTATS)
    (Hobs : reads_counters (ds_reads d) (ds_writes d) o = true)
    (Hentry : diskstats_of i g = Some d)
    (Hnot_due : spin_down_due d (o_now o) = false) :
  (probe_drive i o g).1 = (ctl_continue, g) ∧
  (∀ n, standby_calls n (probe_drive i o g).2 = 0%nat).
Proof.
  apply diskstats_of_Some in Hentry as [p Hfind].
  destruct (probe_drive_known i o g _ _ p d Hobs Hfind)
    as (pre & Hcalls & _ & ->).
  by rewrite !Z.eqb_refl, Hnot_due.
Qed.

Lemma idle_pass_changes_nothing_witness :
  reads_counters 100 50 (obs_running 89 100 50) = true ∧
  diskstats_of 0 (sample_globals false) = Some (sample_disk false) ∧
  spin_down_due (sample_disk false) 89 = false ∧
  (probe_drive 0 (obs_running 89 100 50) (sample_globals false)).1 =
    (ctl_continue, sample_globals false).
Proof.
  split; [reflexivity|]. split; [reflexivity|]. split; [reflexivity|].
  apply (idle_pass_changes_nothing 0 (obs_running 89 100 50) (sample_globals false)
           (sample_disk false) eq_refl eq_refl eq_refl).
Defined.

(** ** When the counters cannot be read *)

Section Diskperf.

Implicit Types (o : obs) (g : globals) (t log : list event) (i : Z).

Lemma system_calls_app t1 t2 :
  system_calls (t1 ++ t2) = (system_calls t1 + system_calls t2)%nat.
Proof. unfold system_calls. by rewrite List.filter_app, length_app. Qed.

Lemma system_calls_cons e t :
  system_calls (e :: t) = ((if is_system e then 1 else 0) + system_calls t)%nat.
Proof. unfold system_calls. simpl. by destruct (is_system e). Qed.

Lemma system_calls_log log : log_lines log → system_calls log = 0%nat.
Proof.
  unfold system_calls.
  induction 1 as [|e log (format & args & ->) _ IH]; [done|exact IH].
Qed.

(** Counts the calls of [system] in a trace put together from events, log
    lines and pieces. *)
Ltac count_system :=
  repeat first
    [ rewrite system_calls_app
    | rewrite system_calls_cons
    | rewrite (system_calls_log (dprintf_events _ _ _)) by apply log_lines_dprintf
    | match goal with
      | H : log_lines ?l |- context [system_calls ?l] =>
        rewrite (system_calls_log l H)
      end
    | progress change (system_calls []) with 0%nat
    | progress cbn [is_system Nat.add] ].

(** The counter part of a pass when the query fails. *)
Lemma count_io_fails name now mode o g :
  negb (o_perf_result o) || (o_perf_bytesReturned o <=? 0) = true →
  ∃ t,
    count_io name now mode o g =
      (ctl_continue,
       mk_globals (config g) (ds_root g)
                  (tried_diskperf g || (o_perf_error o =? 1)), t) ∧
    (∀ n, standby_calls n t = 0%nat) ∧
    system_calls t =
      if (o_perf_error o =? 1) && negb (tried_diskperf g) then 1%nat else 0%nat.
Proof.
  intros Hfail. unfold count_io. run_m. rewrite Hfail. run_m.
  destruct g as [cfg root tried]. cbn [config ds_root tried_diskperf].
  destruct (o_perf_error o =? 1), tried; run_m; cbn [orb];
    (eexists; split; [reflexivity|]; split;
     [intros n; by count_calls|by count_system]).
Qed.

(** A pass starts [diskperf] only if it has not been started before, and
    notes that it has. *)
Lemma count_io_diskperf name now mode o g :
  (system_calls (count_io name now mode o g).2 +
   (if tried_diskperf (count_io name now mode o g).1.2 then 0 else 1) ≤
   if tried_diskperf g then 0 else 1)%nat.
Proof.
  destruct (negb (o_perf_result o) || (o_perf_bytesReturned o <=? 0)) eqn:Hperf.
  - destruct (count_io_fails name now mode o g Hperf) as (t & -> & _ & Hsystem).
    cbn [fst snd tried_diskperf]. rewrite Hsystem.
    destruct (o_perf_error o =? 1), (tried_diskperf g); simpl; lia.
  - unfold count_io, get_diskstats. run_m. rewrite Hperf. run_m.
    destruct (list_find _ (ds_root g)) as [[p d]|]; run_m.
    + destruct (update_diskstats_run name now
                  (to_uint (o_ReadCount o)) (to_uint (o_WriteCount o))
                  mode p d o g) as (log & Hlog & ->).
      destruct ((ds_reads d =? to_uint (o_ReadCount o)) &&
                (ds_writes d =? to_uint (o_WriteCount o)));
        [destruct (negb (ds_spun_down d) && negb (ds_idle_time d =? 0) &&
                   (ds_idle_time d <=? now - ds_last_io d))|];
        run_m; cbn [fst snd update_ds_root tried_diskperf];
        try (count_system; lia).
      destruct (ata_set_standby_mode_run (ds_name d) o g)
        as (ok & body' & -> & _).
      cbn [fst snd update_ds_root tried_diskperf]. count_system. lia.
    + destruct (o_malloc o); run_m;
        cbn [fst snd update_ds_root tried_diskperf]; count_system; lia.
Qed.

Lemma probe_drive_diskperf i o g :
  (system_calls (probe_drive i o g).2 +
   (if tried_diskperf (probe_drive i o g).1.2 then 0 else 1) ≤
   if tried_diskperf g then 0 else 1)%nat.
Proof.
  destruct (o_open_error o) as [error|] eqn:Hopen.
  - destruct (probe_drive_break i o g error Hopen) as (log & Hlog & ->).
    cbn [fst snd]. count_system. lia.
  - destruct (negb (o_power_r o) || negb (o_power_fOn o)) eqn:Hon.
    + rewrite (probe_drive_asleep i o g Hopen Hon). cbn [fst snd].
      count_system. destruct (list_find _ _) as [[??]|]; simpl; lia.
    + destruct (o_drive_type o =? DRIVE_FIXED) eqn:Hfixed.
      * destruct (probe_drive_fixed i o g Hopen Hon Hfixed) as (ata & body & ->).
        pose proof (count_io_diskperf (physical_drive_name i) (o_now o)
                      (ata_power_mode_string ata) o g) as Hcount.
        destruct (count_io _ _ _ o g) as [[c g1] t1].
        cbn [fst snd] in *. count_system. lia.
      * rewrite (probe_drive_not_fixed i o g Hopen Hon Hfixed). cbn [fst snd].
        count_system. lia.
Qed.

Lemma probe_drives_diskperf n : ∀ i w g,
  (system_calls (probe_drives n i w g).2 +
   (if tried_diskperf (probe_drives n i w g).1.2 then 0 else 1) ≤
   if tried_diskperf g then 0 else 1)%nat.
Proof.
  induction n as [|n IH]; intros i w g; [simpl; lia|].
  cbn [probe_drives].
  pose proof (probe_drive_diskperf i (w i) g) as Hstep.
  destruct (probe_drive i (w i) g) as [[c g1] t1]. cbn [fst snd] in Hstep.
  destruct c; cbn [fst snd]; try lia.
  specialize (IH (i + 1) w g1).
  destruct (probe_drives n (i + 1) w g1) as [[r g2] t2]. cbn [fst snd] in *.
  rewrite system_calls_app. lia.
Qed.

Lemma main_loop_diskperf sleep_time ws : ∀ g,
  (system_calls (main_loop sleep_time ws g).2 +
   (if tried_diskperf (main_loop sleep_time ws g).1.2 then 0 else 1) ≤
   if tried_diskperf g then 0 else 1)%nat.
Proof.
  induction ws as [|w ws IH]; intros g; [simpl; lia|].
  cbn [main_loop].
  pose proof (probe_drives_diskperf 255 0 w g) as Hround.
  destruct (probe_drives 255 0 w g) as [[r g1] t1]. cbn [fst snd] in Hround.
  destruct r as [code|]; cbn [fst snd]; [lia|].
  specialize (IH g1).
  destruct (main_loop sleep_time ws g1) as [[r2 g2] t2]. cbn [fst snd] in *.
  rewrite system_calls_app, system_calls_cons. simpl. lia.
Qed.

End Diskperf.

(** X8.  When the query of the counters fails for a powered fixed drive, the
    pass leaves every entry as it is, makes no standby call and goes on to
    the next drive; it runs [diskperf -YD] if the error code is 1 and this
    has not been tried before, and notes the try. *)
Theorem counter_failure_skips_drive (i : Z) (o : obs) (g : globals)
    (Hopen : o_open_error o = None)
    (Hpowered : o_power_r o = true ∧ o_power_fOn o = true)
    (Hfixed : o_drive_type o = DRIVE_FIXED)
    (Hfail : o_perf_result o = false ∨ o_perf_bytesReturned o ≤ 0) :
  ∃ t,
    probe_drive i o g =
      (ctl_continue,
       mk_globals (config g) (ds_root g)
                  (tried_diskperf g || (o_perf_error o =? 1)), t) ∧
    (∀ n, standby_calls n t = 0%nat) ∧
    system_calls t =
      if (o_perf_error o =? 1) && negb (tried_diskperf g) then 1%nat else 0%nat.
Proof.
  destruct Hpowered as [Hr Hon].
  assert (negb (o_power_r o) || negb (o_power_fOn o) = false) as Hon'
    by (by rewrite Hr, Hon).
  assert ((o_drive_type o =? DRIVE_FIXED) = true) as Hfixed'
    by (by rewrite Hfixed).
  assert (negb (o_perf_result o) || (o_perf_bytesReturned o <=? 0) = true) as Hperf.
  { destruct Hfail as [->|Hle]; [done|].
    apply orb_true_iff. right. by apply Z.leb_le. }
  destruct (probe_drive_fixed i o g Hopen Hon' Hfixed') as (ata & body & ->).
  destruct (count_io_fails (physical_drive_name i) (o_now o)
              (ata_power_mode_string ata) o g Hperf) as (t & -> & Hcalls & Hsystem).
  cbn [fst snd]. eexists. split; [reflexivity|]. split.
  - intros n. count_calls. apply Hcalls.
  - unfold system_calls in *. simpl. exact Hsystem.
Qed.

Lemma counter_failure_skips_drive_witness :
  ∃ t,
    probe_drive 0
      (mk_obs 40 None true true DRIVE_FIXED answer_ok false 0 1 0 0 true answer_ok)
      (sample_globals false) =
      (ctl_continue, mk_globals initial_startup [sample_disk false] true, t) ∧
    system_calls t = 1%nat.
Proof.
  destruct (counter_failure_skips_drive 0
              (mk_obs 40 None true true DRIVE_FIXED answer_ok false 0 1 0 0 true answer_ok)
              (sample_globals false) eq_refl (conj eq_refl eq_refl) eq_refl
              (or_introl eq_refl))
    as (t & Hrun & _ & Hsystem).
  exists t. split; [exact Hrun|exact Hsystem].
Defined.

(** X9.  [diskperf -YD] is run at most once in the life of the program,
    however often the query of the counters fails. *)
Theorem diskperf_runs_at_most_once (opts : list getopt_result) (ws : list (Z → obs))
    (r : option Z) (g : globals) (t : list event)
    (Hmain : main opts ws = Some (r, g, t)) :
  (system_calls t ≤ 1)%nat.
Proof.
  unfold main in Hmain.
  destruct (main_options opts) as [s|]; [|discriminate].
  injection Hmain as Hmain.
  pose proof (main_loop_diskperf (compute_sleep_time (it_root s)) ws
                (initial_globals s)) as Hbound.
  rewrite Hmain in Hbound. cbn [fst snd] in Hbound. simpl in Hbound. lia.
Qed.

Lemma diskperf_runs_at_most_once_witness :
  ∃ r g t,
    main []
      [λ j : Z, if j <? 2
            then mk_obs 0 None true true DRIVE_FIXED answer_ok false 0 1 0 0 true
                        answer_ok
            else obs_absent 0;
       λ j : Z, if j <? 2
            then mk_obs 6 None true true DRIVE_FIXED answer_ok false 0 1 0 0 true
                        answer_ok
            else obs_absent 6] = Some (r, g, t) ∧
    (system_calls t ≤ 1)%nat.
Proof.
  match goal with
  | |- ∃ r g t, ?m = _ ∧ _ => destruct m as [[[r g] t]|] eqn:Hmain
  end.
  - exists r, g, t. split; [reflexivity|].
    exact (diskperf_runs_at_most_once [] _ r g t Hmain).
  - vm_compute in Hmain. discriminate Hmain.
Defined.

(** ** Handles *)

Section Handles.

Implicit Types (o : obs) (g : globals) (t log : list event) (i : Z) (name : string).

Lemma handles_left_app t1 t2 :
  handles_left (t1 ++ t2) = handles_left t1 + handles_left t2.
Proof. unfold handles_left. rewrite !List.filter_app, !length_app. lia. Qed.

Lemma handles_left_cons e t :
  handles_left (e :: t) =
  (if is_open e then 1 else 0) - (if is_close e then 1 else 0) + handles_left t.
Proof.
  unfold handles_left. simpl.
  destruct (is_open e), (is_close e); simpl length; lia.
Qed.

Lemma handles_left_log log : log_lines log → handles_left log = 0.
Proof.
  unfold handles_left.
  induction 1 as [|e log (format & args & ->) _ IH]; [done|exact IH].
Qed.

Lemma report_open_error_log fn name error o g :
  ∃ t, report_open_error fn name error o g = (tt, g, t) ∧ log_lines t.
Proof.
  unfold report_open_error.
  destruct (error =? ERROR_FILE_NOT_FOUND); [|destruct (error =? ERROR_ACCESS_DENIED)];
    run_m; (eexists; split; [reflexivity|]);
    unfold dprintf_events, log_lines; destruct (debug (config g));
    repeat constructor; eauto.
Qed.

Lemma report_ioctl_error_log fn name error o g :
  ∃ t, report_ioctl_error fn name error o g = (tt, g, t) ∧ log_lines t.
Proof.
  unfold report_ioctl_error.
  destruct (error =? ERROR_INVALID_FUNCTION);
    [|destruct (error =? ERROR_NOT_SUPPORTED);
      [|destruct (error =? ERROR_ACCESS_DENIED)]];
    run_m; (eexists; split; [reflexivity|]);
    unfold dprintf_events, log_lines; destruct (debug (config g));
    repeat constructor; eauto.
Qed.

End Handles.

(** Counts the handles in a trace put together from events, log lines and
    pieces. *)
Ltac count_handles :=
  repeat first
    [ rewrite handles_left_app
    | rewrite handles_left_cons
    | rewrite (handles_left_log (dprintf_events _ _ _)) by apply log_lines_dprintf
    | match goal with
      | H : log_lines ?l |- context [handles_left ?l] =>
        rewrite (handles_left_log l H)
      end
    | progress change (handles_left []) with 0
    | progress cbn [is_open is_close] ].

(** The counter part of a pass closes the handle of the pass, on every
    path. *)
Lemma count_io_handles name now mode (o : obs) (g : globals) :
  handles_left (count_io name now mode o g).2 = -1.
Proof.
  unfold count_io, get_diskstats. run_m.
  destruct (negb (o_perf_result o) || (o_perf_bytesReturned o <=? 0)); run_m.
  - destruct ((o_perf_error o =? 1) && negb (tried_diskperf g)); run_m;
      cbn [snd]; count_handles; lia.
  - destruct (list_find _ (ds_root g)) as [[p d]|]; run_m.
    + destruct (update_diskstats_run name now
                  (to_uint (o_ReadCount o)) (to_uint (o_WriteCount o))
                  mode p d o g) as (log & Hlog & ->).
      destruct ((ds_reads d =? to_uint (o_ReadCount o)) &&
                (ds_writes d =? to_uint (o_WriteCount o)));
        [destruct (negb (ds_spun_down d) && negb (ds_idle_time d =? 0) &&
                   (ds_idle_time d <=? now - ds_last_io d))|];
        run_m; cbn [snd]; try (count_handles; lia).
      destruct (ata_set_standby_mode_run (ds_name d) o g)
        as (ok & body' & -> & _).
      cbn [snd]. count_handles. lia.
    + destruct (o_malloc o); run_m; cbn [snd]; count_handles; lia.
Qed.

(** What a pass leaves open. *)
Lemma probe_drive_handles (i : Z) (o : obs) (g : globals) :
  handles_left (probe_drive i o g).2 = if powered_not_fixed o then 1 else 0.
Proof.
  unfold powered_not_fixed.
  destruct (o_open_error o) as [error|] eqn:Hopen.
  - destruct (probe_drive_break i o g error Hopen) as (log & Hlog & ->).
    rewrite bool_decide_eq_false_2 by done.
    cbn [snd andb]. count_handles. lia.
  - rewrite bool_decide_eq_true_2 by done.
    destruct (negb (o_power_r o) || negb (o_power_fOn o)) eqn:Hon.
    + rewrite (probe_drive_asleep i o g Hopen Hon). cbn [snd].
      count_handles.
      destruct (o_power_r o), (o_power_fOn o); try discriminate; simpl; lia.
    + assert (o_power_r o = true ∧ o_power_fOn o = true) as [Hr Hf]
        by (by destruct (o_power_r o), (o_power_fOn o)).
      rewrite Hr, Hf. cbn [andb].
      destruct (o_drive_type o =? DRIVE_FIXED) eqn:Hfixed.
      * destruct (probe_drive_fixed i o g Hopen Hon Hfixed) as (ata & body & ->).
        pose proof (count_io_handles (physical_drive_name i) (o_now o)
                      (ata_power_mode_string ata) o g) as Hcount.
        destruct (count_io _ _ _ o g) as [[c g1] t1].
        cbn [fst snd negb] in *. count_handles. lia.
      * rewrite (probe_drive_not_fixed i o g Hopen Hon Hfixed). cbn [snd negb].
        count_handles. lia.
Qed.

(** X10.  A pass closes the handle it opened on the drive, except for a
    powered drive that is not a fixed drive: there the pass goes on to the
    next drive with the handle still open. *)
Theorem pass_closes_handle_unless_not_fixed (i : Z) (o : obs) (g : globals) :
  handles_left (probe_drive i o g).2 = if powered_not_fixed o then 1 else 0.
Proof. apply probe_drive_handles. Qed.

(** ** Which drives are queried *)

Lemma filter_log (P : event → bool) (log : list event) :
  (∀ format args, P (ev_printf format args) = false) →
  log_lines log → List.filter P log = [].
Proof.
  intros HP. induction 1 as [|e log (format & args & ->) _ IH]; [done|].
  simpl. by rewrite HP.
Qed.

(** The counter part of a pass queries the counters once and the power mode
    not at all. *)
Lemma count_io_queries name now mode (o : obs) (g : globals) :
  length (List.filter is_check_call (count_io name now mode o g).2) = 0%nat ∧
  length (List.filter is_counter_read (count_io name now mode o g).2) = 1%nat.
Proof.
  assert (∀ P g' format args, (∀ f a, P (ev_printf f a) = false) →
            List.filter P (dprintf_events g' format args) = []) as Hdprintf.
  { intros P g' format args HP. apply filter_log; [done|apply log_lines_dprintf]. }
  unfold count_io, get_diskstats. run_m.
  destruct (negb (o_perf_result o) || (o_perf_bytesReturned o <=? 0)); run_m.
  - destruct ((o_perf_error o =? 1) && negb (tried_diskperf g)); run_m;
      cbn [snd]; rewrite !List.filter_app, !length_app, !Hdprintf by done; done.
  - destruct (list_find _ (ds_root g)) as [[p d]|]; run_m.
    + destruct (update_diskstats_run name now
                  (to_uint (o_ReadCount o)) (to_uint (o_WriteCount o))
                  mode p d o g) as (log & Hlog & ->).
      destruct ((ds_reads d =? to_uint (o_ReadCount o)) &&
                (ds_writes d =? to_uint (o_WriteCount o)));
        [destruct (negb (ds_spun_down d) && negb (ds_idle_time d =? 0) &&
                   (ds_idle_time d <=? now - ds_last_io d))|];
        run_m; cbn [snd];
        try (rewrite !List.filter_app, !length_app,
               !(filter_log _ log) by done; done).
      destruct (ata_set_standby_mode_run (ds_name d) o g)
        as (ok & body' & -> & _).
      cbn [snd].
      rewrite !List.filter_app, !length_app, !(filter_log _ log) by done. done.
    + destruct (o_malloc o); run_m; cbn [snd];
        rewrite !List.filter_app, !length_app, !Hdprintf by done; done.
Qed.

(** X12.  A pass queries the power mode and the counters of a drive once
    each when the drive opens, reports that it is powered and is a fixed
    drive, and neither of them otherwise. *)
Theorem only_powered_fixed_drives_are_queried (i : Z) (o : obs) (g : globals) :
  length (List.filter is_check_call (probe_drive i o g).2) =
    (if powered_fixed o then 1%nat else 0%nat) ∧
  length (List.filter is_counter_read (probe_drive i o g).2) =
    (if powered_fixed o then 1%nat else 0%nat).
Proof.
  unfold powered_fixed.
  destruct (o_open_error o) as [error|] eqn:Hopen.
  - destruct (probe_drive_break i o g error Hopen) as (log & Hlog & ->).
    rewrite bool_decide_eq_false_2 by done. cbn [snd andb].
    by rewrite !List.filter_app, !(filter_log _ log).
  - rewrite bool_decide_eq_true_2 by done.
    destruct (negb (o_power_r o) || negb (o_power_fOn o)) eqn:Hon.
    + rewrite (probe_drive_asleep i o g Hopen Hon). cbn [snd].
      rewrite !List.filter_app, !length_app,
        !(filter_log _ (dprintf_events _ _ _)) by (done || apply log_lines_dprintf).
      by destruct (o_power_r o), (o_power_fOn o).
    + assert (o_power_r o = true ∧ o_power_fOn o = true) as [Hr Hf]
        by (by destruct (o_power_r o), (o_power_fOn o)).
      rewrite Hr, Hf. cbn [andb].
      destruct (o_drive_type o =? DRIVE_FIXED) eqn:Hfixed.
      * destruct (probe_drive_fixed i o g Hopen Hon Hfixed) as (ata & body & ->).
        destruct (count_io_queries (physical_drive_name i) (o_now o)
                    (ata_power_mode_string ata) o g) as [Hcheck Hread].
        destruct (count_io _ _ _ o g) as [[c g1] t1].
        cbn [fst snd] in *.
        rewrite !List.filter_app, !length_app, Hcheck, Hread. done.
      * rewrite (probe_drive_not_fixed i o g Hopen Hon Hfixed). cbn [snd].
        rewrite !List.filter_app, !length_app,
          !(filter_log _ (dprintf_events _ _ _)) by (done || apply log_lines_dprintf).
        done.
Qed.

(** ** The ATA helpers *)

(** Steps through the error reports of a helper. *)
Ltac run_helper :=
  run_m;
  repeat match goal with
  | |- context [report_open_error ?fn ?name ?error ?o ?g] =>
    let t := fresh "t" in
    let H := fresh "Hlog" in
    destruct (report_open_error_log fn name error o g) as (t & -> & H)
  | |- context [report_ioctl_error ?fn ?name ?error ?o ?g] =>
    let t := fresh "t" in
    let H := fresh "Hlog" in
    destruct (report_ioctl_error_log fn name error o g) as (t & -> & H)
  end;
  run_m; cbn [fst snd call_body].

(** Drops the log lines from a filtered trace. *)
Ltac drop_log :=
  repeat first
    [ rewrite List.filter_app
    | rewrite (filter_log _ (dprintf_events _ _ _)) by (done || apply log_lines_dprintf)
    | match goal with
      | H : log_lines ?l |- context [List.filter ?P ?l] =>
        rewrite (filter_log P l) by done
      end
    | progress cbn [List.filter is_device_io app] ].

(** X13.  Each of the three ATA helpers closes its handle when the command
    went through, and returns with the handle open when the device opened
    and the command failed. *)
Theorem helpers_leave_handle_when_command_fails (name : string) (o : obs)
    (g : globals) (a : ata_obs) :
  handles_left (call_body (ata_check_power_mode name o g).2) =
    (if command_fails (o_check o) then 1 else 0) ∧
  handles_left (call_body (ata_set_standby_mode name o g).2) =
    (if command_fails (o_standby o) then 1 else 0) ∧
  handles_left (ata_set_idle_mode a name o g).2 =
    (if command_fails a then 1 else 0).
Proof.
  unfold command_fails, ata_opens. split; [|split].
  - unfold ata_check_power_mode.
    destruct (a_open_error (o_check o)) as [error|] eqn:Hopen; run_helper;
      rewrite Hopen; run_helper; [count_handles; lia|].
    destruct (a_ioctl_error (o_check o)) as [error|] eqn:Hioctl; run_helper;
      count_handles; lia.
  - unfold ata_set_standby_mode.
    destruct (a_open_error (o_standby o)) as [error|] eqn:Hopen; run_helper;
      rewrite Hopen; run_helper; [count_handles; lia|].
    destruct (a_flushed (o_standby o)); run_helper;
      (destruct (a_ioctl_error (o_standby o)) as [error|] eqn:Hioctl; run_helper;
       count_handles; lia).
  - unfold ata_set_idle_mode.
    destruct (a_open_error a) as [error|] eqn:Hopen; run_helper;
      [count_handles; lia|].
    destruct (a_ioctl_error a) as [error|] eqn:Hioctl; run_helper;
      count_handles; lia.
Qed.

(** X14.  [ata_set_standby_mode] flushes the device and then sends STANDBY
    IMMEDIATE whenever the device opens, also after a flush that failed; it
    returns true when the device opened and the command went through,
    whatever the flush did, and leaves the program state alone. *)
Theorem standby_command_follows_flush (name : string) (o : obs) (g : globals) :
  (ata_set_standby_mode name o g).1 = (ata_succeeds (o_standby o), g) ∧
  List.filter is_device_io (call_body (ata_set_standby_mode name o g).2) =
    if ata_opens (o_standby o)
    then [ev_FlushFileBuffers name (a_flushed (o_standby o));
          ev_ATA_PASS_THROUGH name 0xE0 (a_ioctl_error (o_standby o))]
    else [].
Proof.
  unfold ata_succeeds, ata_opens, ata_set_standby_mode.
  destruct (a_open_error (o_standby o)) as [error|] eqn:Hopen; run_helper;
    rewrite Hopen; run_helper.
  { split; [done|]. simpl. by drop_log. }
  destruct (a_flushed (o_standby o)); run_helper;
    (destruct (a_ioctl_error (o_standby o)) as [error|] eqn:Hioctl; run_helper;
     (split; [done|]); simpl; by drop_log).
Qed.

(** X15.  [ata_check_power_mode] returns -1 when the device does not open
    or the command fails, and otherwise the sector count register, a value
    from 0 to 255; the only thing it sends to the device is CHECK POWER MODE,
    without a flush, and it leaves the program state alone. *)
Theorem check_power_mode_result (name : string) (o : obs) (g : globals) :
  (ata_check_power_mode name o g).1 =
    (if ata_succeeds (o_check o) then a_CurrentTaskFile1 (o_check o) mod 256 else -1,
     g) ∧
  -1 ≤ (ata_check_power_mode name o g).1.1 ≤ 255 ∧
  ((ata_check_power_mode name o g).1.1 = -1 ↔ ata_succeeds (o_check o) = false) ∧
  List.filter is_device_io (call_body (ata_check_power_mode name o g).2) =
    if ata_opens (o_check o)
    then [ev_ATA_PASS_THROUGH name 0xE5 (a_ioctl_error (o_check o))]
    else [].
Proof.
  pose proof (Z.mod_pos_bound (a_CurrentTaskFile1 (o_check o)) 256 ltac:(lia)) as Hbyte.
  unfold ata_succeeds, ata_opens, ata_check_power_mode.
  destruct (a_open_error (o_check o)) as [error|] eqn:Hopen; run_helper;
    rewrite Hopen; run_helper.
  { split; [done|]. split; [lia|]. split; [done|]. simpl. by drop_log. }
  destruct (a_ioctl_error (o_check o)) as [error|] eqn:Hioctl; run_helper.
  - split; [done|]. split; [lia|]. split; [done|]. simpl. by drop_log.
  - split; [done|]. split; [lia|]. split; [|done].
    split; [lia|discriminate].
Qed.

(** X16.  [ata_set_idle_mode] sends IDLE IMMEDIATE when the device opens,
    and nothing else: unlike [ata_set_standby_mode] it does not flush.  It
    returns true when the device opened and the command went through, and
    leaves the program state alone. *)
Theorem idle_mode_sends_no_flush (a : ata_obs) (name : string) (o : obs)
    (g : globals) :
  (ata_set_idle_mode a name o g).1 = (ata_succeeds a, g) ∧
  List.filter is_device_io (ata_set_idle_mode a name o g).2 =
    if ata_opens a then [ev_ATA_PASS_THROUGH name 0xE1 (a_ioctl_error a)] else [].
Proof.
  unfold ata_succeeds, ata_opens, ata_set_idle_mode.
  destruct (a_open_error a) as [error|] eqn:Hopen; run_helper.
  { split; [done|]. simpl. by drop_log. }
  destruct (a_ioctl_error a) as [error|] eqn:Hioctl; run_helper;
    (split; [done|]); simpl; by drop_log.
Qed.

(** ** Handles, with those of the helpers *)

Section AllHandles.

Implicit Types (o : obs) (g : globals) (t log : list event) (i : Z) (name : string).

Lemma all_handles_left_app t1 t2 :
  all_handles_left (t1 ++ t2) = all_handles_left t1 + all_handles_left t2.
Proof.
  unfold all_handles_left. induction t1 as [|e t1 IH]; [done|].
  simpl. rewrite IH. lia.
Qed.

Lemma all_handles_left_cons e t :
  all_handles_left (e :: t) = event_handles e + all_handles_left t.
Proof. done. Qed.

Lemma event_handles_call f name body :
  event_handles (ev_call f name body) = all_handles_left body.
Proof.
  unfold all_handles_left. simpl.
  induction body as [|e body IH]; [done|]. simpl. by rewrite IH.
Qed.

Lemma all_handles_left_log log : log_lines log → all_handles_left log = 0.
Proof.
  unfold all_handles_left.
  induction 1 as [|e log (format & args & ->) _ IH]; [done|]. simpl. exact IH.
Qed.

End AllHandles.

(** Counts the handles in a trace, with those inside the helper calls. *)
Ltac count_all_handles :=
  repeat first
    [ rewrite all_handles_left_app
    | rewrite all_handles_left_cons
    | rewrite event_handles_call
    | rewrite (all_handles_left_log (dprintf_events _ _ _)) by apply log_lines_dprintf
    | match goal with
      | H : log_lines ?l |- context [all_handles_left ?l] =>
        rewrite (all_handles_left_log l H)
      end
    | progress change (all_handles_left []) with 0
    | progress cbn [event_handles] ].

(** What the power mode query leaves open. *)
Lemma ata_check_power_mode_all_handles name (o : obs) (g : globals) :
  ∃ ata body,
    ata_check_power_mode name o g = (ata, g, [ev_call f_ata_check_power_mode name body]) ∧
    all_handles_left body = if command_fails (o_check o) then 1 else 0.
Proof.
  unfold command_fails, ata_opens, ata_check_power_mode. run_m.
  destruct (a_open_error (o_check o)) as [error|] eqn:Hopen; run_helper.
  { do 2 eexists. split; [reflexivity|]. count_all_handles. lia. }
  destruct (a_ioctl_error (o_check o)) as [error|] eqn:Hioctl; run_helper;
    (do 2 eexists; split; [reflexivity|]); count_all_handles; lia.
Qed.

(** What the standby call leaves open. *)
Lemma ata_set_standby_mode_all_handles name (o : obs) (g : globals) :
  ∃ ok body,
    ata_set_standby_mode name o g = (ok, g, [ev_call f_ata_set_standby_mode name body]) ∧
    all_handles_left body = if command_fails (o_standby o) then 1 else 0.
Proof.
  unfold command_fails, ata_opens, ata_set_standby_mode. run_m.
  destruct (a_open_error (o_standby o)) as [error|] eqn:Hopen; run_helper.
  { do 2 eexists. split; [reflexivity|]. count_all_handles. lia. }
  destruct (a_flushed (o_standby o)); run_helper;
    (destruct (a_ioctl_error (o_standby o)) as [error|] eqn:Hioctl; run_helper;
     (do 2 eexists; split; [reflexivity|]); count_all_handles; lia).
Qed.

(** The counter part of a pass closes the handle of the pass; what else it
    leaves is the handle of a standby call whose command failed. *)
Lemma count_io_all_handles name now mode (o : obs) (g : globals) :
  command_fails (o_standby o) = false →
  all_handles_left (count_io name now mode o g).2 = -1.
Proof.
  intros Hstandby.
  unfold count_io, get_diskstats. run_m.
  destruct (negb (o_perf_result o) || (o_perf_bytesReturned o <=? 0)); run_m.
  - destruct ((o_perf_error o =? 1) && negb (tried_diskperf g)); run_m;
      cbn [snd]; count_all_handles; lia.
  - destruct (list_find _ (ds_root g)) as [[p d]|]; run_m.
    + destruct (update_diskstats_run name now
                  (to_uint (o_ReadCount o)) (to_uint (o_WriteCount o))
                  mode p d o g) as (log & Hlog & ->).
      destruct ((ds_reads d =? to_uint (o_ReadCount o)) &&
                (ds_writes d =? to_uint (o_WriteCount o)));
        [destruct (negb (ds_spun_down d) && negb (ds_idle_time d =? 0) &&
                   (ds_idle_time d <=? now - ds_last_io d))|];
        run_m; cbn [snd]; try (count_all_handles; lia).
      destruct (ata_set_standby_mode_all_handles (ds_name d) o g)
        as (ok & body' & -> & Hbody).
      cbn [snd]. count_all_handles. rewrite Hbody, Hstandby. lia.
    + destruct (o_malloc o); run_m; cbn [snd]; count_all_handles; lia.
Qed.

(** A pass on a drive that is not a powered drive of another type than
    fixed, with no failing ATA command, leaves no handle open. *)
Lemma probe_drive_all_handles i (o : obs) (g : globals) :
  powered_not_fixed o = false →
  command_fails (o_check o) = false →
  command_fails (o_standby o) = false →
  all_handles_left (probe_drive i o g).2 = 0.
Proof.
  unfold powered_not_fixed. intros Hfixed Hcheck Hstandby.
  destruct (o_open_error o) as [error|] eqn:Hopen.
  - destruct (probe_drive_break i o g error Hopen) as (log & Hlog & ->).
    cbn [snd]. count_all_handles. lia.
  - rewrite bool_decide_eq_true_2 in Hfixed by done.
    destruct (negb (o_power_r o) || negb (o_power_fOn o)) eqn:Hon.
    + rewrite (probe_drive_asleep i o g Hopen Hon). cbn [snd].
      count_all_handles. lia.
    + assert (o_power_r o = true ∧ o_power_fOn o = true) as [Hr Hf]
        by (by destruct (o_power_r o), (o_power_fOn o)).
      rewrite Hr, Hf in Hfixed. cbn [andb] in Hfixed.
      apply negb_false_iff in Hfixed.
      pose proof (count_io_all_handles (physical_drive_name i) (o_now o)) as Hcount.
      destruct (ata_check_power_mode_all_handles (physical_drive_name i) o g)
        as (ata & body & Hrun & Hbody).
      specialize (Hcount (ata_power_mode_string ata) o g Hstandby).
      unfold probe_drive. run_m.
      rewrite Hopen. run_m. rewrite Hon. run_m. rewrite Hfixed. run_m.
      rewrite Hrun. run_m.
      destruct (count_io _ _ _ o g) as [[c g1] t1].
      cbn [fst snd] in *. count_all_handles. rewrite Hbody, Hcheck. lia.
Qed.

Lemma probe_drives_all_handles (w : Z → obs) (m : nat) : ∀ i g,
  (∀ k, (k < m)%nat →
        powered_not_fixed (w (i + Z.of_nat k)) = false ∧
        command_fails (o_check (w (i + Z.of_nat k))) = false ∧
        command_fails (o_standby (w (i + Z.of_nat k))) = false) →
  all_handles_left (probe_drives m i w g).2 = 0.
Proof.
  induction m as [|m IH]; intros i g Hall; [done|].
  cbn [probe_drives].
  assert (all_handles_left (probe_drive i (w i) g).2 = 0) as Hstep.
  { destruct (Hall 0%nat ltac:(lia)) as (Hfixed & Hcheck & Hstandby).
    replace (i + Z.of_nat 0) with i in * by lia.
    by apply probe_drive_all_handles. }
  destruct (probe_drive i (w i) g) as [[c g1] t1]. cbn [snd] in Hstep.
  destruct c; cbn [snd]; try done.
  specialize (IH (i + 1) g1).
  destruct (probe_drives m (i + 1) w g1) as [[r g2] t2]. cbn [snd] in *.
  rewrite all_handles_left_app, Hstep, IH; [done|].
  intros k Hk.
  replace (i + 1 + Z.of_nat k) with (i + Z.of_nat (S k)) by lia.
  apply Hall. lia.
Qed.

(** X11.  While no powered drive of another type than fixed is met and no
    ATA command fails on a device that opened, every handle that the main
    loop opens, itself or inside [ata_check_power_mode] and
    [ata_set_standby_mode], is closed again: after any number of rounds
    none is left. *)
Theorem loop_closes_handles_of_fixed_drives (sleep_time : Z) (ws : list (Z → obs))
    (g : globals)
    (Hfixed : ∀ w j, w ∈ ws → 0 ≤ j < 255 → powered_not_fixed (w j) = false)
    (Hcommands : ∀ w j, w ∈ ws → 0 ≤ j < 255 →
                   command_fails (o_check (w j)) = false ∧
                   command_fails (o_standby (w j)) = false) :
  all_handles_left (main_loop sleep_time ws g).2 = 0.
Proof.
  revert g. induction ws as [|w ws IH]; intros g; [done|].
  cbn [main_loop].
  assert (all_handles_left (probe_drives 255 0 w g).2 = 0) as Hround.
  { apply probe_drives_all_handles. intros k Hk.
    split; [apply Hfixed; [by left|lia]|apply Hcommands; [by left|lia]]. }
  destruct (probe_drives 255 0 w g) as [[r g1] t1]. cbn [snd] in Hround.
  destruct r as [code|]; cbn [snd]; [done|].
  assert (all_handles_left (main_loop sleep_time ws g1).2 = 0) as Hrest.
  { apply IH.
    - intros w' j Hw'. apply Hfixed. by right.
    - intros w' j Hw'. apply Hcommands. by right. }
  destruct (main_loop sleep_time ws g1) as [[r2 g2] t2]. cbn [snd] in *.
  rewrite all_handles_left_app, all_handles_left_cons, Hround, Hrest. done.
Qed.

Lemma loop_closes_handles_of_fixed_drives_witness :
  all_handles_left
    (main_loop 6 [λ j, if j <? 2 then obs_running 0 1 1 else obs_absent 0;
                  λ j, if j <? 2 then obs_running 100 1 1 else obs_absent 100;
                  λ j, if j <? 1 then obs_off 106 else obs_absent 106]
               (initial_globals initial_startup)).2 = 0.
Proof.
  apply loop_closes_handles_of_fixed_drives.
  - intros w j Hw _.
    apply elem_of_cons in Hw as [->|Hw];
      [|apply elem_of_cons in Hw as [->|Hw];
        [|apply elem_of_cons in Hw as [->|Hw]]].
    + by destruct (j <? 2).
    + by destruct (j <? 2).
    + by destruct (j <? 1).
    + by apply elem_of_nil in Hw.
  - intros w j Hw _.
    apply elem_of_cons in Hw as [->|Hw];
      [|apply elem_of_cons in Hw as [->|Hw];
        [|apply elem_of_cons in Hw as [->|Hw]]].
    + by destruct (j <? 2).
    + by destruct (j <? 2).
    + by destruct (j <? 1).
    + by apply elem_of_nil in Hw.
Defined.

(** With a power mode query whose command fails, the handle that the query
    opened stays open, pass after pass. *)
Example failing_power_mode_query_leaves_handles :
  all_handles_left
    (main_loop 6
       [λ j, if j <? 1
             then with_check (mk_ata_obs None true (Some ERROR_NOT_SUPPORTED) 0)
                             (obs_running 0 1 1)
             else obs_absent 0;
        λ j, if j <? 1
             then with_check (mk_ata_obs None true (Some ERROR_NOT_SUPPORTED) 0)
                             (obs_running 6 1 1)
             else obs_absent 6]
       (initial_globals initial_startup)).2 = 2.
Proof. vm_compute. reflexivity. Qed.

(** ** Start-up *)

Section Startup.

Implicit Types (opts pre post : list getopt_result) (s : startup).

(** [parse_options_events] ends as [parse_options] does while [malloc]
    succeeds. *)
Lemma parse_options_events_agree stop (alloc : nat → bool) opts :
  (∀ k, alloc k = true) →
  ∀ s k,
    match parse_options_events stop alloc k opts s with
    | po_parsed s' _ => parse_options opts s = Parsed s'
    | po_returned code _ => ∃ a, parse_options opts s = Returned code a
    end.
Proof.
  intros Halloc. induction opts as [|o opts IH]; intros s k; [done|].
  destruct o; simpl; try apply IH; try (by eexists).
  rewrite Halloc.
  match goal with
  | |- context [parse_options_events stop alloc (S k) opts ?s1] =>
    specialize (IH s1 (S k));
    destruct (parse_options_events stop alloc (S k) opts s1)
  end; exact IH.
Qed.

(** [main_outcome] runs the loop when [main] does, and with the same
    result. *)
Lemma main_outcome_main opts (alloc : nat → bool) stop ws :
  (∀ k, alloc k = true) →
  main opts ws =
  match main_outcome opts alloc stop ws with
  | out_loop _ r => Some r
  | out_returned _ _ => None
  end.
Proof.
  intros Halloc. unfold main, main_outcome, main_options. rewrite Halloc.
  pose proof (parse_options_events_agree stop alloc opts Halloc initial_startup 1)
    as Hagree.
  destruct (parse_options_events stop alloc 1 opts initial_startup).
  - by rewrite Hagree.
  - destruct Hagree as [a ->]. done.
Qed.

(** Up to a [-t] with no returning option before it: the [-a] options have
    left their allocations and log lines, and [spindown_disk] is called. *)
Lemma parse_options_events_t stop (alloc : nat → bool) pre disk post :
  (∀ k, alloc k = true) →
  returning_option pre = None →
  ∀ s k, debug s = true →
    parse_options_events stop alloc k (pre ++ opt_t disk :: post) s =
    po_returned 0 (a_option_events pre ++ spindown_disk true stop disk).
Proof.
  intros Halloc. induction pre as [|o pre IH]; intros Hpre s k Hs.
  - simpl. by rewrite Hs.
  - destruct o; simpl in Hpre |- *; try discriminate; try (by apply IH).
    rewrite Halloc. rewrite (IH Hpre) by exact Hs. by rewrite Hs.
Qed.

Lemma parse_options_t pre disk post :
  returning_option pre = None →
  ∀ s, parse_options (pre ++ opt_t disk :: post) s = Returned 0 (Some disk).
Proof.
  induction pre as [|o pre IH]; intros Hpre s; [done|].
  destruct o; simpl in Hpre |- *; try discriminate; by apply IH.
Qed.

Lemma parse_options_debug opts : ∀ s s',
  debug s = true → parse_options opts s = Parsed s' → debug s' = true.
Proof.
  induction opts as [|o opts IH]; intros s s' Hs; simpl.
  - by intros [= <-].
  - destruct o; try done; by apply IH.
Qed.

Lemma parse_options_d pre post : ∀ s,
  debug s = true →
  parse_options (pre ++ opt_d :: post) s = parse_options (pre ++ post) s.
Proof.
  induction pre as [|o pre IH]; intros s Hs.
  - simpl. by destruct s; simpl in *; subst.
  - destruct o; simpl; try done; by apply IH.
Qed.

(** The idle times of the table are not negative when the arguments of
    [-i] are not. *)
Lemma parse_options_nonneg opts : ∀ s s',
  Forall (λ opt, ∀ n, opt = opt_i n → 0 ≤ n) opts →
  Forall (λ e, 0 ≤ it_idle_time e) (it_root s) →
  parse_options opts s = Parsed s' →
  Forall (λ e, 0 ≤ it_idle_time e) (it_root s').
Proof.
  induction opts as [|o opts IH]; intros s s' Hargs Hs; simpl.
  - by intros [= <-].
  - apply Forall_cons in Hargs as [Ho Hargs].
    destruct o; try done; apply IH; try done; simpl.
    + apply Forall_cons. split; [by unfold DEFAULT_IDLE_TIME|done].
    + destruct (it_root s) as [|e next]; [done|].
      apply Forall_cons in Hs as [_ Hnext].
      apply Forall_cons. split; [by apply Ho|done].
Qed.

(** The sleep time for a table without negative idle times. *)
Lemma compute_sleep_time_bounds (it : list IDLE_TIME) :
  Forall (λ e, 0 ≤ it_idle_time e) it → 1 ≤ compute_sleep_time it ≤ 10.
Proof.
  intros Hnonneg. unfold compute_sleep_time.
  destruct (min_idle_time_loop_spec it (Z.shiftl 1 30)) as (_ & _ & Hin).
  change (Z.shiftl 1 30) with 1073741824 in *.
  set (r := min_idle_time_loop it 1073741824) in *.
  assert (0 < r) as Hpos.
  { destruct Hin as [->|Hin]; [done|].
    unfold nonzero_idle_times in Hin.
    apply list_elem_of_In, filter_In in Hin as [Hm Hnz].
    apply in_map_iff in Hm as (e & Hr & He).
    rewrite Forall_forall in Hnonneg.
    apply list_elem_of_In, Hnonneg in He.
    destruct (Z.eqb_spec r 0); [done|lia]. }
  rewrite Z.quot_div_nonneg by lia.
  assert (0 ≤ r / 10) by (apply Z.div_pos; lia).
  destruct (Z.eqb_spec (r / 10) 0) as [Hq|Hq].
  - done.
  - destruct (Z.ltb_spec 10 (r / 10)); lia.
Qed.

End Startup.

(** X17.  With [-t disk], [main] calls [spindown_disk] for the name as it is
    given and returns 0: the main loop does not run and the options after
    [-t] are not read.  Of the options before it, every [-a] has left an
    allocation and the log line of [disk_name], and [-i], [-l] and [-d]
    have left nothing; [debug] is on in the call.  This is while [malloc]
    succeeds. *)
Theorem t_option_spins_down_and_returns (pre post : list getopt_result)
    (disk : string) (alloc : nat → bool) (stop : stop_obs) (ws : list (Z → obs))
    (Hpre : returning_option pre = None)
    (Halloc : ∀ k, alloc k = true) :
  main_outcome (pre ++ opt_t disk :: post) alloc stop ws =
    out_returned 0
      (se_os (ev_malloc true) :: a_option_events pre ++ spindown_disk true stop disk) ∧
  main (pre ++ opt_t disk :: post) ws = None.
Proof.
  split.
  - unfold main_outcome. rewrite Halloc.
    by rewrite (parse_options_events_t stop alloc pre disk post Halloc Hpre).
  - unfold main, main_options. by rewrite parse_options_t.
Qed.

Lemma t_option_spins_down_and_returns_witness :
  main_outcome ([opt_a "\\.\PhysicalDrive1"; opt_i 300] ++
                opt_t "\\.\PhysicalDrive2" :: [opt_h])
               (λ _, true) (mk_stop_obs None false 1) [λ _, obs_running 0 1 1] =
    out_returned 0
      ([se_os (ev_malloc true);
        se_os (ev_malloc true);
        se_os (ev_printf "using %s for %s\n"
                 [arg_s "\\.\PhysicalDrive1"; arg_s "\\.\PhysicalDrive1"])] ++
       spindown_disk true (mk_stop_obs None false 1) "\\.\PhysicalDrive2").
Proof.
  exact (proj1 (t_option_spins_down_and_returns
                  [opt_a "\\.\PhysicalDrive1"; opt_i 300] [opt_h]
                  "\\.\PhysicalDrive2" (λ _, true) (mk_stop_obs None false 1)
                  [λ _, obs_running 0 1 1] eq_refl (λ _, eq_refl))).
Defined.

(** When [malloc] fails for an [-a] that comes before [-t], [main] returns 2
    and the disk is not spun down. *)
Example failing_malloc_before_t_returns_2 :
  main_outcome [opt_a "\\.\PhysicalDrive1"; opt_t "\\.\PhysicalDrive2"]
               (λ k, k <? 1)%nat (mk_stop_obs None true 1) [] =
    out_returned 2 [se_os (ev_malloc true); se_os (ev_malloc false);
                    se_os (ev_fprintf_stderr "out of memory\n")].
Proof. reflexivity. Qed.

(** X18.  [spindown_disk] sends the SCSI command STOP UNIT, [1b 00 00 00 00
    00], once when the device opens, also after a flush that failed, and
    nothing when it does not open; the flush comes first; and whatever the
    command returns, the handle is closed. *)
Theorem stop_unit_is_sent_once (dbg : bool) (a : stop_obs) (name : string) :
  scsi_commands (spindown_disk dbg a name) =
    (if s_open_error a is None then [[0x1b; 0; 0; 0; 0; 0]] else []) ∧
  stop_handles_left (spindown_disk dbg a name) = 0 ∧
  (s_open_error a = None →
   ∃ log rest,
     Forall (λ e, ∃ format args, e = se_os (ev_printf format args)) log ∧
     spindown_disk dbg a name =
       [se_os (ev_CreateFile name (Z.lor GENERIC_READ GENERIC_WRITE) None);
        se_os (ev_FlushFileBuffers name (s_flushed a))] ++ log ++
       se_SCSI_PASS_THROUGH_DIRECT name [0x1b; 0; 0; 0; 0; 0] 30 (s_iReply a) :: rest).
Proof.
  unfold spindown_disk, stop_dprintf.
  destruct (s_open_error a) as [error|].
  - split; [|split; [|done]];
      destruct (error =? ERROR_ACCESS_DENIED), dbg; done.
  - split; [|split].
    + destruct (s_flushed a), (s_iReply a =? 0), dbg; done.
    + destruct (s_flushed a), (s_iReply a =? 0), dbg; done.
    + intros _. do 2 eexists. split; [|reflexivity].
      destruct (s_flushed a), dbg; repeat constructor; eauto.
Qed.

(** X19.  The option [-d] changes nothing: [debug] is on from the start, so
    the options with a [-d] among them are parsed to the same result as
    without it. *)
Theorem d_option_changes_nothing (pre post : list getopt_result) :
  main_options (pre ++ opt_d :: post) = main_options (pre ++ post).
Proof. unfold main_options. by apply parse_options_d. Qed.

(** X20.  What start-up has set, the main loop never changes: in every
    state the program reaches, the idle-time table, the log file name and
    [debug] are those that option parsing left, and [debug] is on. *)
Theorem configuration_is_fixed_at_startup (opts : list getopt_result)
    (ws : list (Z → obs)) (r : option Z) (g : globals) (t : list event)
    (Hmain : main opts ws = Some (r, g, t)) :
  main_options opts = Parsed (config g) ∧ debug (config g) = true.
Proof.
  unfold main in Hmain.
  destruct (main_options opts) as [s|] eqn:Hparsed; [|discriminate].
  injection Hmain as Hmain.
  assert (config g = s) as ->.
  { change g with (r, g, t).1.2. rewrite <- Hmain.
    apply (main_loop_invariant (λ g', config g' = s)); [|done].
    intros w j g' _ _ Hg'.
    destruct (probe_drive_shape j (w j) g') as (c & g1 & t1 & -> & Hconfig & _).
    cbn [fst snd]. by rewrite Hconfig. }
  split; [done|].
  by apply (parse_options_debug opts initial_startup).
Qed.

Lemma configuration_is_fixed_at_startup_witness :
  ∃ r g t,
    main [opt_a "\\.\PhysicalDrive0"; opt_i 300] [λ _, obs_absent 0] =
      Some (r, g, t) ∧
    main_options [opt_a "\\.\PhysicalDrive0"; opt_i 300] = Parsed (config g).
Proof.
  match goal with
  | |- ∃ r g t, ?m = _ ∧ _ => destruct m as [[[r g] t]|] eqn:Hmain
  end.
  - exists r, g, t. split; [reflexivity|].
    exact (proj1 (configuration_is_fixed_at_startup _ _ r g t Hmain)).
  - vm_compute in Hmain. discriminate Hmain.
Defined.

(** X21.  When no [-i] has a negative argument, the program sleeps for the
    same time after every round, and that time is between 1 and 10
    seconds. *)
Theorem sleep_is_between_one_and_ten (opts : list getopt_result)
    (ws : list (Z → obs)) (r : option Z) (g : globals) (t : list event)
    (Hargs : Forall (λ opt, ∀ n, opt = opt_i n → 0 ≤ n) opts)
    (Hmain : main opts ws = Some (r, g, t)) :
  ∃ seconds rounds,
    1 ≤ seconds ≤ 10 ∧ (rounds ≤ length ws)%nat ∧
    sleeps t = replicate rounds seconds ∧
    (r = None → rounds = length ws).
Proof.
  unfold main in Hmain.
  destruct (main_options opts) as [s|] eqn:Hparsed; [|discriminate].
  injection Hmain as Hmain.
  destruct (main_loop_sleeps (compute_sleep_time (it_root s)) ws (initial_globals s))
    as (rounds & Hle & Hsleeps & Hall).
  rewrite Hmain in Hsleeps, Hall. cbn [fst snd] in *.
  exists (compute_sleep_time (it_root s)), rounds.
  split; [|by repeat split].
  apply compute_sleep_time_bounds.
  apply (parse_options_nonneg opts initial_startup s Hargs); [|exact Hparsed].
  by repeat constructor.
Qed.

Lemma sleep_is_between_one_and_ten_witness :
  ∃ r g t seconds rounds,
    main [opt_i 25] [λ _, obs_absent 0; λ _, obs_absent 2] = Some (r, g, t) ∧
    1 ≤ seconds ≤ 10 ∧ sleeps t = replicate rounds seconds.
Proof.
  match goal with
  | |- ∃ r g t, ∃ _ _, ?m = _ ∧ _ => destruct m as [[[r g] t]|] eqn:Hmain
  end.
  - assert (Forall (λ opt, ∀ n, opt = opt_i n → 0 ≤ n) [opt_i 25]) as Hargs.
    { repeat constructor. by intros n [= <-]. }
    destruct (sleep_is_between_one_and_ten [opt_i 25] _ r g t Hargs Hmain) as
      (seconds & rounds & Hbound & _ & Hsleeps & _).
    exists r, g, t, seconds, rounds.
    split; [reflexivity|]. split; [exact Hbound|exact Hsleeps].
  - vm_compute in Hmain. discriminate Hmain.
Defined.

(** ** The name buffers *)

(** X22.  The name that a pass prints into [tmp.name], a buffer of 50
    characters, has at most 20 of them for every drive number of the loop,
    and with the backslash added for [GetDriveTypeA] at most 21: both fit
    their buffers with the terminating zero. *)
Theorem drive_name_fits_buffer (i : Z) (Hi : 0 ≤ i < 255) :
  (String.length (physical_drive_name i) ≤ 20)%nat ∧
  (String.length (physical_drive_name i +:+ "\") ≤ 21)%nat.
Proof.
  assert (forallb (λ j, (String.length (physical_drive_name j) <=? 20)%nat &&
                        (String.length (physical_drive_name j +:+ "\") <=? 21)%nat)
                  (seqZ 0 255) = true) as Hall by (vm_compute; reflexivity).
  rewrite forallb_forall in Hall.
  specialize (Hall i).
  rewrite <- list_elem_of_In, elem_of_seqZ in Hall.
  specialize (Hall ltac:(lia)).
  apply andb_prop in Hall as [Hname Hvol].
  split; by apply Nat.leb_le.
Qed.

Lemma drive_name_fits_buffer_witness :
  (String.length (physical_drive_name 254) ≤ 20)%nat ∧
  (String.length (physical_drive_name 254 +:+ "\") ≤ 21)%nat.
Proof. apply drive_name_fits_buffer. lia. Defined.

(** ** The hex dump *)

Section Phex.

Implicit Types (buf : list Z) (len pos : Z).

Lemma omap_map {A B C} (f : B → option C) (h : A → B) (l : list A) :
  omap f (map h l) = omap (λ x, f (h x)) l.
Proof.
  induction l as [|x l IH]; [done|].
  cbn [map].
  change (omap f (h x :: map h l))
    with (match f (h x) with
          | Some y => y :: omap f (map h l)
          | None => omap f (map h l)
          end).
  by rewrite IH.
Qed.

Lemma omap_none {A B} (f : A → option B) (l : list A) :
  (∀ x, f x = None) → omap f l = [].
Proof. intros Hf. induction l as [|x l IH]; [done|]. simpl. by rewrite Hf. Qed.

Lemma omap_some {A B} (f : A → option B) (h : A → B) (l : list A) :
  (∀ x, f x = Some (h x)) → omap f l = h <$> l.
Proof.
  intros Hf. induction l as [|x l IH]; [done|].
  change (omap f (x :: l))
    with (match f x with Some y => y :: omap f l | None => omap f l end).
  by rewrite Hf, IH.
Qed.

Lemma omap_pointwise {A B} (f h : A → option B) (l : list A) :
  (∀ x, f x = h x) → omap f l = omap h l.
Proof.
  intros Hf. induction l as [|x l IH]; [done|].
  change (omap f (x :: l))
    with (match f x with Some y => y :: omap f l | None => omap f l end).
  change (omap h (x :: l))
    with (match h x with Some y => y :: omap h l | None => omap h l end).
  by rewrite Hf, IH.
Qed.

(** The bytes that the hex column of a line shows. *)
Lemma hex_column (n : nat) buf len :
  (n `min` Z.to_nat len ≤ length buf)%nat →
  omap (λ i, if i <? len then Some (nth (Z.to_nat i) buf 0) else None)
       (seqZ 0 (Z.of_nat n)) = take (n `min` Z.to_nat len) buf.
Proof.
  induction n as [|n IH]; intros Hlen; [done|].
  rewrite seqZ_S, omap_app, Z.add_0_l.
  change (omap ?f [?x]) with (match f x with Some y => [y] | None => [] end).
  cbv beta.
  destruct (Z.ltb_spec (Z.of_nat n) len) as [Hlt|Hge].
  - replace (S n `min` Z.to_nat len)%nat with (S n) in * by lia.
    rewrite IH by lia. replace (n `min` Z.to_nat len)%nat with n by lia.
    rewrite Nat2Z.id.
    destruct (nth_lookup_or_length buf n 0) as [Hn|Hn]; [|lia].
    by rewrite (take_S_r _ _ _ Hn).
  - replace (S n `min` Z.to_nat len)%nat with (n `min` Z.to_nat len)%nat in * by lia.
    rewrite IH by lia. by rewrite app_nil_r.
Qed.

(** The bytes that the text column of a line shows. *)
Lemma text_column (n : nat) buf (h : Z → Z) :
  (n ≤ length buf)%nat →
  (λ i, h (nth (Z.to_nat i) buf 0)) <$> seqZ 0 (Z.of_nat n) = h <$> take n buf.
Proof.
  induction n as [|n IH]; intros Hlen; [done|].
  rewrite seqZ_S, fmap_app, Z.add_0_l, IH by lia.
  destruct (nth_lookup_or_length buf n 0) as [Hn|Hn]; [|lia].
  rewrite (take_S_r _ _ _ Hn), fmap_app. simpl. by rewrite Nat2Z.id.
Qed.

Lemma phex_line_cells buf len pos :
  0 < len → (Z.to_nat (Z.min 16 len) ≤ length buf)%nat →
  phex_bytes (phex_line buf len pos) = take (Z.to_nat (Z.min 16 len)) buf ∧
  phex_text (phex_line buf len pos) =
    (λ b, if (32 <=? b) && (b <? 128) then b else 46) <$>
    take (Z.to_nat (Z.min 16 len)) buf ∧
  phex_offsets (phex_line buf len pos) = [pos].
Proof.
  intros Hpos Hlen. unfold phex_line.
  set (hex := λ i : Z, if i <? len
                       then ("%c%02x", [arg_d (if i =? 8 then 45 else 32);
                                        arg_u (nth (Z.to_nat i) buf 0)])
                       else ("   ", [])).
  set (text := λ i : Z, let b := nth (Z.to_nat i) buf 0 in
                        ("%c", [arg_d (if (32 <=? b) && (b <? 128) then b else 46)])).
  set (k := if 16 <? len then 16 else len).
  assert (k = Z.of_nat (Z.to_nat (Z.min 16 len))) as Hk.
  { unfold k. destruct (Z.ltb_spec 16 len); lia. }
  change (?head :: map hex ?l1 ++ ?gap :: map text ?l2 ++ ?nl)
    with ([head] ++ map hex l1 ++ [gap] ++ map text l2 ++ nl).
  unfold phex_bytes, phex_text, phex_offsets.
  rewrite !omap_app, !omap_map.
  split; [|split].
  - rewrite (omap_none _ (seqZ 0 k)) by done.
    rewrite (omap_pointwise _
               (λ i, if i <? len then Some (nth (Z.to_nat i) buf 0) else None)
               (seqZ 0 16)) by (intros i; unfold hex; by destruct (i <? len)).
    change 16 with (Z.of_nat 16) at 1.
    rewrite (hex_column 16 buf len) by lia.
    replace (Z.to_nat (Z.min 16 len)) with (16 `min` Z.to_nat len)%nat by lia.
    simpl. by rewrite app_nil_r.
  - rewrite (omap_none _ (seqZ 0 16)) by (intros i; unfold hex; by destruct (i <? len)).
    rewrite (omap_some _ (λ i, (λ b, if (32 <=? b) && (b <? 128) then b else 46)
                                 (nth (Z.to_nat i) buf 0))) by done.
    pose proof (text_column (Z.to_nat (Z.min 16 len)) buf
                  (λ b, if (32 <=? b) && (b <? 128) then b else 46) Hlen) as Htext.
    rewrite Hk. cbv beta in Htext |- *. rewrite Htext.
    simpl. by rewrite app_nil_r.
  - rewrite (omap_none _ (seqZ 0 16)) by (intros i; unfold hex; by destruct (i <? len)).
    by rewrite (omap_none _ (seqZ 0 k)).
Qed.

(** The whole dump: every line shows the next sixteen bytes, or what is
    left of them. *)
Lemma phex_loop_cells (fuel : nat) : ∀ buf len pos,
  (Z.to_nat len ≤ fuel)%nat → (Z.to_nat len ≤ length buf)%nat →
  phex_bytes (phex_loop fuel buf len pos) = take (Z.to_nat len) buf ∧
  phex_text (phex_loop fuel buf len pos) =
    (λ b, if (32 <=? b) && (b <? 128) then b else 46) <$> take (Z.to_nat len) buf ∧
  phex_offsets (phex_loop fuel buf len pos) =
    (λ k, pos + 16 * Z.of_nat k) <$> seq 0 (Z.to_nat ((len + 15) / 16)).
Proof.
  induction fuel as [|fuel IH]; intros buf len pos Hfuel Hlen.
  - assert (Z.to_nat len = 0%nat) as -> by lia.
    assert (Z.to_nat ((len + 15) / 16) = 0%nat) as ->
      by (Z.to_euclidean_division_equations; lia).
    done.
  - cbn [phex_loop].
    destruct (Z.ltb_spec 0 len) as [Hpos|Hneg].
    + destruct (phex_line_cells buf len pos Hpos ltac:(lia)) as (Hb & Ht & Ho).
      destruct (IH (drop 16 buf) (len - 16) (pos + 16) ltac:(lia)
                  ltac:(rewrite length_drop; lia)) as (Hb' & Ht' & Ho').
      unfold phex_bytes, phex_text, phex_offsets in *.
      rewrite !omap_app, Hb, Ht, Ho, Hb', Ht', Ho'.
      assert (take (Z.to_nat (16 `min` len)) buf ++
              take (Z.to_nat (len - 16)) (drop 16 buf) = take (Z.to_nat len) buf)
        as Htake.
      { destruct (Z.le_gt_cases len 16) as [Hle|Hgt].
        - replace (Z.to_nat (len - 16)) with 0%nat by lia.
          replace (16 `min` len) with len by lia.
          by rewrite take_0, app_nil_r.
        - replace (Z.to_nat (16 `min` len)) with 16%nat by lia.
          rewrite take_take_drop. f_equal. lia. }
      split; [exact Htake|]. split; [by rewrite <- fmap_app, Htake|].
      replace (Z.to_nat ((len + 15) / 16))
        with (S (Z.to_nat ((len - 16 + 15) / 16)))
        by (Z.to_euclidean_division_equations; lia).
      rewrite <- cons_seq, fmap_cons, <- fmap_S_seq, <- list_fmap_compose.
      cbn [app]. f_equal; [lia|].
      apply list_fmap_ext. intros _ k _. simpl. lia.
    + assert (Z.to_nat len = 0%nat) as -> by lia.
      assert (Z.to_nat ((len + 15) / 16) = 0%nat) as ->
        by (Z.to_euclidean_division_equations; lia).
      done.
Qed.

End Phex.

(** X23.  [phex] prints its header and then the [len] bytes of the buffer
    in lines of sixteen: every byte once and in order in the hex column, and
    again in the text column with a dot for what is not printable ASCII; the
    lines start with the offsets 0, 16, 32, ..., one line for every sixteen
    bytes or part of them, and none for a length of zero or less. *)
Theorem phex_dumps_every_byte (buf : list Z) (len : Z) (fmt : string)
    (args : list printf_arg)
    (Hlen : (Z.to_nat len ≤ length buf)%nat) :
  ∃ body,
    phex buf len fmt args = (fmt, args) :: body ∧
    phex_bytes body = take (Z.to_nat len) buf ∧
    phex_text body =
      (λ b, if (32 <=? b) && (b <? 128) then b else 46) <$> take (Z.to_nat len) buf ∧
    phex_offsets body =
      (λ k, 16 * Z.of_nat k) <$> seq 0 (Z.to_nat ((len + 15) / 16)).
Proof.
  exists (phex_loop (Z.to_nat len) buf len 0). split; [done|].
  exact (phex_loop_cells (Z.to_nat len) buf len 0 (le_n _) Hlen).
Qed.

Lemma phex_dumps_every_byte_witness :
  ∃ body,
    phex (seqZ 30 20) 18 "sense buffer:\n" [] = ("sense buffer:\n", []) :: body ∧
    phex_bytes body = seqZ 30 18 ∧
    phex_offsets body = [0; 16].
Proof.
  destruct (phex_dumps_every_byte (seqZ 30 20) 18 "sense buffer:\n" [])
    as (body & Hphex & Hbytes & _ & Hoffsets).
  { vm_compute. lia. }
  exists body. split; [exact Hphex|]. split; [exact Hbytes|exact Hoffsets].
Defined.

(** ** The idle clock *)

Section Clock.

Implicit Types (o : obs) (g : globals) (d : DISKSTATS) (i : Z)
  (steps : list (Z * obs)).

(** From an entry that is not spun down: over steps that read its counters
    unchanged, the standby call is made once if a step on the drive comes
    when the idle time has passed since [last_io], and else not at all. *)
Lemma idle_from i g d steps :
  diskstats_of i g = Some d →
  ds_spun_down d = false →
  Forall (λ s, s.1 = i → reads_counters (ds_reads d) (ds_writes d) s.2 = true) steps →
  ∃ g' ts,
    probe_sequence steps g = (g', ts) ∧
    standby_calls (physical_drive_name i) (concat ts) =
      if existsb (λ s, (s.1 =? i) && negb (ds_idle_time d =? 0) &&
                       (ds_idle_time d <=? o_now s.2 - ds_last_io d)) steps
      then 1%nat else 0%nat.
Proof.
  intros Hentry Hrunning Hquiet.
  destruct (idle_sequence i _ _ steps g d Hquiet Hentry eq_refl eq_refl)
    as (g' & ts & Hseq & _ & _ & Htotal).
  exists g', ts. split; [exact Hseq|].
  rewrite Htotal.
  rewrite (existsb_pointwise (step_is_due i d)
             (λ s, (s.1 =? i) && negb (ds_idle_time d =? 0) &&
                   (ds_idle_time d <=? o_now s.2 - ds_last_io d))); [done|].
  intros s. unfold step_is_due, spin_down_due. rewrite Hrunning.
  by destruct (s.1 =? i), (ds_idle_time d =? 0).
Qed.

(** The pass that makes the entry of a drive. *)
Lemma probe_drive_new i o g :
  reads_now o = true → diskstats_of i g = None → o_malloc o = true →
  ∃ t,
    probe_drive i o g =
      (ctl_continue,
       update_ds_root
         (cons (new_diskstats (it_root (config g)) (physical_drive_name i) (o_now o)
                  (to_uint (o_ReadCount o)) (to_uint (o_WriteCount o)))) g,
       t) ∧
    ∀ n, standby_calls n t = 0%nat.
Proof.
  intros Hreads Hnone Hmalloc. unfold reads_now in Hreads.
  apply reads_counters_spec in Hreads
    as (Hopen & Hr & Hon & Hfixed & Hres & Hbytes & _ & _).
  apply diskstats_of_None in Hnone.
  destruct (ata_check_power_mode_run (physical_drive_name i) o g)
    as (ata & body & Hcheck).
  unfold probe_drive, count_io, get_diskstats. run_m.
  rewrite Hopen. run_m. rewrite Hr, Hon. run_m. rewrite Hfixed. run_m.
  rewrite Hcheck. run_m. rewrite Hres, Hbytes. run_m.
  rewrite Hnone. run_m. rewrite Hmalloc. run_m.
  eexists. split; [reflexivity|].
  intros n. by count_calls.
Qed.

(** The pass that sees activity on a drive with an entry. *)
Lemma probe_drive_activity i o g d reads writes :
  reads_counters reads writes o = true →
  diskstats_of i g = Some d →
  ds_reads d ≠ reads ∨ ds_writes d ≠ writes →
  ∃ g' t,
    probe_drive i o g = (ctl_continue, g', t) ∧
    diskstats_of i g' =
      Some (mk_DISKSTATS (ds_name d) (ds_idle_time d) (o_now o) (ds_spindown d)
              (if ds_spun_down d then o_now o else ds_spinup d) false reads writes) ∧
    ∀ n, standby_calls n t = 0%nat.
Proof.
  intros Hobs Hentry Hchanged.
  apply diskstats_of_Some in Hentry as [p Hfind].
  destruct (probe_drive_known i o g reads writes p d Hobs Hfind)
    as (pre & Hcalls & _ & ->).
  assert ((ds_reads d =? reads) && (ds_writes d =? writes) = false) as ->.
  { apply andb_false_iff. rewrite !Z.eqb_neq. exact Hchanged. }
  do 2 eexists. split; [reflexivity|]. split; [|done].
  apply diskstats_of_Some. exists p. simpl.
  destruct (ds_spun_down d).
  - apply (get_diskstats_alter _ _ p
             (set_last_io (o_now o) (set_counts reads writes (set_spinup (o_now o) d)))
             (set_spun_down false)); [done|].
    by do 3 (apply get_diskstats_alter; [done|]).
  - apply (get_diskstats_alter _ _ p
             (set_last_io (o_now o) (set_counts reads writes d))
             (set_spun_down false)); [done|].
    by do 2 (apply get_diskstats_alter; [done|]).
Qed.

End Clock.

(** X24.  A drive that the program sees for the first time and that stays
    idle is spun down once, by the first later pass on it that comes at
    least its idle time after the first one: the idle clock starts at the
    first observation.  With an idle time of zero it is never spun down. *)
Theorem new_drive_spins_down_after_idle_time (i : Z) (o : obs) (g : globals)
    (steps : list (Z * obs))
    (Hreads : reads_now o = true)
    (Hnone : diskstats_of i g = None)
    (Hmalloc : o_malloc o = true)
    (Hquiet : Forall (λ s, s.1 = i →
                 reads_counters (to_uint (o_ReadCount o)) (to_uint (o_WriteCount o)) s.2
                 = true) steps) :
  ∃ g' ts,
    probe_sequence ((i, o) :: steps) g = (g', ts) ∧
    standby_calls (physical_drive_name i) (concat ts) =
      if existsb
           (λ s, (s.1 =? i) &&
                 negb (find_idle_time (it_root (config g)) (physical_drive_name i) 0 =? 0) &&
                 (find_idle_time (it_root (config g)) (physical_drive_name i) 0
                  <=? o_now s.2 - o_now o)) steps
      then 1%nat else 0%nat.
Proof.
  destruct (probe_drive_new i o g Hreads Hnone Hmalloc) as (t & Hpass & Hcalls).
  set (d := new_diskstats (it_root (config g)) (physical_drive_name i) (o_now o)
              (to_uint (o_ReadCount o)) (to_uint (o_WriteCount o))) in *.
  assert (diskstats_of i (update_ds_root (cons d) g) = Some d) as Hentry.
  { apply diskstats_of_Some. exists 0%nat. apply list_find_Some.
    split; [done|]. split; [done|]. intros j y _ Hj. lia. }
  destruct (idle_from i (update_ds_root (cons d) g) d steps Hentry eq_refl Hquiet)
    as (g' & ts & Hseq & Htotal).
  exists g', (t :: ts). cbn [probe_sequence]. rewrite Hpass, Hseq.
  split; [done|].
  cbn [concat]. rewrite standby_calls_app, Hcalls, Htotal. done.
Qed.

Lemma new_drive_spins_down_after_idle_time_witness :
  ∃ g' ts,
    probe_sequence [(0, obs_running 0 100 50); (0, obs_running 30 100 50);
                    (0, obs_running 60 100 50); (0, obs_running 90 100 50)]
                   (initial_globals initial_startup) = (g', ts) ∧
    standby_calls (physical_drive_name 0) (concat ts) = 1%nat.
Proof.
  destruct (new_drive_spins_down_after_idle_time 0 (obs_running 0 100 50)
              (initial_globals initial_startup)
              [(0, obs_running 30 100 50); (0, obs_running 60 100 50);
               (0, obs_running 90 100 50)] eq_refl eq_refl eq_refl)
    as (g' & ts & Hseq & Htotal).
  { by repeat constructor. }
  exists g', ts. split; [exact Hseq|exact Htotal].
Defined.

(** X25.  Activity restarts the idle clock: after a pass that reads changed
    counters, whether or not the drive was taken to be spun down before, the
    drive is spun down once more, by the first later pass on it that comes
    at least its idle time after the pass that saw the activity, as long as
    the counters stay as they were read then. *)
Theorem activity_restarts_idle_clock (i : Z) (o : obs) (g : globals)
    (d : DISKSTATS) (reads writes : Z) (steps : list (Z * obs))
    (Hobs : reads_counters reads writes o = true)
    (Hentry : diskstats_of i g = Some d)
    (Hchanged : ds_reads d ≠ reads ∨ ds_writes d ≠ writes)
    (Hquiet : Forall (λ s, s.1 = i → reads_counters reads writes s.2 = true) steps) :
  ∃ g' ts,
    probe_sequence ((i, o) :: steps) g = (g', ts) ∧
    standby_calls (physical_drive_name i) (concat ts) =
      if existsb (λ s, (s.1 =? i) && negb (ds_idle_time d =? 0) &&
                       (ds_idle_time d <=? o_now s.2 - o_now o)) steps
      then 1%nat else 0%nat.
Proof.
  destruct (probe_drive_activity i o g d reads writes Hobs Hentry Hchanged)
    as (g1 & t & Hpass & Hentry1 & Hcalls).
  destruct (idle_from i g1 _ steps Hentry1 eq_refl Hquiet)
    as (g' & ts & Hseq & Htotal).
  exists g', (t :: ts). cbn [probe_sequence]. rewrite Hpass, Hseq.
  split; [done|].
  cbn [concat]. rewrite standby_calls_app, Hcalls, Htotal. done.
Qed.

Lemma activity_restarts_idle_clock_witness :
  ∃ g' ts,
    probe_sequence [(0, obs_running 500 101 50); (0, obs_running 560 101 50);
                    (0, obs_running 590 101 50)]
                   (sample_globals true) = (g', ts) ∧
    standby_calls (physical_drive_name 0) (concat ts) = 1%nat.
Proof.
  destruct (activity_restarts_idle_clock 0 (obs_running 500 101 50)
              (sample_globals true) (sample_disk true) 101 50
              [(0, obs_running 560 101 50); (0, obs_running 590 101 50)]
              eq_refl eq_refl)
    as (g' & ts & Hseq & Htotal).
  { left. simpl. lia. }
  { by repeat constructor. }
  exists g', ts. split; [exact Hseq|exact Htotal].
Defined.

(** X26.  A drive with an entry that is found powered off is not sent to
    standby by the passes that follow, however long it stays idle, while
    its counters stay as the entry has them. *)
Theorem drive_found_asleep_is_left_alone (i : Z) (o : obs) (g : globals)
    (d : DISKSTATS) (steps : list (Z * obs))
    (Hopen : o_open_error o = None)
    (Hoff : o_power_r o = false ∨ o_power_fOn o = false)
    (Hentry : diskstats_of i g = Some d)
    (Hquiet : Forall (λ s, s.1 = i →
                 reads_counters (ds_reads d) (ds_writes d) s.2 = true) steps) :
  ∃ g' ts,
    probe_sequence ((i, o) :: steps) g = (g', ts) ∧
    standby_calls (physical_drive_name i) (concat ts) = 0%nat.
Proof.
  assert (negb (o_power_r o) || negb (o_power_fOn o) = true) as Hoff'.
  { destruct Hoff as [-> | ->]; [done|apply orb_true_r]. }
  destruct (probe_drive_asleep_summary i o g Hopen Hoff')
    as (g1 & t & Hpass & _ & Hentry1 & _ & _ & Hcalls & _).
  rewrite Hentry in Hentry1. simpl in Hentry1.
  destruct (idle_sequence i _ _ steps g1 (set_spun_down true d) Hquiet Hentry1
              eq_refl eq_refl)
    as (g' & ts & Hseq & _ & _ & Htotal).
  exists g', (t :: ts). cbn [probe_sequence]. rewrite Hpass, Hseq.
  split; [done|].
  cbn [concat]. rewrite standby_calls_app, Hcalls, Htotal.
  rewrite (existsb_pointwise _ (λ _, false)), existsb_false; [done|].
  intros s. unfold step_is_due, spin_down_due. simpl. apply andb_false_r.
Qed.

Lemma drive_found_asleep_is_left_alone_witness :
  ∃ g' ts,
    probe_sequence [(0, obs_off 10); (0, obs_running 500 100 50);
                    (0, obs_running 900 100 50)]
                   (sample_globals false) = (g', ts) ∧
    standby_calls (physical_drive_name 0) (concat ts) = 0%nat.
Proof.
  destruct (drive_found_asleep_is_left_alone 0 (obs_off 10) (sample_globals false)
              (sample_disk false)
              [(0, obs_running 500 100 50); (0, obs_running 900 100 50)]
              eq_refl (or_intror eq_refl) eq_refl)
    as (g' & ts & Hseq & Htotal).
  { by repeat constructor. }
  exists g', ts. split; [exact Hseq|exact Htotal].
Defined.

(** X27.  A negative idle time, which [atoi] can deliver, is not a way to
    switch the spin-down off: a drive with a negative idle time is sent to
    standby by the first pass that reads unchanged counters, as long as the
    clock has not gone back behind [last_io]. *)
Theorem negative_idle_time_spins_down_at_once (i : Z) (o : obs) (g : globals)
    (d : DISKSTATS)
    (Hobs : reads_counters (ds_reads d) (ds_writes d) o = true)
    (Hentry : diskstats_of i g = Some d)
    (Hrunning : ds_spun_down d = false)
    (Hneg : ds_idle_time d < 0)
    (Hclock : ds_last_io d ≤ o_now o) :
  standby_calls (physical_drive_name i) (probe_drive i o g).2 = 1%nat ∧
  ds_spun_down <$> diskstats_of i (probe_drive i o g).1.2 = Some true.
Proof.
  apply diskstats_of_Some in Hentry as [p Hfind].
  destruct (probe_drive_quiet i o g _ _ p d Hobs Hfind eq_refl eq_refl)
    as (g' & t & -> & Hfind' & _ & Hcalls & _).
  assert (spin_down_due d (o_now o) = true) as Hdue.
  { unfold spin_down_due. rewrite Hrunning. simpl.
    apply andb_true_intro. split.
    - destruct (Z.eqb_spec (ds_idle_time d) 0); [lia|done].
    - apply Z.leb_le. lia. }
  rewrite Hdue in Hcalls, Hfind'. cbn [fst snd].
  split; [exact Hcalls|].
  unfold diskstats_of. by rewrite Hfind'.
Qed.

Lemma negative_idle_time_spins_down_at_once_witness :
  standby_calls (physical_drive_name 0)
    (probe_drive 0 (obs_running 1 100 50)
       (mk_globals initial_startup
          [mk_DISKSTATS "\\.\PhysicalDrive0" (-5) 0 0 0 false 100 50] false)).2 = 1%nat.
Proof.
  refine (proj1 (negative_idle_time_spins_down_at_once 0 (obs_running 1 100 50)
                   (mk_globals initial_startup
                      [mk_DISKSTATS "\\.\PhysicalDrive0" (-5) 0 0 0 false 100 50] false)
                   (mk_DISKSTATS "\\.\PhysicalDrive0" (-5) 0 0 0 false 100 50)
                   eq_refl eq_refl eq_refl _ _)); simpl; lia.
Defined.

(** ** When the standby call is made *)

Section Calls.

Implicit Types (o : obs) (g : globals) (d : DISKSTATS) (i : Z) (n name : string).

(** The standby calls of the counter part of a pass. *)
Lemma count_io_calls name now mode o g n :
  standby_calls n (count_io name now mode o g).2 =
  match list_find (λ ds, ds_name ds = name) (ds_root g) with
  | Some (p, d) =>
    if negb (negb (o_perf_result o) || (o_perf_bytesReturned o <=? 0)) &&
       ((ds_reads d =? to_uint (o_ReadCount o)) &&
        (ds_writes d =? to_uint (o_WriteCount o))) &&
       spin_down_due d now && String.eqb name n
    then 1%nat else 0%nat
  | None => 0%nat
  end.
Proof.
  unfold count_io, get_diskstats, spin_down_due. run_m.
  destruct (negb (o_perf_result o) || (o_perf_bytesReturned o <=? 0)); run_m.
  - destruct ((o_perf_error o =? 1) && negb (tried_diskperf g)); run_m;
      cbn [snd]; count_calls; by destruct (list_find _ _) as [[??]|].
  - destruct (list_find _ (ds_root g)) as [[p d]|] eqn:Hfind; run_m.
    + destruct (update_diskstats_run name now
                  (to_uint (o_ReadCount o)) (to_uint (o_WriteCount o))
                  mode p d o g) as (log & Hlog & ->).
      destruct ((ds_reads d =? to_uint (o_ReadCount o)) &&
                (ds_writes d =? to_uint (o_WriteCount o)));
        [destruct (negb (ds_spun_down d) && negb (ds_idle_time d =? 0) &&
                   (ds_idle_time d <=? now - ds_last_io d))|];
        run_m; cbn [snd]; try (by count_calls).
      destruct (ata_set_standby_mode_run (ds_name d) o g)
        as (ok & body & -> & _).
      cbn [snd]. count_calls.
      rewrite (get_diskstats_name _ _ _ _ Hfind).
      by destruct (String.eqb name n).
    + destruct (o_malloc o); run_m; cbn [snd]; by count_calls.
Qed.

(** The standby calls of a pass. *)
Lemma probe_drive_calls i o g n :
  standby_calls n (probe_drive i o g).2 =
  if standby_due i o g && String.eqb (physical_drive_name i) n then 1%nat else 0%nat.
Proof.
  assert (∀ b : bool, (if b then false else false) = false) as Hff by (by intros []).
  unfold standby_due, diskstats_of, reads_counters.
  destruct (o_open_error o) as [error|] eqn:Hopen.
  - destruct (probe_drive_break i o g error Hopen) as (log & Hlog & ->).
    rewrite bool_decide_eq_false_2 by done.
    cbn [snd]. count_calls. by destruct (list_find _ _) as [[??]|].
  - rewrite bool_decide_eq_true_2 by done.
    destruct (negb (o_power_r o) || negb (o_power_fOn o)) eqn:Hon.
    + rewrite (probe_drive_asleep i o g Hopen Hon). cbn [snd]. count_calls.
      destruct (list_find _ _) as [[??]|]; [|done].
      by destruct (o_power_r o), (o_power_fOn o).
    + assert (o_power_r o = true ∧ o_power_fOn o = true) as [Hr Hf]
        by (by destruct (o_power_r o), (o_power_fOn o)).
      rewrite Hr, Hf.
      destruct (o_drive_type o =? DRIVE_FIXED) eqn:Hfixed.
      * destruct (probe_drive_fixed i o g Hopen Hon Hfixed) as (ata & body & ->).
        pose proof (count_io_calls (physical_drive_name i) (o_now o)
                      (ata_power_mode_string ata) o g n) as Hcount.
        destruct (count_io _ _ _ o g) as [[c g1] t1].
        cbn [fst snd] in *. count_calls. rewrite Hcount.
        destruct (list_find _ _) as [[p d]|]; [|done]. cbn [snd fmap option_fmap option_map].
        rewrite (Z.leb_antisym 0 (o_perf_bytesReturned o)).
        rewrite (Z.eqb_sym (to_uint (o_ReadCount o))), (Z.eqb_sym (to_uint (o_WriteCount o))).
        by destruct (o_perf_result o), (0 <? o_perf_bytesReturned o),
          (ds_reads d =? to_uint (o_ReadCount o)),
          (ds_writes d =? to_uint (o_WriteCount o)).
      * rewrite (probe_drive_not_fixed i o g Hopen Hon Hfixed). cbn [snd].
        count_calls. by destruct (list_find _ _) as [[??]|].
Qed.

(** The standby calls of a round, for the name of a drive that the round
    has left behind and for any name. *)
Lemma probe_drives_calls (w : Z → obs) (m : nat) name : ∀ i g,
  (standby_calls name (probe_drives m i w g).2 ≤ 1)%nat ∧
  (∀ j, j < i → name = physical_drive_name j →
        standby_calls name (probe_drives m i w g).2 = 0%nat).
Proof.
  induction m as [|m IH]; intros i g.
  { split; [|intros j _ _]; cbn [probe_drives snd]; unfold standby_calls;
      simpl; lia. }
  cbn [probe_drives].
  pose proof (probe_drive_calls i (w i) g name) as Hpass.
  destruct (probe_drive i (w i) g) as [[c g1] t1]. cbn [snd] in Hpass.
  assert (∀ j, j < i → name = physical_drive_name j →
               standby_calls name t1 = 0%nat) as Hbehind.
  { intros j Hj ->. rewrite Hpass.
    destruct (String.eqb_spec (physical_drive_name i) (physical_drive_name j))
      as [Heq|Hne]; [|by rewrite andb_false_r].
    apply physical_drive_name_inj in Heq. lia. }
  assert (standby_calls name t1 ≤ 1)%nat as Hone.
  { rewrite Hpass. destruct (_ && _); lia. }
  destruct c; cbn [snd]; try (split; [exact Hone|exact Hbehind]).
  destruct (IH (i + 1) g1) as [Hrest Hrest0].
  destruct (probe_drives m (i + 1) w g1) as [[r g2] t2]. cbn [snd] in *.
  rewrite standby_calls_app. split.
  - destruct (String.eqb_spec (physical_drive_name i) name) as [Heq|Hne].
    + rewrite (Hrest0 i) by (lia || done). lia.
    + rewrite Hpass, andb_false_r. lia.
  - intros j Hj Hname.
    rewrite (Hbehind j Hj Hname), (Hrest0 j) by (lia || done). done.
Qed.

End Calls.

(** X28.  A pass makes the standby call in one case only: the drive has an
    entry, the counters read are those of the entry, the entry is not marked
    spun down, its idle time is not zero and has passed since the last
    activity.  The call is then made once, for the drive of the pass and for
    no other. *)
Theorem standby_call_only_when_due (i : Z) (o : obs) (g : globals) (n : string) :
  (standby_calls n (probe_drive i o g).2 ≤ 1)%nat ∧
  (standby_calls n (probe_drive i o g).2 = 1%nat ↔
   n = physical_drive_name i ∧
   ∃ d, diskstats_of i g = Some d ∧
        reads_counters (ds_reads d) (ds_writes d) o = true ∧
        spin_down_due d (o_now o) = true).
Proof.
  rewrite probe_drive_calls. unfold standby_due.
  destruct (String.eqb_spec (physical_drive_name i) n) as [Heq|Hne].
  - rewrite andb_true_r.
    destruct (diskstats_of i g) as [d|].
    + destruct (reads_counters (ds_reads d) (ds_writes d) o) eqn:Hobs;
        [destruct (spin_down_due d (o_now o)) eqn:Hdue|]; cbn [andb];
        (split; [lia|]); split; try done;
        try (intros _; split; [done|]; by exists d);
        intros (_ & d' & [= <-] & Hobs' & Hdue'); congruence.
    + split; [lia|]. split; [done|]. by intros (_ & d' & Hsome & _).
  - rewrite andb_false_r. split; [lia|]. split; [done|]. by intros [Hn _].
Qed.

(** X29.  No round sends a drive to standby twice: for every name, a round
    of the loop over the drives makes at most one standby call. *)
Theorem round_calls_standby_at_most_once (m : nat) (i : Z) (w : Z → obs)
    (g : globals) (name : string) :
  (standby_calls name (probe_drives m i w g).2 ≤ 1)%nat.
Proof. apply probe_drives_calls. Qed.
